(** * test-case-generator: the structural analyzer and the test synthesizer

    A shallow embedding of [backend/src/services/astParser.js] and
    [backend/src/services/testGenerator.js], and the properties of the
    specification settled against it (Part II); further properties of the
    two services (Parts III and IV) and of [transaction] of
    [backend/src/config/database.js] (Part V).

    Conventions of the embedding.
    - JavaScript text is a [string] that holds the UTF-8 form of the text.
      The source text handed to the analyzer is a list of UTF-16 code units,
      because its [length] is what the code compares.
    - A call that can raise returns an [outcome]; [Throw] carries the error
      object ([code], [message]).
    - The clock, [Math.random] and the template table are a [world] read
      through counters kept in an explicit state.
    - The syntax tree is the tree [@babel/parser] builds; the parser itself
      is a parameter, and so is the scope builder that [@babel/traverse] runs
      on the program before the first visitor.  The traversal follows
      [@babel/traverse]: it visits a node, then its children in field order;
      it calls every visitor function with the traversal state as [this] and
      raises when one returns a truthy value.  [@babel/types] has a validator
      [isX] for each of its node types [X] and no other.
    - Error messages are those of V8.
    - [console.log] / [console.error] calls are not observable here and are
      left out. *)

From Stdlib Require Import String Ascii List ZArith Lia DecimalString Bool.
From stdpp Require Import gmap strings.
Import ListNotations.
Open Scope string_scope.
Set Warnings "-register-all".

(* ================================================================== *)
(** * Part I. Definitions                                              *)
(* ================================================================== *)

(** ** Outcomes of JavaScript calls *)

Record js_error := JsError { err_code : option string; err_message : string }.

Inductive outcome (A : Type) : Type :=
| Ok (a : A)
| Throw (e : js_error)
| Beyond.
Arguments Ok {A} a.
Arguments Throw {A} e.
Arguments Beyond {A}.

(** [Beyond] marks a run that leaves the fragment of the language runtime
    covered by this development (see [RegExp_literal]). *)

Definition obind {A B} (m : outcome A) (k : A -> outcome B) : outcome B :=
  match m with
  | Ok a => k a
  | Throw e => Throw e
  | Beyond => Beyond
  end.

(** [new Error(msg)] and the engine's [TypeError]s have no [code]. *)
Definition new_Error (msg : string) : js_error := JsError None msg.

Definition cannot_read (prop : string) : js_error :=
  new_Error ("Cannot read properties of undefined (reading '" ++ prop ++ "')").

(** ** Strings: the [String.prototype] methods the code calls *)

Definition lower_ascii (c : ascii) : ascii :=
  let n := nat_of_ascii c in
  if (65 <=? n)%nat && (n <=? 90)%nat then ascii_of_nat (n + 32) else c.

Definition byte_is (n : nat) (c : ascii) : bool := (nat_of_ascii c =? n)%nat.

(** [s.toLowerCase()].  Besides [A]-[Z], two characters of Unicode have an
    ASCII letter in their lowercase form: the Kelvin sign U+212A (bytes
    E2 84 AA) becomes [k], and the capital I with dot U+0130 (bytes C4 B0)
    becomes [i] followed by the combining dot U+0307 (bytes CC 87).  Every
    other character outside ASCII has a lowercase form outside ASCII; its
    bytes are kept as they are, which no search for an ASCII word in the
    result can tell from the conversion. *)
Fixpoint lower (s : string) : string :=
  match s with
  | EmptyString => EmptyString
  | String c r =>
      match r with
      | String c1 r1 =>
          if byte_is 196 c && byte_is 176 c1 then
            String "i" (String (ascii_of_nat 204) (String (ascii_of_nat 135) (lower r1)))
          else
            match r1 with
            | String c2 r2 =>
                if byte_is 226 c && byte_is 132 c1 && byte_is 170 c2 then
                  String "k" (lower r2)
                else String (lower_ascii c) (lower r)
            | EmptyString => String (lower_ascii c) (lower r)
            end
      | EmptyString => String (lower_ascii c) (lower r)
      end
  end.

(** The Kelvin sign U+212A and the capital I with dot U+0130, in UTF-8. *)
Definition kelvin_sign : string :=
  String (ascii_of_nat 226) (String (ascii_of_nat 132) (String (ascii_of_nat 170) "")).

Definition dotted_capital_i : string :=
  String (ascii_of_nat 196) (String (ascii_of_nat 176) "").

(** [x.toLowerCase()] where [x] may be [undefined] ([None]). *)
Definition toLowerCase (x : option string) : outcome string :=
  match x with
  | Some s => Ok (lower s)
  | None => Throw (cannot_read "toLowerCase")
  end.

(** Whether [s] starts with [p]. *)
Fixpoint starts_with (p s : string) : bool :=
  match p with
  | EmptyString => true
  | String a p' =>
      match s with
      | EmptyString => false
      | String b s' => Ascii.eqb a b && starts_with p' s'
      end
  end.

(** [s.includes(sub)] *)
Fixpoint includes (sub s : string) : bool :=
  if starts_with sub s then true
  else match s with
       | EmptyString => false
       | String _ r => includes sub r
       end.

(** [`${x}`] for a name that may be [undefined]. *)
Definition show_name (x : option string) : string :=
  match x with Some s => s | None => "undefined" end.

(** [arr.join(sep)]: [undefined] elements print as the empty string. *)
Fixpoint join (sep : string) (l : list (option string)) : string :=
  match l with
  | [] => ""
  | [x] => match x with Some s => s | None => "" end
  | x :: r => match x with Some s => s | None => "" end ++ sep ++ join sep r
  end.

Definition show_nat (n : nat) : string := NilZero.string_of_uint (Nat.to_uint n).
Definition show_Z (z : Z) : string := NilZero.string_of_int (Z.to_int z).

(** [`${line}`] for a line number that may be [null]. *)
Definition show_line (l : option nat) : string :=
  match l with Some n => show_nat n | None => "null" end.

(** ** Values *)

(** Numbers that the code writes as literals: [NaN], or the decimal
    [m * 10^-e] ([100.50] is [Dec 1005 1]). *)
Inductive number := NaN | Dec (m : Z) (e : nat).

Definition int (z : Z) : number := Dec z 0.

Inductive jsval :=
| VUndefined
| VNull
| VBool (b : bool)
| VNum (n : number)
| VStr (s : string)
| VArr (items : list jsval)
| VObj (fields : list (string * jsval)).

Definition truthy (v : jsval) : bool :=
  match v with
  | VUndefined | VNull => false
  | VBool b => b
  | VNum NaN => false
  | VNum (Dec m _) => negb (m =? 0)%Z
  | VStr s => negb (String.eqb s "")
  | VArr _ | VObj _ => true
  end.

(** [obj[key] = v]: an existing property keeps its place, a new one is added
    last.  Keys here are parameter names, never array indices, so the
    enumeration order is the insertion order.  The key [__proto__] is not
    covered: assigning it sets the prototype and adds no property (see
    [ordinary_param]). *)
Fixpoint obj_set (key : string) (v : jsval) (o : list (string * jsval))
  : list (string * jsval) :=
  match o with
  | [] => [(key, v)]
  | (k, x) :: r => if String.eqb k key then (k, v) :: r else (k, x) :: obj_set key v r
  end.

(** ** [Date.prototype.toISOString] *)

Fixpoint zeros (n : nat) : string :=
  match n with O => "" | S k => "0" ++ zeros k end.

Definition pad_left (width : nat) (s : string) : string :=
  zeros (width - String.length s) ++ s.

Definition pad (width : nat) (z : Z) : string :=
  pad_left width (show_Z z).

(** Civil date of a day count since 1970-01-01 (proleptic Gregorian). *)
Definition civil_from_days (days : Z) : Z * Z * Z :=
  let z := (days + 719468)%Z in
  let era := (z / 146097)%Z in
  let doe := (z - era * 146097)%Z in
  let yoe := ((doe - doe / 1460 + doe / 36524 - doe / 146096) / 365)%Z in
  let doy := (doe - (365 * yoe + yoe / 4 - yoe / 100))%Z in
  let mp := ((5 * doy + 2) / 153)%Z in
  let d := (doy - (153 * mp + 2) / 5 + 1)%Z in
  let m := if (mp <? 10)%Z then (mp + 3)%Z else (mp - 9)%Z in
  let y := (yoe + era * 400 + (if (m <=? 2)%Z then 1 else 0))%Z in
  (y, m, d).

Definition show_year (y : Z) : string :=
  if (0 <=? y)%Z && (y <=? 9999)%Z then pad 4 y
  else if (y <? 0)%Z then "-" ++ pad 6 (- y) else "+" ++ pad 6 y.

(** [new Date(t).toISOString()] for a time value [t] in milliseconds. *)
Definition toISOString (t : Z) : string :=
  let days := (t / 86400000)%Z in
  let ms := (t mod 86400000)%Z in
  let '(y, m, d) := civil_from_days days in
  show_year y ++ "-" ++ pad 2 m ++ "-" ++ pad 2 d ++ "T"
    ++ pad 2 (ms / 3600000) ++ ":" ++ pad 2 (ms / 60000 mod 60) ++ ":"
    ++ pad 2 (ms / 1000 mod 60) ++ "." ++ pad 3 (ms mod 1000) ++ "Z".

(** ** The heuristic value generator (testGenerator.js) *)

(** [generateSampleValueByName(paramName)] *)
Definition generateSampleValueByName (paramName : option string) : outcome jsval :=
  obind (toLowerCase paramName) (fun name =>
  if includes "id" name || includes "index" name || includes "count" name then
    Ok (VNum (int 1))
  else if includes "age" name || includes "year" name then
    Ok (VNum (int 25))
  else if includes "price" name || includes "amount" name || includes "value" name then
    Ok (VNum (Dec 1005 1))
  else if includes "name" name || includes "title" name then
    Ok (VStr "Test Name")
  else if includes "email" name then
    Ok (VStr "test@example.com")
  else if includes "url" name || includes "link" name then
    Ok (VStr "https://example.com")
  else if includes "password" name then
    Ok (VStr "Test123!")
  else if includes "is" name || includes "has" name || includes "can" name then
    Ok (VBool true)
  else if includes "list" name || includes "array" name || includes "items" name then
    Ok (VArr [VStr "item1"; VStr "item2"])
  else if includes "user" name || includes "person" name then
    Ok (VObj [("id", VNum (int 1)); ("name", VStr "Test User")])
  else if includes "config" name || includes "options" name then
    Ok (VObj [("option1", VBool true); ("option2", VStr "value")])
  else
    Ok (VStr "testValue")).

(** [generateHighQualityValue(paramName)]; [now] is the time value that
    [new Date()] reads when the call is made. *)
Definition generateHighQualityValue (now : Z) (paramName : option string)
  : outcome jsval :=
  obind (toLowerCase paramName) (fun name =>
  if includes "email" name then Ok (VStr "user@domain.com")
  else if includes "phone" name then Ok (VStr "+1234567890")
  else if includes "date" name then Ok (VStr (toISOString now))
  else if includes "url" name then Ok (VStr "https://validurl.com/path")
  else if includes "name" name then Ok (VStr "Valid Name")
  else Ok (VStr "validValue")).

(** ** [JSON.stringify] *)

Definition DQ : string := String (ascii_of_nat 34) "".
Definition BSL : string := String (ascii_of_nat 92) "".

Definition hex_digit (n : nat) : string :=
  String.substring n 1 "0123456789abcdef".

Definition json_escape (c : ascii) : string :=
  let n := nat_of_ascii c in
  if (n =? 34)%nat then BSL ++ DQ
  else if (n =? 92)%nat then BSL ++ BSL
  else if (n =? 8)%nat then BSL ++ "b"
  else if (n =? 12)%nat then BSL ++ "f"
  else if (n =? 10)%nat then BSL ++ "n"
  else if (n =? 13)%nat then BSL ++ "r"
  else if (n =? 9)%nat then BSL ++ "t"
  else if (n <? 32)%nat then BSL ++ "u00" ++ hex_digit (n / 16) ++ hex_digit (n mod 16)
  else String c "".

Fixpoint json_escape_all (s : string) : string :=
  match s with
  | EmptyString => ""
  | String c r => json_escape c ++ json_escape_all r
  end.

Definition json_quote (s : string) : string := DQ ++ json_escape_all s ++ DQ.

Fixpoint strip_zeros (s : string) : string :=
  match s with
  | EmptyString => ""
  | String c r =>
      let r' := strip_zeros r in
      if String.eqb r' "" && Ascii.eqb c "0" then "" else String c r'
  end.

(** [String(n)] for the decimals written in the code (no exponent form). *)
Definition show_number (n : number) : string :=
  match n with
  | NaN => "NaN"
  | Dec m e =>
      let digits := pad_left (S e) (show_Z (Z.abs m)) in
      let k := (String.length digits - e)%nat in
      let fp := strip_zeros (String.substring k e digits) in
      (if (m <? 0)%Z then "-" else "") ++ String.substring 0 k digits
        ++ (if String.eqb fp "" then "" else "." ++ fp)
  end.

Definition commas (l : list string) : string :=
  join "," (map Some l).

(** [JSON.stringify(v)]; [None] is the [undefined] it returns for [undefined]. *)
Fixpoint stringify (v : jsval) : option string :=
  match v with
  | VUndefined => None
  | VNull => Some "null"
  | VBool b => Some (if b then "true" else "false")
  | VNum NaN => Some "null"
  | VNum n => Some (show_number n)
  | VStr s => Some (json_quote s)
  | VArr items =>
      Some ("[" ++ commas
        ((fix each (l : list jsval) : list string :=
            match l with
            | [] => []
            | x :: r => match stringify x with Some s => s | None => "null" end :: each r
            end) items) ++ "]")
  | VObj fields =>
      Some ("{" ++ commas
        ((fix each (l : list (string * jsval)) : list string :=
            match l with
            | [] => []
            | (k, x) :: r =>
                match stringify x with
                | Some s => (json_quote k ++ ":" ++ s) :: each r
                | None => each r
                end
            end) fields) ++ "}")
  end.

(** [`${JSON.stringify(v)}`] *)
Definition show_json (v : jsval) : string :=
  match stringify v with Some s => s | None => "undefined" end.

(** ** [String.prototype.replace] with a global literal pattern *)

(** [GetSubstitution] of ECMA-262 for a match without capture groups:
    [$$] is a dollar, [$&] the matched text, [$`] the text before the match,
    [$'] the text after it; any other [$] stands for itself. *)
Fixpoint GetSubstitution (matched before after replacement : string) : string :=
  match replacement with
  | EmptyString => ""
  | String a t =>
      if Ascii.eqb a "$" then
        match t with
        | EmptyString => "$"
        | String c r =>
            if Ascii.eqb c "$" then "$" ++ GetSubstitution matched before after r
            else if Ascii.eqb c "&" then matched ++ GetSubstitution matched before after r
            else if Ascii.eqb c "`" then before ++ GetSubstitution matched before after r
            else if Ascii.eqb c "'" then after ++ GetSubstitution matched before after r
            else String a (GetSubstitution matched before after t)
        end
      else String a (GetSubstitution matched before after t)
  end.

Fixpoint drop (n : nat) (s : string) : string :=
  match n, s with
  | S k, String _ r => drop k r
  | _, _ => s
  end.

(** The scan of [str.replace(/pat/g, replacement)] for a non-empty literal
    [pat]: matches are found left to right in the original text and do not
    overlap.  [before] is the text already passed, [skip] the characters of
    the current match still to pass. *)
Fixpoint replace_from (pat replacement before : string) (skip : nat) (s : string)
  : string :=
  match s with
  | EmptyString => ""
  | String c r =>
      match skip with
      | S k => replace_from pat replacement (before ++ String c "") k r
      | O =>
          if starts_with pat s then
            GetSubstitution pat before (drop (String.length pat) s) replacement
              ++ replace_from pat replacement (before ++ String c "")
                   (String.length pat - 1) r
          else String c (replace_from pat replacement (before ++ String c "") 0 r)
      end
  end.

Definition replace_all (pat replacement s : string) : string :=
  replace_from pat replacement "" 0 s.

(** ** The template renderer (testGenerator.js) *)

Definition is_letter (c : ascii) : bool :=
  let n := nat_of_ascii c in
  ((65 <=? n)%nat && (n <=? 90)%nat) || ((97 <=? n)%nat && (n <=? 122)%nat).

Definition is_digit (c : ascii) : bool :=
  let n := nat_of_ascii c in (48 <=? n)%nat && (n <=? 57)%nat.

Definition word_start (c : ascii) : bool := is_letter c || Ascii.eqb c "_".
Definition word_char (c : ascii) : bool := word_start c || is_digit c.

Fixpoint all_chars (p : ascii -> bool) (s : string) : bool :=
  match s with
  | EmptyString => true
  | String c r => p c && all_chars p r
  end.

(** Keys shaped like an identifier without [$]. *)
Definition plain_key (k : string) : bool :=
  match k with
  | EmptyString => false
  | String c r => word_start c && all_chars word_char r
  end.

Definition placeholder (key : string) : string := "{{" ++ key ++ "}}".

(** [new RegExp(`{{${key}}}`, 'g')].  For a [plain_key] every character of the
    source stands for itself (a brace that opens no quantifier is a literal
    in a non-unicode pattern), so the expression matches exactly the text
    [placeholder key]; that text is returned.  Other keys can put pattern
    syntax into the expression: they are [Beyond] this development. *)
Definition RegExp_literal (key : string) : outcome string :=
  if plain_key key then Ok (placeholder key) else Beyond.

(** [populateTemplate(template, data)]: [data] lists the own properties of the
    binding object in [Object.keys] order, with text values; [template] is
    [None] when the caller passes [undefined]. *)
Fixpoint populateTemplate (template : option string) (data : list (string * string))
  : outcome (option string) :=
  match data with
  | [] => Ok template
  | (key, value) :: rest =>
      obind (RegExp_literal key) (fun regex =>
      match template with
      | None => Throw (cannot_read "replace")
      | Some populated => populateTemplate (Some (replace_all regex value populated)) rest
      end)
  end.

(** [getDefaultTemplates()] *)
Definition default_unit_template : string := Eval cbv in
  "describe(" ++ DQ ++ "{{functionName}}" ++ DQ ++ ", () => {
  test(" ++ DQ ++ "{{testDescription}}" ++ DQ ++ ", () => {
    const input = {{inputData}};
    const expected = {{expectedOutput}};
    
    const result = {{functionName}}({{inputParams}});
    
    expect(result).{{assertion}}(expected);
  });
});".

Definition default_edge_case_template : string := Eval cbv in
  "describe(" ++ DQ ++ "{{functionName}} - Edge Cases" ++ DQ ++ ", () => {
  test(" ++ DQ ++ "should handle {{edgeCase}}" ++ DQ ++ ", () => {
    expect(() => {{functionName}}({{inputData}})).{{expectation}};
  });
});".

Definition getDefaultTemplates : gmap string string :=
  <["edge_case" := default_edge_case_template]>
    (<["unit" := default_unit_template]> ∅).

(** The rows that the migration script stores in [test_templates] for
    [javascript] and [jest] ([seedData]): the unit template, which differs
    from the built-in one by three comment lines, and the edge-case
    template, which is the built-in one. *)
Definition seeded_unit_template : string := Eval cbv in
  "describe(" ++ DQ ++ "{{functionName}}" ++ DQ ++ ", () => {
  test(" ++ DQ ++ "{{testDescription}}" ++ DQ ++ ", () => {
    // Arrange
    const input = {{inputData}};
    const expected = {{expectedOutput}};
    
    // Act
    const result = {{functionName}}({{inputParams}});
    
    // Assert
    expect(result).{{assertion}}(expected);
  });
});".

Definition seeded_rows : list (string * string) :=
  [("unit", seeded_unit_template); ("edge_case", default_edge_case_template)].

(** ** The analysis result (astParser.js, [analysis]) *)

Record ParamInfo := { p_name : option string; p_type : string }.

Record FunctionInfo := {
  f_name : option string;
  f_type : string;
  f_params : list ParamInfo;
  f_async : bool;
  f_generator : bool;
  f_line : option nat;
  f_complexity : Z }.

Record MethodInfo := {
  m_name : string; m_kind : option string; m_static : bool; m_async : bool }.

Record PropertyInfo := { pr_name : string; pr_static : bool }.

Record ClassInfo := {
  c_name : option string;
  c_superClass : jsval;
  c_methods : list MethodInfo;
  c_properties : list PropertyInfo;
  c_line : option nat }.

Record VariableInfo := {
  v_name : option string; v_kind : option string; v_hasInitializer : bool;
  v_line : option nat }.

Record ImportSpecifier := {
  is_type : string; is_local : option string; is_imported : jsval }.

Record ImportInfo := { i_source : option string; i_specifiers : list ImportSpecifier }.

Record ExportInfo := {
  e_type : string; e_line : option nat;
  e_name : option (option string);      (* absent, or the value stored *)
  e_kind : option string;
  e_names : option (list (option string)) }.

Record ConditionalInfo := { cond_type : string; cond_line : option nat; hasElse : bool }.

Record LoopInfo := { loop_type : string; loop_line : option nat }.

Record TryInfo := { hasCatch : bool; hasFinally : bool; try_line : option nat }.

Record ComplexityMetrics := {
  cyclomaticComplexity : Z;
  linesOfCode : nat;
  functionsCount : nat;
  classesCount : nat;
  maxNestingDepth : Z }.

Record Analysis := {
  functions : list FunctionInfo;
  classes : list ClassInfo;
  variables : list VariableInfo;
  imports : list ImportInfo;
  exports : list ExportInfo;
  conditionals : list ConditionalInfo;
  loops : list LoopInfo;
  trycatch : list TryInfo;
  complexity : ComplexityMetrics }.

(** ** The world the synthesizer reads *)

Record world := {
  (** rows of [test_templates] returned to the n-th query, [None] when the
      query is rejected *)
  db_rows : nat -> option (list (string * string));
  (** whether the n-th [Math.random()] is above one half *)
  random_above_half : nat -> bool;
  (** the time value read by the n-th call of [generateHighQualityValue] *)
  clock : nat -> Z }.

Record counters := { queries : nat; flips : nat; ticks : nat }.

Definition M (A : Type) : Type := world -> counters -> outcome (A * counters).

Definition ret {A} (a : A) : M A := fun _ c => Ok (a, c).

Definition bind {A B} (m : M A) (k : A -> M B) : M B :=
  fun w c =>
    match m w c with
    | Ok (a, c') => k a w c'
    | Throw e => Throw e
    | Beyond => Beyond
    end.

Definition lift {A} (o : outcome A) : M A :=
  fun _ c => obind o (fun a => Ok (a, c)).

Notation "'do' x <- m ;; k" := (bind m (fun x => k))
  (at level 10, x name, m at level 99, k at level 200).

Definition query_templates : M (option (list (string * string))) :=
  fun w c => Ok (db_rows w (queries c),
                 {| queries := S (queries c); flips := flips c; ticks := ticks c |}).

Definition Math_random_above_half : M bool :=
  fun w c => Ok (random_above_half w (flips c),
                 {| queries := queries c; flips := S (flips c); ticks := ticks c |}).

Definition read_clock : M Z :=
  fun w c => Ok (clock w (ticks c),
                 {| queries := queries c; flips := flips c; ticks := S (ticks c) |}).

(** ** The test synthesizer (testGenerator.js) *)

Definition testTypes_UNIT := "unit".
Definition testTypes_INTEGRATION := "integration".
Definition testTypes_EDGE_CASE := "edge_case".
Definition testTypes_NEGATIVE := "negative".

Definition priorities_LOW : Z := 1.
Definition priorities_MEDIUM : Z := 2.
Definition priorities_HIGH : Z := 3.

Record TestCase := {
  analysis_id : jsval;
  function_name : option string;
  test_type : string;
  description : string;
  input_data : jsval;
  expected_output : jsval;
  test_code : option string;
  priority : Z;
  status : string }.

(** [generateInputData(params)]; the accumulator is the object built so far. *)
Fixpoint generateInputData_from (params : list ParamInfo) (index : nat)
    (inputData : list (string * jsval)) : outcome (list (string * jsval)) :=
  match params with
  | [] => Ok inputData
  | param :: rest =>
      obind
        (if String.eqb (p_type param) "identifier" then
           generateSampleValueByName (p_name param)
         else if String.eqb (p_type param) "default" then Ok (VStr "DEFAULT_VALUE")
         else if String.eqb (p_type param) "rest" then
           Ok (VArr [VNum (int 1); VNum (int 2); VNum (int 3)])
         else Ok (VStr ("param" ++ show_nat index)))
        (fun v =>
           generateInputData_from rest (S index)
             (obj_set (show_name (p_name param)) v inputData))
  end.

Definition generateInputData (params : list ParamInfo) : outcome (list (string * jsval)) :=
  generateInputData_from params 0 [].

Definition invalidValues : list jsval :=
  [VNull; VUndefined; VStr ""; VNum (int 0); VNum (int (-1)); VNum NaN;
   VObj []; VArr []; VBool false].

(** [params[targetIndex]], then a property read on it. *)
Definition param_at (params : list ParamInfo) (targetIndex : nat) : outcome ParamInfo :=
  match nth_error params targetIndex with
  | Some p => Ok p
  | None => Throw (cannot_read "name")
  end.

Definition generateInvalidParamData (params : list ParamInfo) (targetIndex : nat)
  : outcome (list (string * jsval)) :=
  obind (generateInputData params) (fun inputData =>
  obind (param_at params targetIndex) (fun targetParam =>
  Ok (obj_set (show_name (p_name targetParam))
        (nth (targetIndex mod List.length invalidValues) invalidValues VUndefined)
        inputData))).

Fixpoint generateNullParamData_from (params : list ParamInfo)
    (inputData : list (string * jsval)) : M (list (string * jsval)) :=
  match params with
  | [] => ret inputData
  | param :: rest =>
      do above <- Math_random_above_half ;;
      generateNullParamData_from rest
        (obj_set (show_name (p_name param)) (if above then VNull else VUndefined) inputData)
  end.

Definition generateNullParamData (params : list ParamInfo) : M (list (string * jsval)) :=
  generateNullParamData_from params [].

Definition generateValidParamData (params : list ParamInfo) (targetIndex : nat)
  : M (list (string * jsval)) :=
  do inputData <- lift (generateInputData params) ;;
  do targetParam <- lift (param_at params targetIndex) ;;
  do now <- read_clock ;;
  do v <- lift (generateHighQualityValue now (p_name targetParam)) ;;
  ret (obj_set (show_name (p_name targetParam)) v inputData).

Definition generateExpectedOutput (func : FunctionInfo) (isAsync : bool) : outcome jsval :=
  let description := VStr ("Saída esperada de " ++ show_name (f_name func)) in
  obind (toLowerCase (f_name func)) (fun name =>
  let output :=
    if includes "get" name || includes "find" name then
      VObj [("type", VStr "object_or_null"); ("description", description);
            ("value", VObj [("id", VNum (int 1)); ("data", VStr "example")])]
    else if includes "is" name || includes "has" name || includes "can" name then
      VObj [("type", VStr "boolean"); ("description", description); ("value", VBool true)]
    else if includes "count" name || includes "length" name then
      VObj [("type", VStr "number"); ("description", description); ("value", VNum (int 0))]
    else if includes "list" name || includes "all" name then
      VObj [("type", VStr "array"); ("description", description); ("value", VArr [])]
    else if includes "create" name || includes "save" name then
      VObj [("type", VStr "object"); ("description", description);
            ("value", VObj [("id", VNum (int 1)); ("created", VBool true)])]
    else VObj [("type", VStr "unknown"); ("description", description)] in
  Ok (if isAsync then VObj [("type", VStr "promise"); ("resolves", output)] else output)).

Definition generateErrorExpectation (func : FunctionInfo) : jsval :=
  VObj [("type", VStr "error"); ("shouldThrow", VBool true); ("errorType", VStr "Error");
        ("message", VStr ("Erro esperado em " ++ show_name (f_name func)
                            ++ " com parâmetros inválidos"))].

Definition calculatePriority (func : FunctionInfo) : Z :=
  if (10 <=? f_complexity func)%Z then priorities_HIGH
  else if (5 <=? f_complexity func)%Z then priorities_MEDIUM
  else priorities_LOW.

(** [getTestTemplates(language, framework)]: the rows of the table keyed by
    test type, or the built-in templates when the query is rejected. *)
Definition templates_of_rows (rows : option (list (string * string)))
  : gmap string string :=
  match rows with
  | Some rows => fold_left (fun templates row => <[fst row := snd row]> templates) rows ∅
  | None => getDefaultTemplates
  end.

Definition getTestTemplates : M (gmap string string) :=
  do rows <- query_templates ;;
  ret (templates_of_rows rows).

(** The three kinds of code [generateTestCode] builds itself. *)
Definition async_code (func : FunctionInfo) (inputData : list (string * jsval)) : string :=
  "describe(" ++ DQ ++ show_name (f_name func) ++ DQ ++ ", () => {
  test(" ++ DQ ++ "deve executar função async corretamente" ++ DQ ++ ", async () => {
    const input = " ++ show_json (VObj inputData) ++ ";
    
    const result = await " ++ show_name (f_name func) ++ "("
    ++ join ", " (map (fun p => Some ("input." ++ show_name (p_name p))) (f_params func))
    ++ ");
    
    expect(result).toBeDefined();
  });
});".

Fixpoint invalid_args (params : list ParamInfo) (i paramIndex : nat) : list (option string) :=
  match params with
  | [] => []
  | _ :: rest =>
      Some (if (i =? paramIndex)%nat then "null" else "'validValue'")
        :: invalid_args rest (S i) paramIndex
  end.

Definition invalid_param_code (func : FunctionInfo) (param : ParamInfo) (paramIndex : nat)
  : string :=
  "describe(" ++ DQ ++ show_name (f_name func) ++ DQ ++ ", () => {
  test(" ++ DQ ++ "deve lidar com parâmetro " ++ show_name (p_name param) ++ " inválido"
    ++ DQ ++ ", () => {
    expect(() => {
      " ++ show_name (f_name func) ++ "("
    ++ join ", " (invalid_args (f_params func) 0 paramIndex) ++ ");
    }).toThrow();
  });
});".

Definition stub_code (func : FunctionInfo) (testType : string) : string :=
  "// Código de teste para " ++ show_name (f_name func) ++ " - " ++ testType.

(** [generateTestCode(func, testType, paramIndex)] *)
Definition generateTestCode (func : FunctionInfo) (testType : string) (paramIndex : nat)
  : M (option string) :=
  do templates <- getTestTemplates ;;
  if String.eqb testType "basic" then
    do inputData <- lift (generateInputData (f_params func)) ;;
    lift (populateTemplate (templates !! "unit")
      [("functionName", show_name (f_name func));
       ("testDescription", "deve executar " ++ show_name (f_name func) ++ " corretamente");
       ("inputData", show_json (VObj inputData));
       ("inputParams", join ", " (map p_name (f_params func)));
       ("assertion", "toBeDefined");
       ("expectedOutput", "result")])
  else if String.eqb testType "async" then
    do inputData <- lift (generateInputData (f_params func)) ;;
    ret (Some (async_code func inputData))
  else if String.eqb testType "invalid_param" then
    do param <- lift (param_at (f_params func) paramIndex) ;;
    ret (Some (invalid_param_code func param paramIndex))
  else ret (Some (stub_code func testType)).

(** The body of the parameter loop of [generateFunctionTests], from index [i]
    on; [remaining] is [func.params] from that index. *)
Fixpoint param_tests (func : FunctionInfo) (analysisId : jsval)
    (remaining : list ParamInfo) (i : nat) : M (list TestCase) :=
  match remaining with
  | [] => ret []
  | param :: rest =>
      do valid_input <- generateValidParamData (f_params func) i ;;
      do valid_expected <- lift (generateExpectedOutput func false) ;;
      do valid_code <- generateTestCode func "valid_param" i ;;
      let validParamTest :=
        {| analysis_id := analysisId;
           function_name := f_name func;
           test_type := testTypes_UNIT;
           description := "Teste com parâmetro " ++ show_name (p_name param) ++ " válido";
           input_data := VObj valid_input;
           expected_output := valid_expected;
           test_code := valid_code;
           priority := priorities_MEDIUM;
           status := "generated" |} in
      do invalid_input <- lift (generateInvalidParamData (f_params func) i) ;;
      do invalid_code <- generateTestCode func "invalid_param" i ;;
      let invalidParamTest :=
        {| analysis_id := analysisId;
           function_name := f_name func;
           test_type := testTypes_EDGE_CASE;
           description := "Teste com parâmetro " ++ show_name (p_name param) ++ " inválido";
           input_data := VObj invalid_input;
           expected_output := generateErrorExpectation func;
           test_code := invalid_code;
           priority := priorities_HIGH;
           status := "generated" |} in
      do more <- param_tests func analysisId rest (S i) ;;
      ret (validParamTest :: invalidParamTest :: more)
  end.

(** [generateFunctionTests(func, analysisId)] *)
Definition generateFunctionTests (func : FunctionInfo) (analysisId : jsval)
  : M (list TestCase) :=
  do basic_input <- lift (generateInputData (f_params func)) ;;
  do basic_expected <- lift (generateExpectedOutput func false) ;;
  do basic_code <- generateTestCode func "basic" 0 ;;
  let basicTest :=
    {| analysis_id := analysisId;
       function_name := f_name func;
       test_type := testTypes_UNIT;
       description := "Teste básico para a função " ++ show_name (f_name func);
       input_data := VObj basic_input;
       expected_output := basic_expected;
       test_code := basic_code;
       priority := calculatePriority func;
       status := "generated" |} in
  do per_param <- param_tests func analysisId (f_params func) 0 ;;
  do nullTests <-
    (if (0 <? List.length (f_params func))%nat then
       do null_input <- generateNullParamData (f_params func) ;;
       do null_code <- generateTestCode func "null_params" 0 ;;
       ret [{| analysis_id := analysisId;
               function_name := f_name func;
               test_type := testTypes_NEGATIVE;
               description := "Teste com parâmetros null/undefined para "
                                ++ show_name (f_name func);
               input_data := VObj null_input;
               expected_output := generateErrorExpectation func;
               test_code := null_code;
               priority := priorities_HIGH;
               status := "generated" |}]
     else ret []) ;;
  do asyncTests <-
    (if f_async func then
       do async_input <- lift (generateInputData (f_params func)) ;;
       do async_expected <- lift (generateExpectedOutput func true) ;;
       do async_code_ <- generateTestCode func "async" 0 ;;
       ret [{| analysis_id := analysisId;
               function_name := f_name func;
               test_type := testTypes_UNIT;
               description := "Teste assíncrono para " ++ show_name (f_name func);
               input_data := VObj async_input;
               expected_output := async_expected;
               test_code := async_code_;
               priority := priorities_MEDIUM;
               status := "generated" |}]
     else ret []) ;;
  ret (basicTest :: per_param ++ nullTests ++ asyncTests)%list.

Definition is_constructor (method : MethodInfo) : bool :=
  match m_kind method with
  | Some k => String.eqb k "constructor"
  | None => false
  end.

Fixpoint method_tests (cls : ClassInfo) (analysisId : jsval) (methods : list MethodInfo)
  : list TestCase :=
  match methods with
  | [] => []
  | method :: rest =>
      if is_constructor method then method_tests cls analysisId rest
      else
        {| analysis_id := analysisId;
           function_name := Some (show_name (c_name cls) ++ "." ++ m_name method);
           test_type := testTypes_UNIT;
           description := "Teste do método " ++ m_name method ++ " da classe "
                            ++ show_name (c_name cls);
           input_data := VObj [("methodInput", VStr "testData")];
           expected_output := VObj [("methodOutput", VStr "expected")];
           test_code := Some ("// Teste de método " ++ show_name (c_name cls) ++ "."
                                ++ m_name method);
           priority := if is_constructor method then priorities_HIGH else priorities_MEDIUM;
           status := "generated" |}
        :: method_tests cls analysisId rest
  end.

(** [generateClassTests(cls, analysisId)] *)
Definition generateClassTests (cls : ClassInfo) (analysisId : jsval) : list TestCase :=
  {| analysis_id := analysisId;
     function_name := c_name cls;
     test_type := testTypes_UNIT;
     description := "Teste de instanciação da classe " ++ show_name (c_name cls);
     input_data := VObj [("constructorArgs", VArr [])];
     expected_output :=
       VObj [("type", VStr "object");
             ("instanceof", match c_name cls with Some n => VStr n | None => VUndefined end)];
     test_code := Some ("// Teste de classe " ++ show_name (c_name cls) ++ " - instantiation");
     priority := priorities_HIGH;
     status := "generated" |}
  :: method_tests cls analysisId (c_methods cls).

(** [generateConditionalTests(conditionals, analysisId)], from index [i] on. *)
Fixpoint generateConditionalTests_from (conditionals : list ConditionalInfo)
    (analysisId : jsval) (i : nat) : list TestCase :=
  match conditionals with
  | [] => []
  | conditional :: rest =>
      {| analysis_id := analysisId;
         function_name := Some ("conditional_" ++ show_nat i);
         test_type := testTypes_UNIT;
         description := "Teste do caminho verdadeiro da condicional na linha "
                          ++ show_line (cond_line conditional);
         input_data := VObj [("condition", VBool true); ("testCase", VStr "true_path")];
         expected_output := VObj [("path", VStr "true")];
         test_code := Some ("// Teste condicional " ++ cond_type conditional
                              ++ " - caminho true");
         priority := priorities_MEDIUM;
         status := "generated" |}
      :: {| analysis_id := analysisId;
            function_name := Some ("conditional_" ++ show_nat i);
            test_type := testTypes_UNIT;
            description := "Teste do caminho falso da condicional na linha "
                             ++ show_line (cond_line conditional);
            input_data := VObj [("condition", VBool false); ("testCase", VStr "false_path")];
            expected_output := VObj [("path", VStr "false")];
            test_code := Some ("// Teste condicional " ++ cond_type conditional
                                 ++ " - caminho false");
            priority := priorities_MEDIUM;
            status := "generated" |}
      :: generateConditionalTests_from rest analysisId (S i)
  end.

Definition generateConditionalTests (conditionals : list ConditionalInfo)
    (analysisId : jsval) : list TestCase :=
  generateConditionalTests_from conditionals analysisId 0.

(** [generateLoopTests(loops, analysisId)], from index [i] on. *)
Fixpoint generateLoopTests_from (loops : list LoopInfo) (analysisId : jsval) (i : nat)
  : list TestCase :=
  match loops with
  | [] => []
  | loop :: rest =>
      {| analysis_id := analysisId;
         function_name := Some ("loop_" ++ show_nat i);
         test_type := testTypes_UNIT;
         description := "Teste de iteração normal do " ++ loop_type loop ++ " na linha "
                          ++ show_line (loop_line loop);
         input_data := VObj [("iterations", VNum (int 5)); ("testCase", VStr "normal")];
         expected_output := VObj [("completed", VBool true); ("iterations", VNum (int 5))];
         test_code := Some ("// Teste de loop " ++ loop_type loop ++ " - normal");
         priority := priorities_MEDIUM;
         status := "generated" |}
      :: {| analysis_id := analysisId;
            function_name := Some ("loop_" ++ show_nat i);
            test_type := testTypes_EDGE_CASE;
            description := "Teste com zero iterações do " ++ loop_type loop ++ " na linha "
                             ++ show_line (loop_line loop);
            input_data := VObj [("iterations", VNum (int 0)); ("testCase", VStr "zero")];
            expected_output := VObj [("completed", VBool true); ("iterations", VNum (int 0))];
            test_code := Some ("// Teste de loop " ++ loop_type loop ++ " - zero");
            priority := priorities_HIGH;
            status := "generated" |}
      :: generateLoopTests_from rest analysisId (S i)
  end.

Definition generateLoopTests (loops : list LoopInfo) (analysisId : jsval) : list TestCase :=
  generateLoopTests_from loops analysisId 0.

Fixpoint all_function_tests (funcs : list FunctionInfo) (analysisId : jsval)
  : M (list TestCase) :=
  match funcs with
  | [] => ret []
  | func :: rest =>
      do functionTests <- generateFunctionTests func analysisId ;;
      do more <- all_function_tests rest analysisId ;;
      ret (functionTests ++ more)%list
  end.

(** [try { ... } catch (error) { throw new Error(prefix + error.message) }] *)
Definition rethrow {A} (prefix : string) (m : outcome A) : outcome A :=
  match m with
  | Throw e => Throw (new_Error (prefix ++ err_message e))
  | other => other
  end.

(** [generateTestCases(analysis, analysisId)] *)
Definition generateTestCases (analysis : Analysis) (analysisId : jsval) : M (list TestCase) :=
  fun w c =>
    rethrow "Falha na geração de testes: "
      ((do functionTests <- all_function_tests (functions analysis) analysisId ;;
        ret (functionTests
               ++ concat (map (fun cls => generateClassTests cls analysisId) (classes analysis))
               ++ generateConditionalTests (conditionals analysis) analysisId
               ++ generateLoopTests (loops analysis) analysisId)%list) w c).

(** ** The syntax tree (Babel AST) *)

Inductive scalar := SStr (s : string) | SBool (b : bool).

(** A node has its [type], the line of [loc.start] ([None] when it has no
    [loc]), its scalar properties ([name], [operator], [kind], [async], ...)
    and its child nodes, each under the key of the field that holds it and in
    the order the traversal visits them.  A field holding an array
    ([params], [cases], [body]) has one entry per element; a field that is
    [null] has none. *)
Inductive node : Type :=
| Node (type : string) (line : option nat) (props : list (string * scalar))
       (kids : list (string * node)).

Definition node_type (n : node) : string := match n with Node t _ _ _ => t end.
Definition node_line (n : node) : option nat := match n with Node _ l _ _ => l end.
Definition node_props (n : node) : list (string * scalar) :=
  match n with Node _ _ p _ => p end.
Definition node_kids (n : node) : list (string * node) :=
  match n with Node _ _ _ k => k end.

Fixpoint assoc {A} (key : string) (l : list (string * A)) : option A :=
  match l with
  | [] => None
  | (k, x) :: r => if String.eqb k key then Some x else assoc key r
  end.

(** [node.key] for a text property ([None]: [undefined]). *)
Definition str_prop (n : node) (key : string) : option string :=
  match assoc key (node_props n) with Some (SStr s) => Some s | _ => None end.

(** [node.key || false] for a boolean property. *)
Definition flag (n : node) (key : string) : bool :=
  match assoc key (node_props n) with Some (SBool b) => b | _ => false end.

(** [node.key] for a field holding one node. *)
Definition child (n : node) (key : string) : option node := assoc key (node_kids n).

(** [node.key] for a field holding an array of nodes. *)
Definition children_of (n : node) (key : string) : list node :=
  map snd (List.filter (fun kc => String.eqb (fst kc) key) (node_kids n)).

(** [t.isX(n)] of [@babel/types] for a node type [X]. *)
Definition t_is (ty : string) (n : node) : bool := String.eqb (node_type n) ty.

(** The [File] that [parse] returns; the traversal starts at its program. *)
Record File := { program : node }.

Definition code_unit := N.

(** What stands outside the repository: the parser of [@babel/parser], the
    version string of its package, and the scope builder of
    [@babel/traverse].  A parse failure is a [Throw]; the parser gives its
    syntax errors the code [BABEL_PARSER_SYNTAX_ERROR] (the code
    [BABEL_PARSE_ERROR] is the one [@babel/core] gives, which this program
    does not load).  [crawl] is what the engine does when it reaches the
    program and before it calls the first visitor: it collects the bindings
    of every scope, and raises when it finds one declared twice, which the
    parser with its [typescript] plugin lets pass in some cases; [None] is a
    crawl that returns. *)
Record babel := {
  parse : list code_unit -> outcome File;
  parserVersion : string;
  crawl : node -> option js_error }.

(** ** Record updates *)

Definition with_complexity (a : Analysis) (c : ComplexityMetrics) : Analysis :=
  {| functions := functions a; classes := classes a; variables := variables a;
     imports := imports a; exports := exports a; conditionals := conditionals a;
     loops := loops a; trycatch := trycatch a; complexity := c |}.

Definition add_cyclomatic (k : Z) (a : Analysis) : Analysis :=
  with_complexity a
    {| cyclomaticComplexity := cyclomaticComplexity (complexity a) + k;
       linesOfCode := linesOfCode (complexity a);
       functionsCount := functionsCount (complexity a);
       classesCount := classesCount (complexity a);
       maxNestingDepth := maxNestingDepth (complexity a) |}.

Definition push_function (x : FunctionInfo) (a : Analysis) : Analysis :=
  {| functions := functions a ++ [x]; classes := classes a; variables := variables a;
     imports := imports a; exports := exports a; conditionals := conditionals a;
     loops := loops a; trycatch := trycatch a; complexity := complexity a |}.

Definition push_class (x : ClassInfo) (a : Analysis) : Analysis :=
  {| functions := functions a; classes := classes a ++ [x]; variables := variables a;
     imports := imports a; exports := exports a; conditionals := conditionals a;
     loops := loops a; trycatch := trycatch a; complexity := complexity a |}.

Definition push_variable (x : VariableInfo) (a : Analysis) : Analysis :=
  {| functions := functions a; classes := classes a; variables := variables a ++ [x];
     imports := imports a; exports := exports a; conditionals := conditionals a;
     loops := loops a; trycatch := trycatch a; complexity := complexity a |}.

Definition push_import (x : ImportInfo) (a : Analysis) : Analysis :=
  {| functions := functions a; classes := classes a; variables := variables a;
     imports := imports a ++ [x]; exports := exports a; conditionals := conditionals a;
     loops := loops a; trycatch := trycatch a; complexity := complexity a |}.

Definition push_export (x : ExportInfo) (a : Analysis) : Analysis :=
  {| functions := functions a; classes := classes a; variables := variables a;
     imports := imports a; exports := exports a ++ [x]; conditionals := conditionals a;
     loops := loops a; trycatch := trycatch a; complexity := complexity a |}.

Definition push_conditional (x : ConditionalInfo) (a : Analysis) : Analysis :=
  {| functions := functions a; classes := classes a; variables := variables a;
     imports := imports a; exports := exports a; conditionals := conditionals a ++ [x];
     loops := loops a; trycatch := trycatch a; complexity := complexity a |}.

Definition push_loop (x : LoopInfo) (a : Analysis) : Analysis :=
  {| functions := functions a; classes := classes a; variables := variables a;
     imports := imports a; exports := exports a; conditionals := conditionals a;
     loops := loops a ++ [x]; trycatch := trycatch a; complexity := complexity a |}.

(** ** The traversal engine ([@babel/traverse]) *)

(** The engine calls every visitor function as [fn.call(state, path, state)]
    and raises when the function returns a truthy value; [fn_text] is the
    source text of the function, which the message quotes. *)
Definition check_return (fn_text : string) (returned : jsval) : outcome unit :=
  if truthy returned then
    Throw (new_Error ("Unexpected return value from visitor method " ++ fn_text))
  else Ok tt.

(** Visit the child nodes in order with [f], threading the state. *)
Definition walk_kids {S : Type} (f : node -> S -> outcome S)
  : list (string * node) -> S -> outcome S :=
  fix each (l : list (string * node)) (s : S) : outcome S :=
    match l with
    | [] => Ok s
    | (_, c) :: r => obind (f c s) (each r)
    end.

(** ** The structural analyzer (astParser.js) *)

Record ASTParser := { supportedLanguages : list string; maxCodeSize : Z }.

(** [Number.isSafeInteger(n)]: the integers that a number holds exactly and
    that print as they are, digit for digit. *)
Definition safe_integer (n : Z) : bool := (Z.abs n <=? 9007199254740991)%Z.

(** [new ASTParser()]; the argument is [parseInt(process.env.MAX_CODE_SIZE)],
    [None] for [NaN].  The value is a number of the language; an infinite
    one (a digit string beyond the range of the numbers) is not covered. *)
Definition new_ASTParser (MAX_CODE_SIZE : option Z) : ASTParser :=
  {| supportedLanguages := ["javascript"];
     maxCodeSize := match MAX_CODE_SIZE with
                    | Some n => if (n =? 0)%Z then 1048576%Z else n
                    | None => 1048576%Z
                    end |}.

(** The visitors of the function-scoped traversal in [extractFunctionInfo]:
    the new counter and the value the arrow function returns, or [None] when
    the node type has no visitor.  [() => localComplexity++] returns the
    counter as it was before the increment. *)
Definition local_visitor (n : node) (localComplexity : Z) : option (Z * jsval) :=
  if t_is "IfStatement" n || t_is "SwitchCase" n || t_is "ForStatement" n
     || t_is "WhileStatement" n || t_is "DoWhileStatement" n
     || t_is "ConditionalExpression" n then
    Some ((localComplexity + 1)%Z, VNum (int localComplexity))
  else if t_is "LogicalExpression" n then
    match str_prop n "operator" with
    | Some op =>
        if String.eqb op "&&" || String.eqb op "||" then
          Some ((localComplexity + 1)%Z, VUndefined)
        else Some (localComplexity, VUndefined)
    | None => Some (localComplexity, VUndefined)
    end
  else None.

Definition local_visit (n : node) (localComplexity : Z) : outcome Z :=
  match local_visitor n localComplexity with
  | Some (counter, returned) =>
      obind (check_return "() => localComplexity++" returned) (fun _ => Ok counter)
  | None => Ok localComplexity
  end.

Fixpoint local_walk (n : node) (localComplexity : Z) {struct n} : outcome Z :=
  match n with
  | Node _ _ _ kids =>
      obind (local_visit n localComplexity) (walk_kids local_walk kids)
  end.

(** [path.traverse({...})]: every node below [path], not [path] itself. *)
Definition local_traverse (path : node) (localComplexity : Z) : outcome Z :=
  walk_kids local_walk (node_kids path) localComplexity.

Definition cannot_read_null (prop : string) : js_error :=
  new_Error ("Cannot read properties of null (reading '" ++ prop ++ "')").

(** [holder.field.name] where the field [field] may be missing. *)
Definition name_of_field (holder : node) (field : string) : outcome (option string) :=
  match child holder field with
  | Some n => Ok (str_prop n "name")
  | None => Throw (cannot_read_null "name")
  end.

Fixpoint function_params (params : list node) : outcome (list ParamInfo) :=
  match params with
  | [] => Ok []
  | param :: rest =>
      obind
        (if t_is "Identifier" param then
           Ok {| p_name := str_prop param "name"; p_type := "identifier" |}
         else if t_is "AssignmentPattern" param then
           obind (name_of_field param "left") (fun n =>
           Ok {| p_name := n; p_type := "default" |})
         else if t_is "RestElement" param then
           obind (name_of_field param "argument") (fun n =>
           Ok {| p_name := n; p_type := "rest" |})
         else Ok {| p_name := Some "unknown"; p_type := "complex" |})
        (fun info => obind (function_params rest) (fun more => Ok (info :: more)))
  end.

(** [extractFunctionInfo(path, analysis, type)] *)
Definition extractFunctionInfo (path : node) (analysis : Analysis) (type : string)
  : outcome Analysis :=
  let name := match child path "id" with
              | Some id => str_prop id "name"
              | None => Some "<anonymous>"
              end in
  obind (function_params (children_of path "params")) (fun params =>
  obind (local_traverse path 1) (fun localComplexity =>
  Ok (push_function
        {| f_name := name; f_type := type; f_params := params;
           f_async := flag path "async"; f_generator := flag path "generator";
           f_line := node_line path; f_complexity := localComplexity |}
        analysis))).

(** [@babel/types] names the members of a class body ClassMethod and
    ClassProperty; [MethodDefinition] and [PropertyDefinition] are the ESTree
    names, for which it exports no validator. *)
Definition types_isMethodDefinition : option (node -> bool) := None.
Definition types_isPropertyDefinition : option (node -> bool) := None.

(** [t.name(n)] for an export of [@babel/types] that may be missing. *)
Definition call_export (name : string) (export : option (node -> bool)) (n : node)
  : outcome bool :=
  match export with
  | Some validator => Ok (validator n)
  | None => Throw (new_Error ("t." ++ name ++ " is not a function"))
  end.

(** [member.key.name || '<computed>'] *)
Definition member_name (member : node) : outcome string :=
  match child member "key" with
  | None => Throw (cannot_read "name")
  | Some key =>
      Ok (match str_prop key "name" with
          | Some s => if String.eqb s "" then "<computed>" else s
          | None => "<computed>"
          end)
  end.

(** The member loop of [extractClassInfo]; [methods] and [properties] are
    the lists built so far. *)
Fixpoint class_members (members : list node) (methods : list MethodInfo)
    (properties : list PropertyInfo) : outcome (list MethodInfo * list PropertyInfo) :=
  match members with
  | [] => Ok (methods, properties)
  | member :: rest =>
      obind (call_export "isMethodDefinition" types_isMethodDefinition member)
        (fun is_definition =>
      if is_definition || t_is "ClassMethod" member then
        obind (member_name member) (fun name =>
        class_members rest
          (methods ++ [{| m_name := name; m_kind := str_prop member "kind";
                          m_static := flag member "static";
                          m_async := flag member "async" |}])
          properties)
      else
        obind (if t_is "ClassProperty" member then Ok true
               else call_export "isPropertyDefinition" types_isPropertyDefinition member)
          (fun is_property =>
        if is_property then
          obind (member_name member) (fun name =>
          class_members rest methods
            (properties ++ [{| pr_name := name; pr_static := flag member "static" |}]))
        else class_members rest methods properties))
  end.

(** [extractClassInfo(path, analysis)] *)
Definition extractClassInfo (path : node) (analysis : Analysis) : outcome Analysis :=
  let name := match child path "id" with
              | Some id => str_prop id "name"
              | None => Some "<anonymous>"
              end in
  let superClass := match child path "superClass" with
                    | Some sc => match str_prop sc "name" with
                                 | Some s => VStr s
                                 | None => VUndefined
                                 end
                    | None => VNull
                    end in
  match child path "body" with
  | None => Throw (cannot_read_null "body")
  | Some body =>
      obind (class_members (children_of body "body") [] []) (fun mp =>
      Ok (push_class
            {| c_name := name; c_superClass := superClass; c_methods := fst mp;
               c_properties := snd mp; c_line := node_line path |}
            analysis))
  end.

(** [extractVariableInfo(path, analysis)] *)
Definition extractVariableInfo (path : node) (analysis : Analysis) : outcome Analysis :=
  Ok (fold_left
        (fun a declaration =>
           match child declaration "id" with
           | Some id =>
               if t_is "Identifier" id then
                 push_variable
                   {| v_name := str_prop id "name"; v_kind := str_prop path "kind";
                      v_hasInitializer :=
                        match child declaration "init" with Some _ => true | None => false end;
                      v_line := node_line path |} a
               else a
           | None => a
           end)
        (children_of path "declarations") analysis).

Fixpoint import_specifiers (specs : list node) : outcome (list ImportSpecifier) :=
  match specs with
  | [] => Ok []
  | spec :: rest =>
      match child spec "local" with
      | None => Throw (cannot_read_null "name")
      | Some local =>
          obind (import_specifiers rest) (fun more =>
          Ok ({| is_type := node_type spec; is_local := str_prop local "name";
                 is_imported := match child spec "imported" with
                                | Some i => match str_prop i "name" with
                                            | Some s => VStr s
                                            | None => VUndefined
                                            end
                                | None => VNull
                                end |} :: more))
      end
  end.

(** [extractImportInfo(path, analysis)] *)
Definition extractImportInfo (path : node) (analysis : Analysis) : outcome Analysis :=
  match child path "source" with
  | None => Throw (cannot_read_null "value")
  | Some source =>
      obind (import_specifiers (children_of path "specifiers")) (fun specs =>
      Ok (push_import {| i_source := str_prop source "value"; i_specifiers := specs |}
            analysis))
  end.

Fixpoint declared_names (declarations : list node) : outcome (list (option string)) :=
  match declarations with
  | [] => Ok []
  | d :: rest =>
      obind (name_of_field d "id") (fun n =>
      obind (declared_names rest) (fun more => Ok (n :: more)))
  end.

(** [extractExportInfo(path, analysis)] *)
Definition extractExportInfo (path : node) (analysis : Analysis) : outcome Analysis :=
  let plain := {| e_type := node_type path; e_line := node_line path;
                  e_name := None; e_kind := None; e_names := None |} in
  obind
    (match child path "declaration" with
     | Some declaration =>
         if t_is "FunctionDeclaration" declaration then
           obind (name_of_field declaration "id") (fun n =>
           Ok {| e_type := node_type path; e_line := node_line path;
                 e_name := Some n; e_kind := Some "function"; e_names := None |})
         else if t_is "ClassDeclaration" declaration then
           obind (name_of_field declaration "id") (fun n =>
           Ok {| e_type := node_type path; e_line := node_line path;
                 e_name := Some n; e_kind := Some "class"; e_names := None |})
         else if t_is "VariableDeclaration" declaration then
           obind (declared_names (children_of declaration "declarations")) (fun ns =>
           Ok {| e_type := node_type path; e_line := node_line path;
                 e_name := None; e_kind := Some "variable"; e_names := Some ns |})
         else Ok plain
     | None => Ok plain
     end)
    (fun exportInfo => Ok (push_export exportInfo analysis)).

(** [extractConditionalInfo(path, analysis, type)] *)
Definition extractConditionalInfo (path : node) (analysis : Analysis) (type : string)
  : Analysis :=
  push_conditional
    {| cond_type := type; cond_line := node_line path;
       hasElse := String.eqb type "if"
                  && match child path "alternate" with Some _ => true | None => false end |}
    analysis.

(** [extractLoopInfo(path, analysis, type)] *)
Definition extractLoopInfo (path : node) (analysis : Analysis) (type : string) : Analysis :=
  push_loop {| loop_type := type; loop_line := node_line path |} analysis.

(** [extractTryCatchInfo(path, analysis)].  It pushes to [analysis.tryCache];
    the analysis object is created with the property [trycatch] and has no
    [tryCache], so reading [push] of it raises before anything is stored. *)
Definition extractTryCatchInfo (path : node) (analysis : Analysis) : outcome Analysis :=
  Throw (cannot_read "push").

(** The visitors registered by node type in [analyzeJavaScript]
    ([ExportDeclaration] is the alias of the three export node types). *)
Definition visit (path : node) (analysis : Analysis) : outcome Analysis :=
  let ty := node_type path in
  if String.eqb ty "FunctionDeclaration" then extractFunctionInfo path analysis "declaration"
  else if String.eqb ty "FunctionExpression" then extractFunctionInfo path analysis "expression"
  else if String.eqb ty "ArrowFunctionExpression" then extractFunctionInfo path analysis "arrow"
  else if String.eqb ty "ClassDeclaration" then extractClassInfo path analysis
  else if String.eqb ty "VariableDeclaration" then extractVariableInfo path analysis
  else if String.eqb ty "ImportDeclaration" then extractImportInfo path analysis
  else if String.eqb ty "ExportAllDeclaration" || String.eqb ty "ExportDefaultDeclaration"
          || String.eqb ty "ExportNamedDeclaration" then extractExportInfo path analysis
  else if String.eqb ty "IfStatement" then
    Ok (add_cyclomatic 1 (extractConditionalInfo path analysis "if"))
  else if String.eqb ty "SwitchStatement" then
    Ok (add_cyclomatic (Z.of_nat (List.length (children_of path "cases")))
          (extractConditionalInfo path analysis "switch"))
  else if String.eqb ty "ConditionalExpression" then
    Ok (add_cyclomatic 1 (extractConditionalInfo path analysis "ternary"))
  else if String.eqb ty "ForStatement" then
    Ok (add_cyclomatic 1 (extractLoopInfo path analysis "for"))
  else if String.eqb ty "WhileStatement" then
    Ok (add_cyclomatic 1 (extractLoopInfo path analysis "while"))
  else if String.eqb ty "DoWhileStatement" then
    Ok (add_cyclomatic 1 (extractLoopInfo path analysis "do-while"))
  else if String.eqb ty "ForInStatement" then
    Ok (add_cyclomatic 1 (extractLoopInfo path analysis "for-in"))
  else if String.eqb ty "ForOfStatement" then
    Ok (add_cyclomatic 1 (extractLoopInfo path analysis "for-of"))
  else if String.eqb ty "TryStatement" then
    obind (extractTryCatchInfo path analysis) (fun a => Ok (add_cyclomatic 1 a))
  else Ok analysis.

(** [isBlockStatement(path)] *)
Definition isBlockStatement (self : ASTParser) (path : node) : bool :=
  t_is "BlockStatement" path || t_is "FunctionDeclaration" path || t_is "IfStatement" path
  || t_is "ForStatement" path || t_is "WhileStatement" path.

(** The state of the traversal in [analyzeJavaScript]. *)
Record walk := { w_analysis : Analysis; currentDepth : Z; maxDepth : Z }.

(** [enter(path)] and [exit(path)] are written as methods, not as arrow
    functions like the visitors above, so their [this] is the receiver the
    engine supplies: the traversal state. *)
Definition enter (this : option ASTParser) (path : node) (w : walk) : outcome walk :=
  match this with
  | None => Throw (cannot_read "isBlockStatement")
  | Some self =>
      Ok (if isBlockStatement self path then
            {| w_analysis := w_analysis w; currentDepth := currentDepth w + 1;
               maxDepth := Z.max (maxDepth w) (currentDepth w + 1) |}
          else w)
  end.

Definition exit (this : option ASTParser) (path : node) (w : walk) : outcome walk :=
  match this with
  | None => Throw (cannot_read "isBlockStatement")
  | Some self =>
      Ok (if isBlockStatement self path then
            {| w_analysis := w_analysis w; currentDepth := currentDepth w - 1;
               maxDepth := maxDepth w |}
          else w)
  end.

Definition visit_walk (path : node) (w : walk) : outcome walk :=
  obind (visit path (w_analysis w)) (fun a =>
  Ok {| w_analysis := a; currentDepth := currentDepth w; maxDepth := maxDepth w |}).

(** One node of [traverse(ast, visitors, scope, state)]: [enter], the visitor
    of the node type, the children, [exit]. *)
Fixpoint traverse_node (state : option ASTParser) (n : node) (w : walk) {struct n}
  : outcome walk :=
  match n with
  | Node _ _ _ kids =>
      obind (enter state n w) (fun w1 =>
      obind (visit_walk n w1) (fun w2 =>
      obind (walk_kids (traverse_node state) kids w2) (fun w3 =>
      exit state n w3)))
  end.

(** [traverse(ast, visitors, scope, state)] on a [File]: the scopes of the
    program are built, then its nodes are visited. *)
Definition traverse (B : babel) (ast : File) (state : option ASTParser) (w : walk)
  : outcome walk :=
  match crawl B (program ast) with
  | Some error => Throw error
  | None => traverse_node state (program ast) w
  end.

Record Metadata := {
  md_language : string;
  md_parserVersion : string;
  md_analysisTimestamp : string;
  md_codeLength : nat;
  md_linesOfCode : nat }.

Record AnalysisOutput := {
  out_ast : File; out_analysis : Analysis; out_metadata : Metadata }.

(** [sourceCode.split('\n').length] *)
Definition count_lines (sourceCode : list code_unit) : nat :=
  S (List.length (List.filter (fun u => (u =? 10)%N) sourceCode)).

Definition initial_analysis (sourceCode : list code_unit) : Analysis :=
  {| functions := []; classes := []; variables := []; imports := []; exports := [];
     conditionals := []; loops := []; trycatch := [];
     complexity := {| cyclomaticComplexity := 1; linesOfCode := count_lines sourceCode;
                      functionsCount := 0; classesCount := 0; maxNestingDepth := 0 |} |}.

Definition finish_metrics (w : walk) : Analysis :=
  let a := w_analysis w in
  with_complexity a
    {| cyclomaticComplexity := cyclomaticComplexity (complexity a);
       linesOfCode := linesOfCode (complexity a);
       functionsCount := List.length (functions a);
       classesCount := List.length (classes a);
       maxNestingDepth := maxDepth w |}.

(** [analyzeJavaScript(sourceCode)]; [now] is the time value of the
    [new Date()] in the metadata.  The call of [traverse] passes no state.
    [serializeAST] copies the tree without the back references, which the
    tree here does not have. *)
Definition analyzeJavaScript (B : babel) (now : Z) (self : ASTParser)
    (sourceCode : list code_unit) : outcome AnalysisOutput :=
  match
    obind (parse B sourceCode) (fun ast =>
    obind (traverse B ast None
             {| w_analysis := initial_analysis sourceCode; currentDepth := 0;
                maxDepth := 0 |}) (fun w =>
    let analysis := finish_metrics w in
    Ok {| out_ast := ast; out_analysis := analysis;
          out_metadata :=
            {| md_language := "javascript"; md_parserVersion := parserVersion B;
               md_analysisTimestamp := toISOString now;
               md_codeLength := List.length sourceCode;
               md_linesOfCode := linesOfCode (complexity analysis) |} |}))
  with
  | Throw error =>
      match err_code error with
      | Some code =>
          if String.eqb code "BABEL_PARSE_ERROR" then
            Throw (new_Error ("Erro de sintaxe: " ++ err_message error))
          else Throw error
      | None => Throw error
      end
  | other => other
  end.

Fixpoint includes_item (x : string) (l : list string) : bool :=
  match l with
  | [] => false
  | y :: r => String.eqb y x || includes_item x r
  end.

(** [analyzeCode(sourceCode, language)]; [sourceCode] is [None] for an
    argument that is not a string, [language] is [None] when it is omitted.
    The limit is printed into the message as a number prints; that is
    covered for the safe integers. *)
Definition analyzeCode (B : babel) (now : Z) (self : ASTParser)
    (sourceCode : option (list code_unit)) (language : option string)
  : outcome AnalysisOutput :=
  let language := match language with Some l => l | None => "javascript" end in
  rethrow "Erro na análise: "
    (match sourceCode with
     | None | Some [] => Throw (new_Error "Código fonte inválido")
     | Some text =>
         if (maxCodeSize self <? Z.of_nat (List.length text))%Z then
           if safe_integer (maxCodeSize self) then
             Throw (new_Error ("Código muito grande (máximo " ++ show_Z (maxCodeSize self)
                                 ++ " caracteres)"))
           else Beyond
         else if negb (includes_item language (supportedLanguages self)) then
           Throw (new_Error ("Linguagem não suportada: " ++ language))
         else if String.eqb language "javascript" then analyzeJavaScript B now self text
         else Throw (new_Error ("Análise não implementada para: " ++ language))
     end).

(** ** The password rule of the registration schema (validation.js) *)

Fixpoint any_char (p : ascii -> bool) (s : string) : bool :=
  match s with
  | EmptyString => false
  | String c r => p c || any_char p r
  end.

Definition is_lower (c : ascii) : bool :=
  let n := nat_of_ascii c in (97 <=? n)%nat && (n <=? 122)%nat.

Definition is_upper (c : ascii) : bool :=
  let n := nat_of_ascii c in (65 <=? n)%nat && (n <=? 90)%nat.

(** [value.length]: the number of UTF-16 code units of a text given by its
    UTF-8 bytes (one for a character of up to three bytes, two for a
    character of four). *)
Fixpoint utf16_units (s : string) : nat :=
  match s with
  | EmptyString => 0
  | String c r =>
      let n := nat_of_ascii c in
      (if (n <? 128)%nat || ((192 <=? n)%nat && (n <? 240)%nat) then 1
       else if (240 <=? n)%nat then 2
       else 0) + utf16_units r
  end.

(** The part of a text that [.*] can cross from its start: [.] matches
    everything but the line terminators LF, CR, U+2028 and U+2029. *)
Fixpoint first_line (s : string) : string :=
  match s with
  | EmptyString => EmptyString
  | String c r =>
      if byte_is 10 c || byte_is 13 c then EmptyString
      else
        match r with
        | String c1 (String c2 _) =>
            if byte_is 226 c && byte_is 128 c1 && (byte_is 168 c2 || byte_is 169 c2)
            then EmptyString
            else String c (first_line r)
        | _ => String c (first_line r)
        end
  end.

(** [Joi.string().min(6).max(100).pattern(/^(?=.*[a-z])(?=.*[A-Z])(?=.*\d)/)]:
    the length counts code units, and each lookahead searches the first
    line. *)
Definition password_policy (s : string) : bool :=
  (6 <=? utf16_units s)%nat && (utf16_units s <=? 100)%nat
  && any_char is_lower (first_line s) && any_char is_upper (first_line s)
  && any_char is_digit (first_line s).

(** ** The statements of the specification, for comparison with the code *)

(** The resolution table of the sample values as the specification lists it:
    the substrings of a rule and its value, in order. *)
Definition sample_rules : list (list string * jsval) :=
  [ (["id"; "index"; "count"], VNum (int 1));
    (["age"; "year"], VNum (int 25));
    (["price"; "amount"; "value"], VNum (Dec 1005 1));
    (["name"; "title"], VStr "Test Name");
    (["email"], VStr "test@example.com");
    (["url"; "link"], VStr "https://example.com");
    (["password"], VStr "Test123!");
    (["is"; "has"; "can"], VBool true);
    (["list"; "array"; "items"], VArr [VStr "item1"; VStr "item2"]);
    (["user"; "person"], VObj [("id", VNum (int 1)); ("name", VStr "Test User")]);
    (["config"; "options"], VObj [("option1", VBool true); ("option2", VStr "value")]) ].

(** First match wins. *)
Fixpoint first_match (rules : list (list string * jsval)) (name : string) (default : jsval)
  : jsval :=
  match rules with
  | [] => default
  | (subs, v) :: rest =>
      if existsb (fun sub => includes sub name) subs then v
      else first_match rest name default
  end.

(** Names for which [generateHighQualityValue] does not read the clock. *)
Definition clock_free (name : string) : bool :=
  includes "email" name || includes "phone" name || negb (includes "date" name).

(** The length in bytes of the UTF-8 encoding of a text. *)
Definition is_high_surrogate (u : code_unit) : bool := (55296 <=? u)%N && (u <=? 56319)%N.
Definition is_low_surrogate (u : code_unit) : bool := (56320 <=? u)%N && (u <=? 57343)%N.

Fixpoint utf8_length (text : list code_unit) : nat :=
  match text with
  | [] => 0
  | u :: rest =>
      if (u <? 128)%N then 1 + utf8_length rest
      else if (u <? 2048)%N then 2 + utf8_length rest
      else if is_high_surrogate u then
        match rest with
        | v :: rest' => if is_low_surrogate v then 4 + utf8_length rest'
                        else 3 + utf8_length rest
        | [] => 3
        end
      else 3 + utf8_length rest
  end.

(** A template seen as the specification describes it: literal text and
    placeholders [{{key}}]. *)
Inductive segment := Text (s : string) | Hole (key : string).

Fixpoint template_text (segs : list segment) : string :=
  match segs with
  | [] => ""
  | Text s :: rest => s ++ template_text rest
  | Hole key :: rest => placeholder key ++ template_text rest
  end.

(** The rendering the specification describes: each placeholder that has a
    binding becomes the bound text, the others stay. *)
Fixpoint render_segments (data : list (string * string)) (segs : list segment) : string :=
  match segs with
  | [] => ""
  | Text s :: rest => s ++ render_segments data rest
  | Hole key :: rest =>
      match assoc key data with
      | Some value => value
      | None => placeholder key
      end ++ render_segments data rest
  end.

Definition subst_hole (key value : string) (segs : list segment) : list segment :=
  map (fun seg =>
         match seg with
         | Hole k => if String.eqb k key then Text value else seg
         | Text _ => seg
         end) segs.

Definition is_open (c : ascii) : bool := Ascii.eqb c "{".

(** Text in which no opening brace is followed by another one or by the end
    of the text: it contains no [{{] and does not end in [{]. *)
Fixpoint inert (s : string) : bool :=
  match s with
  | EmptyString => true
  | String c r =>
      negb (is_open c && match r with
                         | EmptyString => true
                         | String d _ => is_open d
                         end)
      && inert r
  end.

Fixpoint ends_with_open (s : string) : bool :=
  match s with
  | EmptyString => false
  | String c EmptyString => is_open c
  | String _ r => ends_with_open r
  end.

Definition dollar_free (s : string) : bool :=
  all_chars (fun c => negb (Ascii.eqb c "$")) s.

Definition segment_ok (seg : segment) : bool :=
  match seg with
  | Text s => inert s
  | Hole key => plain_key key
  end.

Definition binding_ok (kv : string * string) : bool :=
  plain_key (fst kv) && inert (snd kv) && dollar_free (snd kv).

Definition hole_bound (data : list (string * string)) (seg : segment) : bool :=
  match seg with
  | Text _ => true
  | Hole key => match assoc key data with Some _ => true | None => false end
  end.

(** The scan of [replace_from] when the replacement has no [$] in it. *)
Fixpoint replace_plain (pat value : string) (skip : nat) (s : string) : string :=
  match s with
  | EmptyString => ""
  | String c r =>
      match skip with
      | S k => replace_plain pat value k r
      | O =>
          if starts_with pat s then value ++ replace_plain pat value (String.length pat - 1) r
          else String c (replace_plain pat value 0 r)
      end
  end.

(** The built-in unit template, cut at its placeholders. *)
Definition unit_segments : list segment :=
  [ Text ("describe(" ++ DQ); Hole "functionName";
    Text (DQ ++ ", () => {
  test(" ++ DQ); Hole "testDescription";
    Text (DQ ++ ", () => {
    const input = "); Hole "inputData";
    Text ";
    const expected = "; Hole "expectedOutput";
    Text ";
    
    const result = "; Hole "functionName"; Text "("; Hole "inputParams";
    Text ");
    
    expect(result)."; Hole "assertion";
    Text "(expected);
  });
});" ].

(** The bindings [generateTestCode] builds for [function add(a, b)]. *)
Definition add_bindings : list (string * string) :=
  [ ("functionName", "add");
    ("testDescription", "deve executar add corretamente");
    ("inputData", "{" ++ DQ ++ "a" ++ DQ ++ ":" ++ DQ ++ "testValue" ++ DQ ++ ","
                    ++ DQ ++ "b" ++ DQ ++ ":" ++ DQ ++ "testValue" ++ DQ ++ "}");
    ("inputParams", "a, b");
    ("assertion", "toBeDefined");
    ("expectedOutput", "result") ].

(** The unit template that the n-th query of a world leads to. *)
Definition unit_template (w : world) (n : nat) : option string :=
  templates_of_rows (db_rows w n) !! "unit".

(** What holds of the value of a computation whenever it returns, and the
    same together with the fact that it returns. *)
Definition ensures {A} (w : world) (m : M A) (Q : A -> Prop) : Prop :=
  forall c a c', m w c = Ok (a, c') -> Q a.

Definition yields {A} (w : world) (m : M A) (Q : A -> Prop) : Prop :=
  forall c, exists a c', m w c = Ok (a, c') /\ Q a.

(** A computation that raises from every state, and one that stays within
    the modelled fragment. *)
Definition raises {A} (w : world) (m : M A) : Prop :=
  forall c, exists e, m w c = Throw e.

Definition within {A} (w : world) (m : M A) : Prop :=
  forall c, m w c <> Beyond.

(** The test code of a descriptor is code that calls the function, or the
    one-line comment of the default branch of [generateTestCode]; a function
    with parameters [p_1..p_n] has, in order, the basic descriptor, for each
    parameter the one for its valid and the one for its invalid value, the
    one for null parameters when there are parameters, and the asynchronous
    one when the function is asynchronous. *)
Inductive code_kind := Calling | Comment (testType : string).

Definition expected_code_kinds (f : FunctionInfo) : list code_kind :=
  (Calling
   :: concat (map (fun _ => [Comment "valid_param"; Calling]) (f_params f))
   ++ (if (0 <? List.length (f_params f))%nat then [Comment "null_params"] else [])
   ++ (if f_async f then [Calling] else []))%list.

Definition calls (name code : string) : bool := includes (name ++ "(") code.

Definition calling_code (name : string) (rendered : option string) : Prop :=
  exists code, rendered = Some code /\ calls name code = true.

Definition code_is (name : string) (k : code_kind) (t : TestCase) : Prop :=
  function_name t = Some name
  /\ match k with
     | Calling => calling_code name (test_code t)
     | Comment testType =>
         test_code t = Some ("// Código de teste para " ++ name ++ " - " ++ testType)
     end.

(** The bindings that [generateTestCode] renders the unit template with. *)
Definition basic_bindings (func : FunctionInfo) (inputData : list (string * jsval))
  : list (string * string) :=
  [("functionName", show_name (f_name func));
   ("testDescription", "deve executar " ++ show_name (f_name func) ++ " corretamente");
   ("inputData", show_json (VObj inputData));
   ("inputParams", join ", " (map p_name (f_params func)));
   ("assertion", "toBeDefined");
   ("expectedOutput", "result")].

(** The unit template is the built-in one or the one of the migration
    script. *)
Definition known_unit_template (w : world) : Prop :=
  forall n, unit_template w n = Some default_unit_template
            \/ unit_template w n = Some seeded_unit_template.

(** The number of descriptors the specification gives for a function and for
    a class, and for a whole analysis. *)
Definition function_count (f : FunctionInfo) : nat :=
  1 + 2 * List.length (f_params f)
  + (if (0 <? List.length (f_params f))%nat then 1 else 0)
  + (if f_async f then 1 else 0).

Definition tested_methods (cls : ClassInfo) : list MethodInfo :=
  List.filter (fun m => negb (is_constructor m)) (c_methods cls).

Definition class_count (cls : ClassInfo) : nat := 1 + List.length (tested_methods cls).

Definition expected_count (a : Analysis) : nat :=
  list_sum (map function_count (functions a))
  + list_sum (map class_count (classes a))
  + 2 * List.length (conditionals a)
  + 2 * List.length (loops a).

(** The owners of the descriptors in inventory order. *)
Definition twice_each (prefix : string) (n : nat) : list (option string) :=
  concat (map (fun i => [Some (prefix ++ show_nat i); Some (prefix ++ show_nat i)]) (seq 0 n)).

Definition expected_owners (a : Analysis) : list (option string) :=
  (concat (map (fun f => repeat (f_name f) (function_count f)) (functions a))
   ++ concat (map (fun cls =>
                     c_name cls
                     :: map (fun m => Some (show_name (c_name cls) ++ "." ++ m_name m)%string)
                          (tested_methods cls))
                (classes a))
   ++ twice_each "conditional_" (List.length (conditionals a))
   ++ twice_each "loop_" (List.length (loops a)))%list.

Definition param_named (p : ParamInfo) : bool :=
  match p_name p with Some _ => true | None => false end.

(** A function whose name and parameter names are all text. *)
Definition named (f : FunctionInfo) : bool :=
  match f_name f with Some _ => true | None => false end
  && forallb param_named (f_params f).

(** A descriptor of the function rules: its owner and one of the three kinds
    those rules emit. *)
Definition descriptor_ok (owner : option string) (t : TestCase) : Prop :=
  function_name t = owner
  /\ (test_type t = testTypes_UNIT \/ test_type t = testTypes_EDGE_CASE
      \/ test_type t = testTypes_NEGATIVE).

Definition kind_ok (t : TestCase) : Prop :=
  test_type t = testTypes_UNIT \/ test_type t = testTypes_EDGE_CASE
  \/ test_type t = testTypes_NEGATIVE.

(** ** Sample worlds and analyses *)

(** The template query is rejected: the built-in templates are used. *)
Definition offline_world : world :=
  {| db_rows := fun _ => None; random_above_half := fun _ => true; clock := fun _ => 0%Z |}.

(** The template table as the migration script leaves it. *)
Definition seeded_world : world :=
  {| db_rows := fun _ => Some seeded_rows; random_above_half := fun _ => true;
     clock := fun _ => 0%Z |}.

(** The template table has no row for the language and framework. *)
Definition empty_table_world : world :=
  {| db_rows := fun _ => Some []; random_above_half := fun _ => true;
     clock := fun _ => 0%Z |}.

Definition start : counters := {| queries := 0; flips := 0; ticks := 0 |}.

Definition analysis_of (fs : list FunctionInfo) : Analysis :=
  {| functions := fs; classes := []; variables := []; imports := []; exports := [];
     conditionals := []; loops := []; trycatch := [];
     complexity := {| cyclomaticComplexity := 1; linesOfCode := 1;
                      functionsCount := List.length fs; classesCount := 0;
                      maxNestingDepth := 0 |} |}.

(** [function add(a, b) { return a + b; }] *)
Definition add_node : node :=
  Node "FunctionDeclaration" (Some 1) [("async", SBool false); ("generator", SBool false)]
    [("id", Node "Identifier" (Some 1) [("name", SStr "add")] []);
     ("params", Node "Identifier" (Some 1) [("name", SStr "a")] []);
     ("params", Node "Identifier" (Some 1) [("name", SStr "b")] []);
     ("body",
      Node "BlockStatement" (Some 1) []
        [("body",
          Node "ReturnStatement" (Some 1) []
            [("argument",
              Node "BinaryExpression" (Some 1) [("operator", SStr "+")]
                [("left", Node "Identifier" (Some 1) [("name", SStr "a")] []);
                 ("right", Node "Identifier" (Some 1) [("name", SStr "b")] [])])])])].

Definition add_info : FunctionInfo :=
  {| f_name := Some "add"; f_type := "declaration";
     f_params := [ {| p_name := Some "a"; p_type := "identifier" |};
                   {| p_name := Some "b"; p_type := "identifier" |} ];
     f_async := false; f_generator := false; f_line := Some 1; f_complexity := 1 |}.

(** [function f({ a } = {}) {}]: the parameter is an assignment pattern whose
    left side is an object pattern, which has no [name]. *)
Definition destructured_node : node :=
  Node "FunctionDeclaration" (Some 1) [("async", SBool false); ("generator", SBool false)]
    [("id", Node "Identifier" (Some 1) [("name", SStr "f")] []);
     ("params",
      Node "AssignmentPattern" (Some 1) []
        [("left",
          Node "ObjectPattern" (Some 1) []
            [("properties",
              Node "ObjectProperty" (Some 1) [("shorthand", SBool true)]
                [("key", Node "Identifier" (Some 1) [("name", SStr "a")] []);
                 ("value", Node "Identifier" (Some 1) [("name", SStr "a")] [])])]);
         ("right", Node "ObjectExpression" (Some 1) [] [])]);
     ("body", Node "BlockStatement" (Some 1) [] [])].

Definition destructured_info : FunctionInfo :=
  {| f_name := Some "f"; f_type := "declaration";
     f_params := [ {| p_name := None; p_type := "default" |} ];
     f_async := false; f_generator := false; f_line := Some 1; f_complexity := 1 |}.

(** [const handler = async (userId) => userId;] and its arrow function. *)
Definition arrow_node : node :=
  Node "ArrowFunctionExpression" (Some 1) [("async", SBool true); ("generator", SBool false)]
    [("params", Node "Identifier" (Some 1) [("name", SStr "userId")] []);
     ("body", Node "Identifier" (Some 1) [("name", SStr "userId")] [])].

Definition handler_declaration : node :=
  Node "VariableDeclaration" (Some 1) [("kind", SStr "const")]
    [("declarations",
      Node "VariableDeclarator" (Some 1) []
        [("id", Node "Identifier" (Some 1) [("name", SStr "handler")] []);
         ("init", arrow_node)])].

Definition arrow_info : FunctionInfo :=
  {| f_name := Some "<anonymous>"; f_type := "arrow";
     f_params := [ {| p_name := Some "userId"; p_type := "identifier" |} ];
     f_async := true; f_generator := false; f_line := Some 1; f_complexity := 1 |}.

Definition cc (a : Analysis) : Z := cyclomaticComplexity (complexity a).

(** Whether a node of type [ty] occurs in the tree [n]. *)
Fixpoint occurs (ty : string) (n : node) {struct n} : bool :=
  match n with
  | Node t _ _ kids =>
      String.eqb t ty
      || (fix any (l : list (string * node)) : bool :=
            match l with
            | [] => false
            | (_, c) :: r => occurs ty c || any r
            end) kids
  end.

Definition sum_kids (f : node -> nat) : list (string * node) -> nat :=
  fix each (l : list (string * node)) : nat :=
    match l with
    | [] => 0
    | (_, c) :: r => f c + each r
    end.

(** The constructs the function-scoped traversal has a counting visitor for. *)
Definition counted (n : node) : bool :=
  t_is "IfStatement" n || t_is "SwitchCase" n || t_is "ForStatement" n
  || t_is "WhileStatement" n || t_is "DoWhileStatement" n
  || t_is "ConditionalExpression" n
  || (t_is "LogicalExpression" n
      && match str_prop n "operator" with
         | Some op => String.eqb op "&&" || String.eqb op "||"
         | None => false
         end).

(** Counted constructs in a whole tree, and below a node. *)
Fixpoint count_in (n : node) {struct n} : nat :=
  match n with
  | Node _ _ _ kids => (if counted n then 1 else 0) + sum_kids count_in kids
  end.

Definition count_below (path : node) : nat := sum_kids count_in (node_kids path).

(** The count the specification describes: the function's own subtree, the
    bodies of nested functions left out. *)
Definition is_function (n : node) : bool :=
  t_is "FunctionDeclaration" n || t_is "FunctionExpression" n
  || t_is "ArrowFunctionExpression" n.

Fixpoint count_own_in (n : node) {struct n} : nat :=
  match n with
  | Node _ _ _ kids =>
      if is_function n then 0
      else (if counted n then 1 else 0) + sum_kids count_own_in kids
  end.

Definition count_own_below (path : node) : nat := sum_kids count_own_in (node_kids path).

(** ** Sample programs *)

(** [function outer() { const g = () => a && b; }] *)
Definition nested_sample : node :=
  Node "FunctionDeclaration" (Some 1) [("async", SBool false); ("generator", SBool false)]
    [("id", Node "Identifier" (Some 1) [("name", SStr "outer")] []);
     ("body",
      Node "BlockStatement" (Some 1) []
        [("body",
          Node "VariableDeclaration" (Some 1) [("kind", SStr "const")]
            [("declarations",
              Node "VariableDeclarator" (Some 1) []
                [("id", Node "Identifier" (Some 1) [("name", SStr "g")] []);
                 ("init",
                  Node "ArrowFunctionExpression" (Some 1)
                    [("async", SBool false); ("generator", SBool false)]
                    [("body",
                      Node "LogicalExpression" (Some 1) [("operator", SStr "&&")]
                        [("left", Node "Identifier" (Some 1) [("name", SStr "a")] []);
                         ("right", Node "Identifier" (Some 1) [("name", SStr "b")] [])])])])])])].

(** [function f(x) { if (x) {} }] *)
Definition if_sample : node :=
  Node "FunctionDeclaration" (Some 1) [("async", SBool false); ("generator", SBool false)]
    [("id", Node "Identifier" (Some 1) [("name", SStr "f")] []);
     ("params", Node "Identifier" (Some 1) [("name", SStr "x")] []);
     ("body",
      Node "BlockStatement" (Some 1) []
        [("body",
          Node "IfStatement" (Some 1) []
            [("test", Node "Identifier" (Some 1) [("name", SStr "x")] []);
             ("consequent", Node "BlockStatement" (Some 1) [] [])])])].

(** [function f(xs) { for (const x of xs) {} }] *)
Definition for_of_sample : node :=
  Node "FunctionDeclaration" (Some 1) [("async", SBool false); ("generator", SBool false)]
    [("id", Node "Identifier" (Some 1) [("name", SStr "f")] []);
     ("params", Node "Identifier" (Some 1) [("name", SStr "xs")] []);
     ("body",
      Node "BlockStatement" (Some 1) []
        [("body",
          Node "ForOfStatement" (Some 1) []
            [("left",
              Node "VariableDeclaration" (Some 1) [("kind", SStr "const")]
                [("declarations",
                  Node "VariableDeclarator" (Some 1) []
                    [("id", Node "Identifier" (Some 1) [("name", SStr "x")] [])])]);
             ("right", Node "Identifier" (Some 1) [("name", SStr "xs")] []);
             ("body", Node "BlockStatement" (Some 1) [] [])])])].

Definition Identifier (name : string) : node :=
  Node "Identifier" (Some 1) [("name", SStr name)] [].

(** [x;] *)
Definition program_x : File :=
  {| program :=
       Node "Program" (Some 1) []
         [("body", Node "ExpressionStatement" (Some 1) [] [("expression", Identifier "x")])] |}.

(** [try { f(); } catch (e) {}] *)
Definition try_statement : node :=
  Node "TryStatement" (Some 1) []
    [("block",
      Node "BlockStatement" (Some 1) []
        [("body",
          Node "ExpressionStatement" (Some 1) []
            [("expression",
              Node "CallExpression" (Some 1) [] [("callee", Identifier "f")])])]);
     ("handler",
      Node "CatchClause" (Some 1) []
        [("param", Identifier "e"); ("body", Node "BlockStatement" (Some 1) [] [])])].

Definition program_try : File :=
  {| program := Node "Program" (Some 1) [] [("body", try_statement)] |}.

(** [if (x) { } else { }] at top level *)
Definition program_if_else : File :=
  {| program :=
       Node "Program" (Some 1) []
         [("body",
           Node "IfStatement" (Some 1) []
             [("test", Identifier "x");
              ("consequent", Node "BlockStatement" (Some 1) [] []);
              ("alternate", Node "BlockStatement" (Some 1) [] [])])] |}.

(** [class Stack { push(x) {} }] and [class Empty {}] *)
Definition class_stack : node :=
  Node "ClassDeclaration" (Some 1) []
    [("id", Identifier "Stack");
     ("body",
      Node "ClassBody" (Some 1) []
        [("body",
          Node "ClassMethod" (Some 1)
            [("kind", SStr "method"); ("static", SBool false); ("async", SBool false)]
            [("key", Identifier "push"); ("params", Identifier "x");
             ("body", Node "BlockStatement" (Some 1) [] [])])])].

Definition class_empty : node :=
  Node "ClassDeclaration" (Some 1) []
    [("id", Identifier "Empty"); ("body", Node "ClassBody" (Some 1) [] [])].

(** A parser that answers every text with the same tree, whose scopes are
    built without error, and one that rejects every text as the parser
    does. *)
Definition parses_to (ast : File) : babel :=
  {| parse := fun _ => Ok ast; parserVersion := "7.23.0"; crawl := fun _ => None |}.

Definition rejects_with (message : string) : babel :=
  {| parse := fun _ => Throw (JsError (Some "BABEL_PARSER_SYNTAX_ERROR") message);
     parserVersion := "7.23.0"; crawl := fun _ => None |}.

(** ** Measures of a syntax tree *)

Definition any_kid (f : node -> bool) : list (string * node) -> bool :=
  fix each (l : list (string * node)) : bool :=
    match l with
    | [] => false
    | (_, c) :: r => f c || each r
    end.

(** Whether some node of a tree satisfies [p], and how many do. *)
Fixpoint any_in (p : node -> bool) (n : node) {struct n} : bool :=
  match n with
  | Node _ _ _ kids => p n || any_kid (any_in p) kids
  end.

Fixpoint tally_in (p : node -> bool) (n : node) {struct n} : nat :=
  match n with
  | Node _ _ _ kids => (if p n then 1 else 0) + sum_kids (tally_in p) kids
  end.

Definition any_below (p : node -> bool) (path : node) : bool :=
  any_kid (any_in p) (node_kids path).

Definition tally_below (p : node -> bool) (path : node) : nat :=
  sum_kids (tally_in p) (node_kids path).

(** The node types whose function-scoped visitor is [() => localComplexity++],
    and the logical expressions that the remaining visitor counts. *)
Definition returns_counter (n : node) : bool :=
  t_is "IfStatement" n || t_is "SwitchCase" n || t_is "ForStatement" n
  || t_is "WhileStatement" n || t_is "DoWhileStatement" n
  || t_is "ConditionalExpression" n.

Definition short_circuit (n : node) : bool :=
  t_is "LogicalExpression" n
  && match str_prop n "operator" with
     | Some op => String.eqb op "&&" || String.eqb op "||"
     | None => false
     end.

Definition unexpected_return : js_error :=
  new_Error "Unexpected return value from visitor method () => localComplexity++".

(** The declarators of a variable declaration that bind a plain identifier. *)
Definition binds_identifier (declaration : node) : bool :=
  match child declaration "id" with
  | Some id => t_is "Identifier" id
  | None => false
  end.

Definition variable_of (path declaration : node) : VariableInfo :=
  {| v_name := match child declaration "id" with
               | Some id => str_prop id "name"
               | None => None
               end;
     v_kind := str_prop path "kind";
     v_hasInitializer := match child declaration "init" with Some _ => true | None => false end;
     v_line := node_line path |}.

(** ** Measures of the synthesizer's input objects *)

(** The names of a list in the order of their first occurrence. *)
Fixpoint distinct (l : list string) : list string :=
  match l with
  | [] => []
  | x :: r => x :: List.filter (fun y => negb (String.eqb y x)) (distinct r)
  end.

Definition param_key (p : ParamInfo) : string := show_name (p_name p).

(** The value [generateInputData] binds for a parameter with a text name at
    position [index]. *)
Definition sample_of (index : nat) (p : ParamInfo) : jsval :=
  if String.eqb (p_type p) "identifier" then
    first_match sample_rules (lower (param_key p)) (VStr "testValue")
  else if String.eqb (p_type p) "default" then VStr "DEFAULT_VALUE"
  else if String.eqb (p_type p) "rest" then VArr [VNum (int 1); VNum (int 2); VNum (int 3)]
  else VStr ("param" ++ show_nat index).

Fixpoint samples_from (index : nat) (params : list ParamInfo) : list (string * jsval) :=
  match params with
  | [] => []
  | p :: rest => (param_key p, sample_of index p) :: samples_from (S index) rest
  end.

Definition keys_of (o : list (string * jsval)) : list string := map fst o.

(** A parameter whose name creates a property when it is assigned: every
    name but [__proto__], which objects inherit as an accessor. *)
Definition ordinary_param (p : ParamInfo) : bool :=
  negb (String.eqb (param_key p) "__proto__").

Definition is_nullish (v : jsval) : bool :=
  match v with VNull | VUndefined => true | _ => false end.

(** The [type] of an expected-output object. *)
Definition output_type (v : jsval) : option string :=
  match v with
  | VObj fields => match assoc "type" fields with Some (VStr s) => Some s | _ => None end
  | _ => None
  end.

(** What every descriptor of [generateTestCases] carries. *)
Definition descriptor_wf (analysisId : jsval) (t : TestCase) : Prop :=
  analysis_id t = analysisId
  /\ status t = "generated"
  /\ (priority t = priorities_LOW \/ priority t = priorities_MEDIUM
      \/ priority t = priorities_HIGH)
  /\ kind_ok t
  /\ (test_type t <> testTypes_UNIT -> priority t = priorities_HIGH)
  /\ test_code t <> None.

(** A computation that, whenever it returns, has made [q] template queries
    and [f] calls of [Math.random]. *)
Definition spends {A} (w : world) (m : M A) (q f : nat) : Prop :=
  forall c a c', m w c = Ok (a, c') ->
                 queries c' = queries c + q /\ flips c' = flips c + f.

Definition missing_unit_template : js_error :=
  new_Error "Falha na geração de testes: Cannot read properties of undefined (reading 'replace')".

(** A binding whose placeholder does not occur in a text. *)
Definition absent_from (t : string) (kv : string * string) : bool :=
  plain_key (fst kv) && negb (includes (placeholder (fst kv)) t).

(** ** Nodes at which a visitor of [analyzeJavaScript] raises *)

Definition is_nil {A} (l : list A) : bool :=
  match l with [] => true | _ :: _ => false end.

(** A function with a construct below it whose visitor returns the counter. *)
Definition branching_function (n : node) : bool :=
  is_function n && any_below returns_counter n.

(** A class declaration whose body has a member. *)
Definition class_with_members (n : node) : bool :=
  t_is "ClassDeclaration" n
  && match child n "body" with
     | Some body => negb (is_nil (children_of body "body"))
     | None => false
     end.

(** An export whose declaration is a function or class declaration without a
    name: [export default function () {}], [export default class {}]. *)
Definition is_export (n : node) : bool :=
  t_is "ExportAllDeclaration" n || t_is "ExportDefaultDeclaration" n
  || t_is "ExportNamedDeclaration" n.

Definition anonymous_export (n : node) : bool :=
  is_export n
  && match child n "declaration" with
     | Some d =>
         (t_is "FunctionDeclaration" d || t_is "ClassDeclaration" d)
         && match child d "id" with Some _ => false | None => true end
     | None => false
     end.

(** [export default function () {}] *)
Definition export_default_function : node :=
  Node "ExportDefaultDeclaration" (Some 1) []
    [("declaration",
      Node "FunctionDeclaration" (Some 1) [("async", SBool false); ("generator", SBool false)]
        [("body", Node "BlockStatement" (Some 1) [] [])])].

(** [const { a } = o, b = 1, c;] *)
Definition mixed_declaration : node :=
  Node "VariableDeclaration" (Some 1) [("kind", SStr "const")]
    [("declarations",
      Node "VariableDeclarator" (Some 1) []
        [("id",
          Node "ObjectPattern" (Some 1) []
            [("properties",
              Node "ObjectProperty" (Some 1) [("shorthand", SBool true)]
                [("key", Identifier "a"); ("value", Identifier "a")])]);
         ("init", Identifier "o")]);
     ("declarations",
      Node "VariableDeclarator" (Some 1) []
        [("id", Identifier "b");
         ("init", Node "NumericLiteral" (Some 1) [] [])]);
     ("declarations",
      Node "VariableDeclarator" (Some 1) [] [("id", Identifier "c")])].

(** The sample value of the last parameter named [key], counting positions
    from [index]. *)
Fixpoint last_sample (key : string) (index : nat) (params : list ParamInfo) : option jsval :=
  match params with
  | [] => None
  | p :: rest =>
      match last_sample key (S index) rest with
      | Some v => Some v
      | None => if String.eqb (param_key p) key then Some (sample_of index p) else None
      end
  end.

(** Two destructured parameters, as [extractFunctionInfo] records them for
    [function f({ a }, { b }) {}]. *)
Definition two_patterns : list ParamInfo :=
  [ {| p_name := Some "unknown"; p_type := "complex" |};
    {| p_name := Some "unknown"; p_type := "complex" |} ].

Definition next_tick (c : counters) : counters :=
  {| queries := queries c; flips := flips c; ticks := S (ticks c) |}.

Definition after_flips (n : nat) (c : counters) : counters :=
  {| queries := queries c; flips := flips c + n; ticks := ticks c |}.

(** ** Parameters without a name *)

Definition has_name (n : node) : bool :=
  match str_prop n "name" with Some _ => true | None => false end.

(** A default or rest parameter whose target is a pattern, as in
    [{ a } = {}] and [...[a, b]]. *)
Definition pattern_target (param : node) : bool :=
  (t_is "AssignmentPattern" param
   && match child param "left" with Some l => negb (has_name l) | None => false end)
  || (t_is "RestElement" param
      && match child param "argument" with Some l => negb (has_name l) | None => false end).

Definition has_unnamed (f : FunctionInfo) : bool :=
  existsb (fun p => negb (param_named p)) (f_params f).

(** A computation that never returns. *)
Definition never_returns {A} (w : world) (m : M A) : Prop :=
  ensures w m (fun _ => False).

(** ** The database helper (config/database.js) *)

(** What a run does with a client of the pool, in order. *)
Inductive pg_event := Statement (text : string) | Release.

(** A client: the answer to a statement may depend on the events before it;
    [None] is a statement that succeeds. *)
Definition pg_client : Type := list pg_event -> string -> option js_error.

(** A computation on a client: from the events so far, its outcome and the
    events it adds. *)
Definition Db (A : Type) : Type := list pg_event -> outcome A * list pg_event.

Definition db_ret {A} (a : A) : Db A := fun _ => (Ok a, []).

Definition db_throw {A} (e : js_error) : Db A := fun _ => (Throw e, []).

Definition db_bind {A B} (m : Db A) (k : A -> Db B) : Db B :=
  fun past =>
    match m past with
    | (Ok a, added) => let (r, more) := k a (past ++ added)%list in (r, (added ++ more)%list)
    | (Throw e, added) => (Throw e, added)
    | (Beyond, added) => (Beyond, added)
    end.

(** [try { m } catch (error) { handler(error) }] *)
Definition db_catch {A} (m : Db A) (handler : js_error -> Db A) : Db A :=
  fun past =>
    match m past with
    | (Throw error, added) =>
        let (r, more) := handler error (past ++ added)%list in (r, (added ++ more)%list)
    | other => other
    end.

(** [try { m } finally { client.release() }] *)
Definition db_finally_release {A} (m : Db A) : Db A :=
  fun past => let (r, added) := m past in (r, (added ++ [Release])%list).

(** [client.query(text)] *)
Definition client_query (client : pg_client) (text : string) : Db unit :=
  fun past =>
    (match client past text with None => Ok tt | Some e => Throw e end, [Statement text]).

(** [transaction(callback)]; [connect] is the outcome of [pool.connect()]. *)
Definition transaction {A} (connect : outcome pg_client) (callback : pg_client -> Db A)
  : Db A :=
  fun past =>
    match connect with
    | Ok client =>
        db_finally_release
          (db_catch
             (db_bind (client_query client "BEGIN") (fun _ =>
              db_bind (callback client) (fun result =>
              db_bind (client_query client "COMMIT") (fun _ =>
              db_ret result))))
             (fun error =>
                db_bind (client_query client "ROLLBACK") (fun _ => db_throw error)))
          past
    | Throw e => (Throw e, [])
    | Beyond => (Beyond, [])
    end.

(** What [catch (error) { await client.query('ROLLBACK'); throw error; }]
    raises after the events [past]: the error caught, or the error of the
    [ROLLBACK] when that fails. *)
Definition after_rollback {A} (client : pg_client) (past : list pg_event)
    (error : js_error) : outcome A :=
  match client past "ROLLBACK" with
  | None => Throw error
  | Some failure => Throw failure
  end.

(** A client on which every statement succeeds, one on which [COMMIT]
    fails, one on which [COMMIT] and [ROLLBACK] fail, and the callback of
    [deleteProject] when the project is missing. *)
Definition steady_client : pg_client := fun _ _ => None.

Definition commit_failing_client : pg_client :=
  fun _ text => if String.eqb text "COMMIT" then Some (new_Error "connection lost") else None.

Definition broken_client : pg_client :=
  fun _ text =>
    if String.eqb text "COMMIT" then Some (new_Error "connection lost")
    else if String.eqb text "ROLLBACK" then Some (new_Error "connection closed")
    else None.

Definition project_not_found (client : pg_client) : Db unit :=
  db_bind (client_query client "SELECT name FROM projects WHERE id = $1 AND user_id = $2")
    (fun _ => db_throw (new_Error "PROJECT_NOT_FOUND")).

Definition delete_one (client : pg_client) : Db nat :=
  db_bind (client_query client "DELETE FROM projects WHERE id = $1 AND user_id = $2")
    (fun _ => db_ret 1).

(* ================================================================== *)
(** * Part II. Properties                                              *)
(* ================================================================== *)

Example toISOString_epoch : toISOString 0 = "1970-01-01T00:00:00.000Z".
Proof. vm_compute. reflexivity. Qed.

Example toISOString_2026 : toISOString 1793606400123 = "2026-11-02T08:00:00.123Z".
Proof. vm_compute. reflexivity. Qed.

Example toISOString_before_epoch : toISOString (-1) = "1969-12-31T23:59:59.999Z".
Proof. vm_compute. reflexivity. Qed.

Example stringify_sample :
  show_json (VObj [("a", VNum (Dec 1005 1)); ("b", VArr [VStr "item1"; VNum (int (-1)); VUndefined]);
                   ("c", VUndefined); ("d", VObj [("id", VNum (int 1))])])
  = "{" ++ DQ ++ "a" ++ DQ ++ ":100.5," ++ DQ ++ "b" ++ DQ ++ ":[" ++ DQ ++ "item1" ++ DQ
      ++ ",-1,null]," ++ DQ ++ "d" ++ DQ ++ ":{" ++ DQ ++ "id" ++ DQ ++ ":1}}".
Proof. vm_compute. reflexivity. Qed.

Example replace_all_sample :
  replace_all "{{a}}" "<$&|$$|$1>" "x{{a}}y{{a}}" = "x<{{a}}|$|$1>y<{{a}}|$|$1>".
Proof. vm_compute. reflexivity. Qed.

Example replace_all_context :
  replace_all "{{a}}" "[$`|$']" "x{{a}}y" = "x[x|y]y".
Proof. vm_compute. reflexivity. Qed.

(** ** The heuristic value generator *)

Lemma includes_prefix (sub s : string) : starts_with sub s = true -> includes sub s = true.
Proof. destruct s; simpl; intros ->; reflexivity. Qed.

Lemma includes_cons (sub : string) (c : ascii) (s : string) :
  includes sub s = true -> includes sub (String c s) = true.
Proof.
  intros H. cbn [includes]. destruct (starts_with sub (String c s)); [reflexivity | exact H].
Qed.

Lemma includes_inv (sub s : string) :
  includes sub s = true ->
  starts_with sub s = true \/ exists c r, s = String c r /\ includes sub r = true.
Proof.
  destruct s as [|c r]; cbn [includes].
  - destruct (starts_with sub ""); [now left | discriminate].
  - destruct (starts_with sub (String c r)); [now left |].
    intros H. right. now exists c, r.
Qed.

(** Every name that contains [list] contains [is]: the rule for [list] is
    reached only through its other substrings. *)
Lemma includes_list_is (s : string) : includes "list" s = true -> includes "is" s = true.
Proof.
  induction s as [|c r IH]; intros H.
  - discriminate.
  - apply includes_inv in H. destruct H as [H | (c' & r' & E & H)].
    + apply includes_cons.
      destruct r as [|c1 [|c2 [|c3 r3]]]; cbn [starts_with] in H;
        rewrite ?andb_false_r in H; try discriminate.
      apply andb_prop in H as [_ H]. apply andb_prop in H as [Hi H].
      apply andb_prop in H as [Hs _].
      apply includes_prefix. cbn [starts_with]. rewrite Hi, Hs. reflexivity.
    + injection E as -> ->. apply includes_cons. now apply IH.
Qed.

Lemma generateSampleValueByName_table (s : string) :
  generateSampleValueByName (Some s)
  = Ok (first_match sample_rules (lower s) (VStr "testValue")).
Proof.
  unfold generateSampleValueByName, toLowerCase, obind, sample_rules.
  cbn [first_match existsb].
  rewrite !orb_false_r, !orb_assoc.
  repeat match goal with
         | |- (if ?b then _ else _) = _ => destruct b; [reflexivity |]
         end.
  reflexivity.
Qed.

(** C5.  For every identifier name, [generateSampleValueByName] lowercases it
    and returns the value of the first rule of the specification's table
    that has a substring in the name, in the table's order, and the literal
    [testValue] when no rule matches; the password value satisfies the
    password rule of the registration schema.  The lowercasing is that of
    the language, not of ASCII alone: a name that ends [LIN] and the Kelvin
    sign contains [link], while the capital I with dot followed by [d] does
    not give [id]. *)
Theorem sample_value_first_match :
  (forall s : string,
      generateSampleValueByName (Some s)
      = Ok (first_match sample_rules (lower s) (VStr "testValue")))
  /\ password_policy "Test123!" = true
  /\ generateSampleValueByName (Some ("LIN" ++ kelvin_sign))
     = Ok (VStr "https://example.com")
  /\ generateSampleValueByName (Some (dotted_capital_i ++ "d")) = Ok (VStr "testValue").
Proof.
  split; [exact generateSampleValueByName_table |].
  split; [reflexivity |]. split; reflexivity.
Qed.

Example sample_value_userId : generateSampleValueByName (Some "userId") = Ok (VNum (int 1)).
Proof. reflexivity. Qed.

Example sample_value_items :
  generateSampleValueByName (Some "cartItems") = Ok (VArr [VStr "item1"; VStr "item2"]).
Proof. reflexivity. Qed.

Example sample_value_list : generateSampleValueByName (Some "todoList") = Ok (VBool true).
Proof. reflexivity. Qed.

Example sample_value_undefined :
  generateSampleValueByName None = Throw (cannot_read "toLowerCase").
Proof. reflexivity. Qed.

(** C4 as stated fails: two calls of [generateHighQualityValue] with the same
    identifier, made at different times, return different values. *)
Lemma quality_value_reads_clock :
  generateHighQualityValue 0 (Some "birthDate") = Ok (VStr "1970-01-01T00:00:00.000Z")
  /\ generateHighQualityValue 1000 (Some "birthDate") = Ok (VStr "1970-01-01T00:00:01.000Z")
  /\ generateHighQualityValue 0 (Some "birthDate")
     <> generateHighQualityValue 1000 (Some "birthDate").
Proof.
  repeat split; try (vm_compute; reflexivity).
  intros H. vm_compute in H. discriminate H.
Qed.

(** C4, amended.  Both functions depend on the identifier through its
    lowercased form only.  [generateSampleValueByName] depends on nothing
    else.  [generateHighQualityValue] returns the same value at any two times
    for a name that contains [email] or [phone] or does not contain [date];
    for any other name it returns the time of the call in ISO form. *)
Theorem heuristic_values_by_name (n1 n2 : string) (t1 t2 : Z)
    (Hname : lower n1 = lower n2) :
  generateSampleValueByName (Some n1) = generateSampleValueByName (Some n2)
  /\ (clock_free (lower n1) = true ->
      generateHighQualityValue t1 (Some n1) = generateHighQualityValue t2 (Some n2))
  /\ (clock_free (lower n1) = false ->
      generateHighQualityValue t1 (Some n1) = Ok (VStr (toISOString t1))).
Proof.
  unfold generateSampleValueByName, generateHighQualityValue, clock_free.
  cbn [toLowerCase obind]. rewrite <- Hname.
  split; [reflexivity |].
  destruct (includes "email" (lower n1)), (includes "phone" (lower n1)),
    (includes "date" (lower n1)); cbn; split; intros H;
    first [reflexivity | discriminate H].
Qed.

Lemma heuristic_values_by_name_witness :
  lower "startDate" = lower "STARTDATE"
  /\ generateSampleValueByName (Some "startDate") = generateSampleValueByName (Some "STARTDATE")
  /\ generateHighQualityValue 0 (Some "startDate") = Ok (VStr (toISOString 0)).
Proof.
  split; [reflexivity |].
  destruct (heuristic_values_by_name "startDate" "STARTDATE" 0 1000 eq_refl)
    as (Hs & _ & Hd).
  split; [exact Hs | apply Hd; reflexivity].
Defined.

(** ** The guards of [analyzeCode] *)

Lemma rethrow_not_ok {A} (prefix : string) (m : outcome A) (r : A) :
  rethrow prefix m = Ok r -> m = Ok r.
Proof. destruct m; cbn; congruence. Qed.

(** C6 against the code.  [analyzeCode] fails, with no result, on an argument
    that is not a string, on the empty text, and on a text longer than the
    size limit (whatever the parser would do with it: it is not asked).  A
    text that the parser rejects fails as well, but not as a syntax error:
    for every parser error whose code is not [BABEL_PARSE_ERROR], and the
    parser's code is [BABEL_PARSER_SYNTAX_ERROR], the message is passed on
    under the prefix of [analyzeCode] alone, without [Erro de sintaxe: ].
    The default limit is 1048576. *)
Theorem parser_failure_is_not_marked (B : babel) (now : Z) (env : option Z)
    (language : option string) :
  let self := new_ASTParser env in
  analyzeCode B now self None language
    = Throw (new_Error "Erro na análise: Código fonte inválido")
  /\ analyzeCode B now self (Some []) language
     = Throw (new_Error "Erro na análise: Código fonte inválido")
  /\ (forall text,
        text <> [] -> (maxCodeSize self < Z.of_nat (List.length text))%Z ->
        safe_integer (maxCodeSize self) = true ->
        analyzeCode B now self (Some text) language
        = Throw (new_Error ("Erro na análise: Código muito grande (máximo "
                              ++ show_Z (maxCodeSize self) ++ " caracteres)")))
  /\ (forall text e,
        text <> [] -> (Z.of_nat (List.length text) <= maxCodeSize self)%Z ->
        parse B text = Throw e -> err_code e <> Some "BABEL_PARSE_ERROR" ->
        analyzeCode B now self (Some text) None
        = Throw (new_Error ("Erro na análise: " ++ err_message e)))
  /\ maxCodeSize (new_ASTParser None) = 1048576%Z.
Proof.
  cbn zeta. repeat split.
  - intros text Hne Hlen Hsafe. unfold analyzeCode.
    destruct text as [|u text]; [congruence |].
    apply Z.ltb_lt in Hlen. rewrite Hlen, Hsafe. reflexivity.
  - intros text e Hne Hlen Hparse Hcode. unfold analyzeCode.
    destruct text as [|u text]; [congruence |].
    apply Z.ltb_ge in Hlen. rewrite Hlen.
    cbn [new_ASTParser supportedLanguages includes_item negb String.eqb Ascii.eqb orb].
    replace (negb (includes_item "javascript" ["javascript"])) with false by reflexivity.
    replace ("javascript" =? "javascript")%string with true by reflexivity.
    unfold analyzeJavaScript. rewrite Hparse. cbn [obind].
    destruct (err_code e) as [code|]; [| reflexivity].
    destruct (String.eqb_spec code "BABEL_PARSE_ERROR"); [congruence | reflexivity].
Qed.

Lemma parser_failure_is_not_marked_witness :
  analyzeCode (rejects_with "Unexpected token (1:0)") 0 (new_ASTParser (Some 3%Z))
    (Some [125%N; 125%N]) None
  = Throw (new_Error "Erro na análise: Unexpected token (1:0)")
  /\ analyzeCode (parses_to program_x) 0 (new_ASTParser (Some 3%Z))
       (Some [120%N; 59%N; 120%N; 59%N]) None
     = Throw (new_Error "Erro na análise: Código muito grande (máximo 3 caracteres)").
Proof.
  split.
  - destruct (parser_failure_is_not_marked (rejects_with "Unexpected token (1:0)") 0
                (Some 3%Z) None) as (_ & _ & _ & H & _).
    apply (H [125%N; 125%N]
             (JsError (Some "BABEL_PARSER_SYNTAX_ERROR") "Unexpected token (1:0)"));
      [discriminate | cbn; lia | reflexivity | discriminate].
  - destruct (parser_failure_is_not_marked (parses_to program_x) 0 (Some 3%Z) None)
      as (_ & _ & H & _).
    apply (H [120%N; 59%N; 120%N; 59%N]); [discriminate | cbn; lia | reflexivity].
Defined.

(** The branch that marks a syntax error is taken for the code that
    [@babel/core] gives to the errors of its own parse step, and for no
    other. *)
Lemma marker_needs_the_code_of_babel_core (B : babel) (now : Z) (self : ASTParser)
    (text : list code_unit) (e : js_error) :
  parse B text = Throw e ->
  analyzeJavaScript B now self text
  = Throw (if match err_code e with
              | Some code => String.eqb code "BABEL_PARSE_ERROR"
              | None => false
              end
           then new_Error ("Erro de sintaxe: " ++ err_message e) else e).
Proof.
  intros Hparse. unfold analyzeJavaScript. rewrite Hparse. cbn [obind].
  destruct (err_code e) as [code|]; [destruct (String.eqb code _) |]; reflexivity.
Qed.

(** ** The traversal *)

Section NodeInduction.
Variable P : node -> Prop.
Hypothesis step :
  forall ty ln props kids,
    Forall (fun kc => P (snd kc)) kids -> P (Node ty ln props kids).

Lemma node_induction (n : node) : P n.
Proof.
  revert n. fix IH 1. intros [ty ln props kids]. apply step.
  induction kids as [|[k c] r IHr]; constructor; [apply IH | exact IHr].
Qed.
End NodeInduction.

(** With no receiver the first [enter] raises: the traversal of any tree
    ends there. *)
Lemma traverse_unbound (n : node) (w : walk) :
  traverse_node None n w = Throw (cannot_read "isBlockStatement").
Proof. destruct n. reflexivity. Qed.

Lemma analyzeJavaScript_throws (B : babel) (now : Z) (self : ASTParser)
    (text : list code_unit) (r : AnalysisOutput) :
  analyzeJavaScript B now self text <> Ok r.
Proof.
  unfold analyzeJavaScript. destruct (parse B text) as [ast | e |]; cbn [obind].
  - unfold traverse. destruct (crawl B (program ast)) as [e|]; cbn [obind].
    + destruct (err_code e) as [code|]; [destruct (String.eqb code _) |]; discriminate.
    + rewrite traverse_unbound. cbn. discriminate.
  - destruct (err_code e) as [code|]; [destruct (String.eqb code _) |]; discriminate.
  - discriminate.
Qed.

(** C7 against the code.  [analyzeCode] returns no result for any argument:
    when the guards pass and the text parses, the traversal raises, in its
    first [enter] at the latest.  No metrics are ever returned. *)
Theorem analyze_never_returns (B : babel) (now : Z) (self : ASTParser)
    (sourceCode : option (list code_unit)) (language : option string) (r : AnalysisOutput) :
  analyzeCode B now self sourceCode language <> Ok r.
Proof.
  intros H. apply rethrow_not_ok in H. revert H.
  destruct sourceCode as [[|u text]|]; try discriminate.
  destruct (_ <? _)%Z; [destruct (safe_integer _); discriminate |].
  destruct (negb _); [discriminate |].
  destruct (String.eqb _ _); [| discriminate].
  apply analyzeJavaScript_throws.
Qed.

Example analyze_branch_free_text :
  analyzeCode (parses_to program_x) 0 (new_ASTParser None) (Some [120%N; 59%N]) None
  = Throw (new_Error
      "Erro na análise: Cannot read properties of undefined (reading 'isBlockStatement')").
Proof. vm_compute. reflexivity. Qed.

(** ** The size check *)

(** C9 against the code.  A text of exactly [maxCodeSize] code units passes
    the size check and is handed to the analysis, and one code unit more is
    rejected for its size; the length compared is the number of UTF-16 code
    units (a text of three code units passes a limit of three although its
    UTF-8 form has six bytes), and the default limit is 1048576.  But the
    text is not accepted: the analysis returns for no text, and when this
    one parses and its scopes are built the call raises the TypeError of
    the first [enter]. *)
Theorem text_at_the_limit_is_not_accepted (B : babel) (now : Z) (env : option Z)
    (text : list code_unit) (Hne : text <> [])
    (Hlen : Z.of_nat (List.length text) = maxCodeSize (new_ASTParser env)) :
  let self := new_ASTParser env in
  analyzeCode B now self (Some text) None
    = rethrow "Erro na análise: " (analyzeJavaScript B now self text)
  /\ (forall r, analyzeCode B now self (Some text) None <> Ok r)
  /\ (forall ast,
        parse B text = Ok ast -> crawl B (program ast) = None ->
        analyzeCode B now self (Some text) None
        = Throw (new_Error ("Erro na análise: "
                   ++ "Cannot read properties of undefined (reading 'isBlockStatement')")))
  /\ (forall u,
        safe_integer (maxCodeSize self) = true ->
        analyzeCode B now self (Some (text ++ [u])%list) None
        = Throw (new_Error ("Erro na análise: Código muito grande (máximo "
                              ++ show_Z (maxCodeSize self) ++ " caracteres)")))
  /\ (let accented := [233%N; 233%N; 233%N] in
      utf8_length accented = 6
      /\ analyzeCode B now (new_ASTParser (Some 3%Z)) (Some accented) None
         = rethrow "Erro na análise: "
             (analyzeJavaScript B now (new_ASTParser (Some 3%Z)) accented))
  /\ maxCodeSize (new_ASTParser None) = 1048576%Z.
Proof.
  cbn zeta.
  assert (Hrun : analyzeCode B now (new_ASTParser env) (Some text) None
                 = rethrow "Erro na análise: "
                     (analyzeJavaScript B now (new_ASTParser env) text)).
  { unfold analyzeCode. destruct text as [|u text]; [congruence |].
    rewrite Hlen, Z.ltb_irrefl. reflexivity. }
  split; [exact Hrun |].
  split.
  { intros r H. rewrite Hrun in H. apply rethrow_not_ok in H.
    now apply analyzeJavaScript_throws in H. }
  split.
  { intros ast Hparse Hcrawl. rewrite Hrun. unfold analyzeJavaScript, traverse.
    rewrite Hparse. cbn [obind]. rewrite Hcrawl, traverse_unbound. reflexivity. }
  split.
  { intros u Hsafe. unfold analyzeCode.
    destruct (text ++ [u])%list as [|v rest] eqn:E.
    - destruct text; discriminate E.
    - rewrite <- E, length_app, Nat2Z.inj_add, Hlen. cbn [List.length].
      replace (maxCodeSize (new_ASTParser env)
                 <? maxCodeSize (new_ASTParser env) + Z.of_nat 1)%Z
        with true by (symmetry; apply Z.ltb_lt; lia).
      rewrite Hsafe. reflexivity. }
  split; [split; reflexivity | reflexivity].
Qed.

Lemma text_at_the_limit_is_not_accepted_witness :
  analyzeCode (parses_to program_x) 0 (new_ASTParser (Some 2%Z)) (Some [120%N; 59%N]) None
  = Throw (new_Error ("Erro na análise: "
             ++ "Cannot read properties of undefined (reading 'isBlockStatement')"))
  /\ analyzeCode (parses_to program_x) 0 (new_ASTParser (Some 2%Z))
       (Some [120%N; 59%N; 120%N]) None
     = Throw (new_Error "Erro na análise: Código muito grande (máximo 2 caracteres)").
Proof.
  destruct (text_at_the_limit_is_not_accepted (parses_to program_x) 0 (Some 2%Z)
              [120%N; 59%N]) as (_ & _ & Hparsed & Hmore & _);
    [discriminate | reflexivity |].
  split.
  - apply (Hparsed program_x); reflexivity.
  - apply (Hmore 120%N). reflexivity.
Defined.

(** ** What the visitors do when the traversal is given a receiver *)

Lemma extractFunctionInfo_cc (path : node) (a a' : Analysis) (type : string) :
  extractFunctionInfo path a type = Ok a' -> cc a' = cc a.
Proof.
  unfold extractFunctionInfo.
  destruct (function_params _); cbn [obind]; try discriminate.
  destruct (local_traverse path 1); cbn [obind]; try discriminate.
  intros H. injection H as <-. reflexivity.
Qed.

Lemma extractClassInfo_cc (path : node) (a a' : Analysis) :
  extractClassInfo path a = Ok a' -> cc a' = cc a.
Proof.
  unfold extractClassInfo. destruct (child path "body"); try discriminate.
  destruct (class_members _); cbn [obind]; try discriminate.
  intros H. injection H as <-. reflexivity.
Qed.

Lemma extractVariableInfo_cc (path : node) (a a' : Analysis) :
  extractVariableInfo path a = Ok a' -> cc a' = cc a.
Proof.
  unfold extractVariableInfo. intros H. injection H as <-.
  generalize (children_of path "declarations") as ds. intros ds. revert a.
  induction ds as [|d ds IH]; intros a; [reflexivity |].
  cbn [fold_left]. rewrite IH.
  destruct (child d "id") as [id|]; [| reflexivity].
  destruct (t_is "Identifier" id); reflexivity.
Qed.

Lemma extractImportInfo_cc (path : node) (a a' : Analysis) :
  extractImportInfo path a = Ok a' -> cc a' = cc a.
Proof.
  unfold extractImportInfo. destruct (child path "source"); try discriminate.
  destruct (import_specifiers _); cbn [obind]; try discriminate.
  intros H. injection H as <-. reflexivity.
Qed.

Lemma extractExportInfo_cc (path : node) (a a' : Analysis) :
  extractExportInfo path a = Ok a' -> cc a' = cc a.
Proof.
  unfold extractExportInfo.
  match goal with
  | |- obind ?m _ = _ -> _ => destruct m; cbn [obind]; try discriminate
  end.
  intros H. injection H as <-. reflexivity.
Qed.

Lemma visit_floor (path : node) (a a' : Analysis) :
  visit path a = Ok a' -> (cc a <= cc a')%Z.
Proof.
  unfold visit.
  repeat match goal with
         | |- (if ?b then _ else _) = _ -> _ => destruct b
         end;
    intros H;
    first [ apply extractFunctionInfo_cc in H; lia
          | apply extractClassInfo_cc in H; lia
          | apply extractVariableInfo_cc in H; lia
          | apply extractImportInfo_cc in H; lia
          | apply extractExportInfo_cc in H; lia
          | discriminate H
          | injection H as <-; unfold cc; cbn; lia ].
Qed.

(** Whatever receiver the engine supplies, a traversal that ends does not
    lower the cyclomatic complexity it started with. *)
Lemma traverse_floor (state : option ASTParser) (n : node) :
  forall w w', traverse_node state n w = Ok w' ->
               (cc (w_analysis w) <= cc (w_analysis w'))%Z.
Proof.
  induction n as [ty ln props kids IH] using node_induction.
  intros w w'. cbn [traverse_node].
  destruct (enter state (Node ty ln props kids) w) as [w1 | e |] eqn:E1; cbn [obind];
    try discriminate.
  assert (H1 : w_analysis w1 = w_analysis w).
  { unfold enter in E1. destruct state; [| discriminate].
    injection E1 as <-. now destruct (isBlockStatement _ _). }
  unfold visit_walk at 1.
  destruct (visit (Node ty ln props kids) (w_analysis w1)) as [a2 | e |] eqn:E2;
    cbn [obind]; try discriminate.
  apply visit_floor in E2. rewrite H1 in E2.
  set (w2 := {| w_analysis := a2; currentDepth := currentDepth w1; maxDepth := maxDepth w1 |}).
  assert (Hk : forall s s', walk_kids (traverse_node state) kids s = Ok s' ->
                            (cc (w_analysis s) <= cc (w_analysis s'))%Z).
  { clear -IH. induction kids as [|[k c] r IHr]; intros s s'.
    - cbn. intros H. injection H as <-. lia.
    - cbn [walk_kids]. inversion IH as [|? ? Hc Hr]; subst.
      destruct (traverse_node state c s) as [s1 | e |] eqn:Ec; cbn [obind]; try discriminate.
      intros H. apply (IHr Hr) in H. apply Hc in Ec. cbn [snd] in Ec. lia. }
  destruct (walk_kids (traverse_node state) kids w2) as [w3 | e |] eqn:E3; cbn [obind];
    try discriminate.
  apply Hk in E3. cbn [w2 w_analysis] in E3.
  unfold exit. destruct state; [| discriminate].
  intros H. injection H as <-. destruct (isBlockStatement _ _); cbn [w_analysis]; lia.
Qed.

Lemma finish_metrics_counts (w : walk) :
  functionsCount (complexity (finish_metrics w)) = List.length (functions (finish_metrics w))
  /\ classesCount (complexity (finish_metrics w)) = List.length (classes (finish_metrics w))
  /\ cc (finish_metrics w) = cc (w_analysis w).
Proof. repeat split. Qed.

(** Scenario B as the visitors handle it when [enter] and [exit] have the
    parser as their receiver: one conditional with an else branch,
    complexity 2, two descriptors. *)
Example scenario_if_else_bound :
  match traverse (parses_to program_if_else) program_if_else (Some (new_ASTParser None))
          {| w_analysis := initial_analysis []; currentDepth := 0; maxDepth := 0 |} with
  | Ok w =>
      Some (conditionals (finish_metrics w), cc (finish_metrics w),
            map function_name
              (generateConditionalTests (conditionals (finish_metrics w)) VNull))
  | _ => None
  end
  = Some ([{| cond_type := "if"; cond_line := Some 1; hasElse := true |}], 2%Z,
          [Some "conditional_0"; Some "conditional_0"]).
Proof. vm_compute. reflexivity. Qed.

(** The same program through [analyzeJavaScript], whose traversal has no
    receiver. *)
Example scenario_if_else :
  analyzeJavaScript (parses_to program_if_else) 0 (new_ASTParser None) [105%N; 102%N]
  = Throw (cannot_read "isBlockStatement").
Proof. reflexivity. Qed.

Example class_with_member :
  extractClassInfo class_stack (initial_analysis [])
  = Throw (new_Error "t.isMethodDefinition is not a function").
Proof. reflexivity. Qed.

Example class_without_members :
  extractClassInfo class_empty (initial_analysis [])
  = Ok (push_class {| c_name := Some "Empty"; c_superClass := VNull; c_methods := [];
                      c_properties := []; c_line := Some 1 |} (initial_analysis [])).
Proof. reflexivity. Qed.

(** ** Try statements *)

Lemma t_is_eq (ty : string) (n : node) : t_is ty n = true -> node_type n = ty.
Proof. unfold t_is. apply String.eqb_eq. Qed.

Lemma visit_try (path : node) (analysis : Analysis) :
  t_is "TryStatement" path = true -> visit path analysis = Throw (cannot_read "push").
Proof.
  intros H. apply t_is_eq in H. unfold visit. rewrite H. reflexivity.
Qed.

Lemma walk_kids_never_ok {S : Type} (f : node -> S -> outcome S) (kids : list (string * node)) :
  Exists (fun kc => forall s s', f (snd kc) s <> Ok s') kids ->
  forall s s', walk_kids f kids s <> Ok s'.
Proof.
  induction kids as [|[k c] r IH]; intros HE s s'.
  - inversion HE.
  - cbn [walk_kids]. destruct (f c s) as [s1 | e |] eqn:E; cbn [obind]; try discriminate.
    inversion HE as [? ? H | ? ? H]; subst.
    + exfalso. exact (H s s1 E).
    + now apply IH.
Qed.

Lemma occurs_unfold (ty t : string) ln props kids :
  occurs ty (Node t ln props kids) = true ->
  String.eqb t ty = true \/ Exists (fun kc => occurs ty (snd kc) = true) kids.
Proof.
  cbn [occurs]. intros H. apply orb_prop in H. destruct H as [H | H]; [now left | right].
  induction kids as [|[k c] r IH]; [discriminate |].
  apply orb_prop in H. destruct H as [H | H].
  - now constructor.
  - apply Exists_cons_tl. now apply IH.
Qed.

Lemma try_never_analysed (state : option ASTParser) (n : node) :
  occurs "TryStatement" n = true ->
  forall w w', traverse_node state n w <> Ok w'.
Proof.
  induction n as [ty ln props kids IH] using node_induction.
  intros Hocc w w'. apply occurs_unfold in Hocc. cbn [traverse_node].
  destruct (enter state (Node ty ln props kids) w) as [w1 | e |]; cbn [obind];
    try discriminate.
  destruct Hocc as [Hty | Hkid].
  - unfold visit_walk. rewrite visit_try by exact Hty. discriminate.
  - destruct (visit_walk (Node ty ln props kids) w1) as [w2 | e |]; cbn [obind];
      try discriminate.
    assert (Hk : forall s s', walk_kids (traverse_node state) kids s <> Ok s').
    { apply walk_kids_never_ok.
      rewrite Exists_exists in Hkid. destruct Hkid as (kc & Hin & Ho).
      rewrite Exists_exists. exists kc. split; [exact Hin |].
      rewrite Forall_forall in IH. intros s s'. now apply (IH kc Hin Ho). }
    destruct (walk_kids (traverse_node state) kids w2) as [w3 | e |] eqn:E; cbn [obind];
      try discriminate.
    exfalso. exact (Hk _ _ E).
Qed.

(** C2 against the code.  The visitor of a try statement raises before it
    stores a record or increments the complexity, and a tree in which a try
    statement occurs is never analysed to the end, whatever receiver the
    engine gives to [enter] and [exit]. *)
Theorem try_statement_not_recorded :
  (forall path analysis,
      t_is "TryStatement" path = true ->
      visit path analysis = Throw (cannot_read "push"))
  /\ (forall state n w w',
        occurs "TryStatement" n = true -> traverse_node state n w <> Ok w')
  /\ (forall self w,
        traverse (parses_to program_try) program_try (Some self) w = Throw (cannot_read "push"))
  /\ (forall now self text r,
        analyzeJavaScript (parses_to program_try) now self text <> Ok r).
Proof.
  split; [exact visit_try |].
  split; [intros state n w w' H; now apply try_never_analysed |].
  split; [intros self w; reflexivity |].
  intros now self text r. apply analyzeJavaScript_throws.
Qed.

Lemma try_statement_not_recorded_witness :
  visit try_statement (initial_analysis []) = Throw (cannot_read "push")
  /\ forall w',
       traverse_node (Some (new_ASTParser None)) (program program_try)
         {| w_analysis := initial_analysis []; currentDepth := 0; maxDepth := 0 |} <> Ok w'.
Proof.
  destruct try_statement_not_recorded as (Hv & Ht & _).
  split.
  - apply Hv. reflexivity.
  - intros w'. apply Ht. reflexivity.
Defined.

(** ** The local complexity of a function *)

Lemma local_visit_counts (n : node) (lc lc' : Z) :
  local_visit n lc = Ok lc' -> lc' = (lc + Z.of_nat (if counted n then 1 else 0))%Z.
Proof.
  unfold local_visit, local_visitor, counted.
  destruct (t_is "IfStatement" n), (t_is "SwitchCase" n), (t_is "ForStatement" n),
    (t_is "WhileStatement" n), (t_is "DoWhileStatement" n),
    (t_is "ConditionalExpression" n); cbn [orb andb];
    try (destruct (check_return _ _); cbn [obind]; intros H;
         first [discriminate H | injection H as <-; cbn; lia]).
  destruct (t_is "LogicalExpression" n); cbn [andb].
  - destruct (str_prop n "operator") as [op|].
    + destruct (String.eqb op "&&" || String.eqb op "||"); cbn; intros H;
        injection H as <-; lia.
    + cbn. intros H. injection H as <-. lia.
  - intros H. injection H as <-. cbn. lia.
Qed.

Lemma local_walk_counts (n : node) :
  forall lc lc', local_walk n lc = Ok lc' -> lc' = (lc + Z.of_nat (count_in n))%Z.
Proof.
  induction n as [ty ln props kids IH] using node_induction.
  intros lc lc'. cbn [local_walk count_in].
  destruct (local_visit (Node ty ln props kids) lc) as [lc1 | e |] eqn:E; cbn [obind];
    try discriminate.
  apply local_visit_counts in E. subst lc1.
  assert (Hk : forall base out, walk_kids local_walk kids base = Ok out ->
                                out = (base + Z.of_nat (sum_kids count_in kids))%Z).
  { induction kids as [|[key c] r IHr]; intros base out.
    - cbn. intros H. injection H as <-. lia.
    - cbn [walk_kids sum_kids]. inversion IH as [|? ? Hc Hr]; subst.
      destruct (local_walk c base) as [b1 | e |] eqn:Ec; cbn [obind]; try discriminate.
      intros H. apply (IHr Hr) in H. apply Hc in Ec. cbn [snd] in Ec. subst. lia. }
  intros H. apply Hk in H. lia.
Qed.

Lemma local_traverse_counts (path : node) (lc lc' : Z) :
  local_traverse path lc = Ok lc' -> lc' = (lc + Z.of_nat (count_below path))%Z.
Proof.
  unfold local_traverse, count_below. destruct path as [ty ln props kids]. cbn [node_kids].
  revert lc lc'. induction kids as [|[key c] r IH]; intros lc lc'.
  - cbn. intros H. injection H as <-. lia.
  - cbn [walk_kids sum_kids].
    destruct (local_walk c lc) as [b1 | e |] eqn:Ec; cbn [obind]; try discriminate.
    intros H. apply IH in H. apply local_walk_counts in Ec. lia.
Qed.

(** C3 as stated fails: the arrow function nested in [outer] holds the only
    counted construct, the function's own subtree holds none, and [outer] is
    recorded with local complexity 2. *)
Lemma nested_function_is_counted :
  extractFunctionInfo nested_sample (initial_analysis []) "declaration"
  = Ok (push_function
          {| f_name := Some "outer"; f_type := "declaration"; f_params := [];
             f_async := false; f_generator := false; f_line := Some 1;
             f_complexity := 2 |}
          (initial_analysis []))
  /\ (1 + Z.of_nat (count_own_below nested_sample) = 1)%Z.
Proof. split; reflexivity. Qed.

(** C3, amended.  Every function that [extractFunctionInfo] records gets the
    local complexity 1 plus the number of if statements, switch cases, for,
    while and do-while loops, ternaries and [&&] / [||] operators among all
    the nodes below the function node, the bodies of nested functions
    included. *)
Theorem local_complexity_counts_subtree (path : node) (analysis a' : Analysis)
    (type : string) (Hrec : extractFunctionInfo path analysis type = Ok a') :
  exists fi,
    functions a' = (functions analysis ++ [fi])%list
    /\ f_complexity fi = (1 + Z.of_nat (count_below path))%Z.
Proof.
  unfold extractFunctionInfo in Hrec.
  destruct (function_params _) as [params | e |]; cbn [obind] in Hrec; try discriminate.
  destruct (local_traverse path 1) as [lc | e |] eqn:E; cbn [obind] in Hrec;
    try discriminate.
  injection Hrec as <-. eexists. split; [reflexivity |].
  cbn [f_complexity]. now apply local_traverse_counts in E.
Qed.

Lemma local_complexity_counts_subtree_witness :
  exists fi,
    functions (push_function
                 {| f_name := Some "outer"; f_type := "declaration"; f_params := [];
                    f_async := false; f_generator := false; f_line := Some 1;
                    f_complexity := 2 |}
                 (initial_analysis []))
    = (functions (initial_analysis []) ++ [fi])%list
    /\ f_complexity fi = (1 + Z.of_nat (count_below nested_sample))%Z.
Proof.
  apply (local_complexity_counts_subtree nested_sample (initial_analysis []) _ "declaration").
  reflexivity.
Defined.

(** The counting visitors other than the one for logical expressions return
    the counter, which the engine refuses: a function with an if statement
    below it is not recorded. *)
Example if_statement_aborts :
  extractFunctionInfo if_sample (initial_analysis []) "declaration"
  = Throw (new_Error "Unexpected return value from visitor method () => localComplexity++").
Proof. reflexivity. Qed.

(** For-in and for-of loops have no counting visitor. *)
Example for_of_not_counted :
  option_map (map f_complexity)
    (match extractFunctionInfo for_of_sample (initial_analysis []) "declaration" with
     | Ok a => Some (functions a)
     | _ => None
     end) = Some [1%Z].
Proof. reflexivity. Qed.

(** ** The template renderer *)

#[local] Arguments append !s1 s2 : simpl nomatch.

Lemma app_assoc_s (a b c : string) : (a ++ b) ++ c = a ++ (b ++ c).
Proof. induction a as [|x a IH]; cbn [append]; [reflexivity | f_equal; exact IH]. Qed.

Lemma starts_with_app (p r : string) : starts_with p (p ++ r) = true.
Proof.
  induction p as [|c p IH]; cbn; [reflexivity |]. now rewrite Ascii.eqb_refl, IH.
Qed.

Lemma GetSubstitution_plain (matched before after value : string) :
  dollar_free value = true -> GetSubstitution matched before after value = value.
Proof.
  unfold dollar_free. induction value as [|c r IH]; cbn; [reflexivity |].
  intros H. apply andb_prop in H as [Hc Hr]. apply negb_true_iff in Hc.
  rewrite Hc. now rewrite IH.
Qed.

Lemma replace_from_plain (pat value : string) :
  dollar_free value = true ->
  forall s before skip,
    replace_from pat value before skip s = replace_plain pat value skip s.
Proof.
  intros Hv. induction s as [|c r IH]; intros before skip; cbn; [reflexivity |].
  destruct skip as [|k]; [| apply IH].
  rewrite !IH, GetSubstitution_plain by exact Hv. reflexivity.
Qed.

Lemma replace_plain_skip (pat value x rest : string) :
  replace_plain pat value (String.length x) (x ++ rest) = replace_plain pat value 0 rest.
Proof.
  induction x as [|c x IH]; cbn [String.length append].
  - destruct rest; reflexivity.
  - cbn [replace_plain]. exact IH.
Qed.

Lemma placeholder_unfold (key : string) :
  placeholder key = String "{" (String "{" (key ++ "}}")).
Proof. reflexivity. Qed.

(** Inert text is passed unchanged by the scan for any placeholder. *)
Lemma scan_text (key value t rest : string) :
  inert t = true ->
  replace_plain (placeholder key) value 0 (t ++ rest)
  = t ++ replace_plain (placeholder key) value 0 rest.
Proof.
  induction t as [|c t IH]; intros Hi; [reflexivity |].
  cbn [inert] in Hi. apply andb_prop in Hi as [Hc Ht].
  cbn [append replace_plain].
  assert (Hno : starts_with (placeholder key) (String c (t ++ rest)) = false).
  { rewrite placeholder_unfold. cbn [starts_with].
    destruct (Ascii.eqb "{" c) eqn:Ec; [| reflexivity].
    apply Ascii.eqb_eq in Ec. subst c. cbn in Hc.
    destruct t as [|d t]; [discriminate |].
    cbn [append]. unfold is_open in Hc. rewrite Ascii.eqb_sym in Hc.
    apply negb_true_iff in Hc. now rewrite Hc. }
  rewrite Hno. now rewrite IH.
Qed.

Lemma scan_same (key value rest : string) :
  replace_plain (placeholder key) value 0 (placeholder key ++ rest)
  = value ++ replace_plain (placeholder key) value 0 rest.
Proof.
  remember (placeholder key) as pat eqn:E.
  destruct pat as [|c pat]; [discriminate E |].
  cbn [append replace_plain].
  change (String c (pat ++ rest)) with (String c pat ++ rest).
  rewrite starts_with_app.
  replace (String.length (String c pat) - 1) with (String.length pat)
    by (cbn [String.length]; lia).
  now rewrite replace_plain_skip.
Qed.

Lemma word_char_not_open (c : ascii) : word_char c = true -> Ascii.eqb "{" c = false.
Proof.
  intros H. destruct (Ascii.eqb "{" c) eqn:E; [| reflexivity].
  apply Ascii.eqb_eq in E. subst c. discriminate H.
Qed.

Lemma word_char_not_close (c : ascii) : word_char c = true -> Ascii.eqb "}" c = false.
Proof.
  intros H. destruct (Ascii.eqb "}" c) eqn:E; [| reflexivity].
  apply Ascii.eqb_eq in E. subst c. discriminate H.
Qed.

Lemma plain_key_word (key : string) :
  plain_key key = true -> all_chars word_char key = true /\ key <> "".
Proof.
  destruct key as [|c r]; [discriminate |]. cbn [plain_key all_chars]. intros H.
  apply andb_prop in H as [Hc Hr]. split; [| discriminate].
  unfold word_char at 1. now rewrite Hc, Hr.
Qed.

Lemma same_key (k k' rest : string) :
  all_chars word_char k = true -> all_chars word_char k' = true ->
  starts_with (k ++ "}}") (k' ++ "}}" ++ rest) = true -> k = k'.
Proof.
  revert k'. induction k as [|c k IH]; intros [|c' k'] Hk Hk' H;
    cbn [append starts_with all_chars] in *.
  - reflexivity.
  - apply andb_prop in Hk' as [Hc' _]. apply word_char_not_close in Hc'.
    rewrite Hc' in H. discriminate H.
  - apply andb_prop in Hk as [Hc _]. apply word_char_not_close in Hc.
    rewrite Ascii.eqb_sym, Hc in H. discriminate H.
  - apply andb_prop in Hk as [_ Hk]. apply andb_prop in Hk' as [_ Hk'].
    apply andb_prop in H as [Hcc H]. apply Ascii.eqb_eq in Hcc. subst c'.
    f_equal. now apply IH.
Qed.

Lemma brace_free_inert (x : string) :
  all_chars (fun c => negb (is_open c)) x = true -> inert x = true.
Proof.
  induction x as [|c x IH]; cbn; [reflexivity |].
  intros H. apply andb_prop in H as [Hc Hx]. apply negb_true_iff in Hc.
  rewrite Hc. cbn. now apply IH.
Qed.

Lemma key_tail_brace_free (key : string) :
  all_chars word_char key = true ->
  all_chars (fun c => negb (is_open c)) (key ++ "}}") = true.
Proof.
  induction key as [|c key IH]; cbn; [reflexivity |].
  intros H. apply andb_prop in H as [Hc Hk].
  apply word_char_not_open in Hc. unfold is_open. rewrite Ascii.eqb_sym, Hc. cbn.
  now apply IH.
Qed.

(** The placeholder of another key is passed unchanged. *)
Lemma scan_other (key key' value rest : string) :
  plain_key key = true -> plain_key key' = true -> key' <> key ->
  replace_plain (placeholder key) value 0 (placeholder key' ++ rest)
  = placeholder key' ++ replace_plain (placeholder key) value 0 rest.
Proof.
  intros Hk Hk' Hne.
  apply plain_key_word in Hk as [Hw _]. apply plain_key_word in Hk' as [Hw' Hne'].
  rewrite (placeholder_unfold key'). cbn [append replace_plain].
  assert (H0 : starts_with (placeholder key)
                 (String "{" (String "{" ((key' ++ "}}") ++ rest))) = false).
  { rewrite placeholder_unfold. cbn [starts_with]. rewrite Ascii.eqb_refl. cbn [andb].
    destruct (starts_with (key ++ "}}") ((key' ++ "}}") ++ rest)) eqn:E; [| reflexivity].
    rewrite app_assoc_s in E. apply same_key in E; [| assumption | assumption].
    congruence. }
  rewrite H0.
  assert (H1 : starts_with (placeholder key) (String "{" ((key' ++ "}}") ++ rest)) = false).
  { rewrite placeholder_unfold. cbn [starts_with]. rewrite Ascii.eqb_refl. cbn [andb].
    destruct key' as [|c' key']; [congruence |]. cbn [append].
    cbn in Hw'. apply andb_prop in Hw' as [Hc' _].
    apply word_char_not_open in Hc'. now rewrite Hc'. }
  rewrite H1. rewrite scan_text; [reflexivity |].
  apply brace_free_inert. now apply key_tail_brace_free.
Qed.

Lemma replace_plain_segments (key value : string) (segs : list segment) :
  plain_key key = true -> forallb segment_ok segs = true ->
  replace_plain (placeholder key) value 0 (template_text segs)
  = template_text (subst_hole key value segs).
Proof.
  intros Hk. induction segs as [|[t | k'] segs IH]; cbn [forallb template_text subst_hole map];
    intros H.
  - reflexivity.
  - apply andb_prop in H as [Ht Hs]. cbn in Ht.
    rewrite scan_text by exact Ht. now rewrite IH.
  - apply andb_prop in H as [Hk' Hs]. cbn in Hk'.
    destruct (String.eqb k' key) eqn:E.
    + apply String.eqb_eq in E. subst k'. rewrite scan_same. cbn [template_text].
      now rewrite IH.
    + apply String.eqb_neq in E. rewrite scan_other by assumption.
      cbn [template_text]. now rewrite IH.
Qed.

Lemma subst_hole_ok (key value : string) (segs : list segment) :
  inert value = true -> forallb segment_ok segs = true ->
  forallb segment_ok (subst_hole key value segs) = true.
Proof.
  intros Hv. induction segs as [|[t | k'] segs IH]; cbn [forallb subst_hole map]; intros H.
  - reflexivity.
  - apply andb_prop in H as [Ht Hs]. rewrite Ht. now apply IH.
  - apply andb_prop in H as [Hk' Hs]. destruct (String.eqb k' key).
    + cbn [segment_ok]. rewrite Hv. now apply IH.
    + rewrite Hk'. now apply IH.
Qed.

Lemma render_no_bindings (segs : list segment) : render_segments [] segs = template_text segs.
Proof.
  induction segs as [|[t | k] segs IH]; cbn; [reflexivity | |]; now rewrite IH.
Qed.

Lemma render_step (key value : string) (rest : list (string * string)) (segs : list segment) :
  render_segments ((key, value) :: rest) segs
  = render_segments rest (subst_hole key value segs).
Proof.
  induction segs as [|[t | k] segs IH]; cbn [render_segments subst_hole map assoc].
  - reflexivity.
  - now rewrite IH.
  - rewrite String.eqb_sym. destruct (String.eqb k key); cbn [render_segments]; now rewrite IH.
Qed.

Lemma populate_segments (data : list (string * string)) :
  forallb binding_ok data = true ->
  forall segs, forallb segment_ok segs = true ->
  populateTemplate (Some (template_text segs)) data = Ok (Some (render_segments data segs)).
Proof.
  induction data as [|[key value] data IH]; intros Hd segs Hs.
  - cbn. now rewrite render_no_bindings.
  - cbn [forallb] in Hd. apply andb_prop in Hd as [Hb Hd].
    unfold binding_ok in Hb. cbn [fst snd] in Hb.
    apply andb_prop in Hb as [Hb Hdollar]. apply andb_prop in Hb as [Hkey Hinert].
    cbn [populateTemplate]. unfold RegExp_literal. rewrite Hkey. cbn [obind].
    unfold replace_all. rewrite replace_from_plain by exact Hdollar.
    rewrite replace_plain_segments by assumption.
    rewrite IH; [| exact Hd | now apply subst_hole_ok].
    now rewrite render_step.
Qed.

Lemma inert_app (a b : string) : inert a = true -> inert b = true -> inert (a ++ b) = true.
Proof.
  intros Ha Hb. induction a as [|c a IH]; [exact Hb |].
  cbn [inert] in Ha. apply andb_prop in Ha as [Hc Ha].
  cbn [append inert]. rewrite (IH Ha), andb_true_r.
  destruct a as [|d a]; [| exact Hc].
  cbn in Hc. rewrite andb_true_r in Hc. apply negb_true_iff in Hc. now rewrite Hc.
Qed.

Lemma inert_no_token (s : string) : inert s = true -> includes "{{" s = false.
Proof.
  induction s as [|c s IH]; [reflexivity |].
  intros H. cbn [inert] in H. apply andb_prop in H as [Hc Hs].
  cbn [includes]. rewrite (IH Hs).
  cbn [starts_with]. destruct s as [|d s].
  - now rewrite andb_false_r.
  - unfold is_open in Hc. rewrite (Ascii.eqb_sym "{" c), (Ascii.eqb_sym "{" d), andb_true_r.
    apply negb_true_iff in Hc. now rewrite Hc.
Qed.

Lemma inert_spec (s : string) :
  inert s = negb (includes "{{" s) && negb (ends_with_open s).
Proof.
  induction s as [|c s IH]; [reflexivity |].
  change (inert (String c s))
    with (negb (is_open c && match s with
                             | EmptyString => true
                             | String d _ => is_open d
                             end) && inert s).
  change (ends_with_open (String c s))
    with (match s with EmptyString => is_open c | String _ _ => ends_with_open s end).
  change (includes "{{" (String c s))
    with (if starts_with "{{" (String c s) then true else includes "{{" s).
  rewrite IH. destruct s as [|d s]; cbn [starts_with]; unfold is_open;
    rewrite ?(Ascii.eqb_sym "{" c), ?(Ascii.eqb_sym "{" d).
  - destruct (Ascii.eqb c "{"); reflexivity.
  - destruct (Ascii.eqb c "{"), (Ascii.eqb d "{"), (includes "{{" (String d s)),
      (ends_with_open (String d s)); reflexivity.
Qed.

Lemma assoc_binding_ok (data : list (string * string)) (key value : string) :
  forallb binding_ok data = true -> assoc key data = Some value -> inert value = true.
Proof.
  induction data as [|[k v] data IH]; cbn [forallb assoc]; [discriminate |].
  intros H. apply andb_prop in H as [Hb Hd]. destruct (String.eqb k key).
  - intros E. injection E as <-. unfold binding_ok in Hb. cbn [fst snd] in Hb.
    apply andb_prop in Hb as [Hb _]. now apply andb_prop in Hb as [_ Hb].
  - now apply IH.
Qed.

Lemma render_inert (data : list (string * string)) (segs : list segment) :
  forallb binding_ok data = true -> forallb segment_ok segs = true ->
  forallb (hole_bound data) segs = true ->
  inert (render_segments data segs) = true.
Proof.
  intros Hd. induction segs as [|[t | k] segs IH]; cbn [forallb render_segments];
    intros Hs Hb; [reflexivity | |];
    apply andb_prop in Hs as [H1 Hs]; apply andb_prop in Hb as [H2 Hb].
  - apply inert_app; [exact H1 | now apply IH].
  - cbn [hole_bound] in H2. destruct (assoc k data) as [v|] eqn:E; [| discriminate].
    apply inert_app; [now apply (assoc_binding_ok data k) | now apply IH].
Qed.

(** C8 as stated fails.  A bound value is scanned again for the later names;
    a value with [$&] puts the placeholder back; [$$] is rendered as one
    dollar; and a template whose only placeholder is bound can render to
    text that still holds a placeholder. *)
Lemma render_is_not_plain_substitution :
  populateTemplate (Some "{{a}} {{b}}") [("a", "{{b}}"); ("b", "x")] = Ok (Some "x x")
  /\ populateTemplate (Some "{{a}}") [("a", "$&")] = Ok (Some "{{a}}")
  /\ populateTemplate (Some "{{functionName}}") [("functionName", "$$")] = Ok (Some "$")
  /\ populateTemplate (Some "{{a}}") [("a", "{{a}}")] = Ok (Some "{{a}}")
  /\ includes "{{" "{{a}}" = true.
Proof. repeat split; vm_compute; reflexivity. Qed.

(** C8, amended.  Take a template made of literal text and placeholders with
    identifier-like names, and bindings with identifier-like names, where
    the literal text and the bound values contain no [{{] and do not end in
    [{], and the values contain no [$].  Then [populateTemplate] replaces
    every placeholder that has a binding with the bound text and leaves the
    others as they are; when every placeholder has a binding the result
    contains no [{{] at all. *)
Theorem render_well_formed (segs : list segment) (data : list (string * string))
    (Hsegs : forallb segment_ok segs = true) (Hdata : forallb binding_ok data = true) :
  populateTemplate (Some (template_text segs)) data = Ok (Some (render_segments data segs))
  /\ (forallb (hole_bound data) segs = true ->
      includes "{{" (render_segments data segs) = false).
Proof.
  split; [now apply populate_segments |].
  intros Hb. apply inert_no_token. now apply render_inert.
Qed.

Example unit_segments_text : template_text unit_segments = default_unit_template.
Proof. vm_compute. reflexivity. Qed.

Lemma render_well_formed_witness :
  populateTemplate (Some default_unit_template) add_bindings
    = Ok (Some (render_segments add_bindings unit_segments))
  /\ includes "{{" (render_segments add_bindings unit_segments) = false.
Proof.
  destruct (render_well_formed unit_segments add_bindings eq_refl eq_refl) as [H1 H2].
  split; [exact H1 | apply H2; reflexivity].
Defined.

Example unbound_placeholder_stays :
  populateTemplate (Some default_edge_case_template) [("functionName", "add")]
  = Ok (Some ("describe(" ++ DQ ++ "add - Edge Cases" ++ DQ ++ ", () => {
  test(" ++ DQ ++ "should handle {{edgeCase}}" ++ DQ ++ ", () => {
    expect(() => add({{inputData}})).{{expectation}};
  });
});")).
Proof. vm_compute. reflexivity. Qed.

Example populate_without_template :
  populateTemplate None [("functionName", "add")] = Throw (cannot_read "replace").
Proof. reflexivity. Qed.

(** ** Text that survives a replacement *)

Lemma includes_app_r (sub x y : string) :
  includes sub y = true -> includes sub (x ++ y) = true.
Proof.
  intros H. induction x as [|c x IH]; cbn [append]; [exact H | now apply includes_cons].
Qed.

Lemma replace_from_skip (pat value before : string) (k : nat) (c : ascii) (r : string) :
  replace_from pat value before (S k) (String c r)
  = replace_from pat value (before ++ String c "") k r.
Proof. reflexivity. Qed.

Lemma replace_from_match (pat value before : string) (c : ascii) (r : string) :
  starts_with pat (String c r) = true ->
  replace_from pat value before 0 (String c r)
  = GetSubstitution pat before (drop (String.length pat) (String c r)) value
      ++ replace_from pat value (before ++ String c "") (String.length pat - 1) r.
Proof. intros H. cbn [replace_from]. now rewrite H. Qed.

Lemma replace_from_pass (pat value before : string) (c : ascii) (r : string) :
  starts_with pat (String c r) = false ->
  replace_from pat value before 0 (String c r)
  = String c (replace_from pat value (before ++ String c "") 0 r).
Proof. intros H. cbn [replace_from]. now rewrite H. Qed.

Section Keeps.
(** A pattern and a needle that cannot overlap: the first character of
    each does not occur in the other. *)
Variables (p0 n0 : ascii) (pt nt value : string).
Let pat := String p0 pt.
Let needle := String n0 nt.
Hypothesis needle_head : all_chars (fun c => negb (Ascii.eqb c n0)) pat = true.
Hypothesis pat_head : all_chars (fun c => negb (Ascii.eqb c p0)) needle = true.

Lemma needle_passes (part : string) :
  all_chars (fun c => negb (Ascii.eqb c p0)) part = true ->
  forall s before,
    starts_with part s = true ->
    starts_with part (replace_from pat value before 0 s) = true.
Proof.
  induction part as [|n part IH]; intros Hno s before H; [reflexivity |].
  destruct s as [|c r]; [discriminate H |].
  cbn [starts_with] in H. apply andb_prop in H as [Hnc Hr].
  cbn [all_chars] in Hno. apply andb_prop in Hno as [Hn Hno].
  apply Ascii.eqb_eq in Hnc. subst c.
  rewrite replace_from_pass.
  - cbn [starts_with]. rewrite Ascii.eqb_refl. cbn [andb]. now apply IH.
  - unfold pat. cbn [starts_with]. apply negb_true_iff in Hn.
    now rewrite Ascii.eqb_sym, Hn.
Qed.

Lemma needle_after_match (q s : string) :
  all_chars (fun c => negb (Ascii.eqb c n0)) q = true ->
  starts_with q s = true -> includes needle s = true ->
  includes needle (drop (String.length q) s) = true.
Proof.
  revert s. induction q as [|p q IH]; intros s Hq Hs Hi.
  - destruct s; exact Hi.
  - destruct s as [|c r]; [discriminate Hs |].
    cbn [starts_with] in Hs. apply andb_prop in Hs as [Hpc Hs].
    cbn [all_chars] in Hq. apply andb_prop in Hq as [Hp Hq].
    apply Ascii.eqb_eq in Hpc. subst c.
    cbn [String.length drop]. apply IH; [exact Hq | exact Hs |].
    apply includes_inv in Hi. destruct Hi as [Hi | (c' & r' & E & Hi)].
    + unfold needle in Hi. cbn [starts_with] in Hi. apply andb_prop in Hi as [Hi _].
      apply negb_true_iff in Hp. rewrite Ascii.eqb_sym, Hp in Hi. discriminate Hi.
    + injection E as -> ->. exact Hi.
Qed.

Lemma replace_from_keeps (s : string) :
  forall before skip,
    includes needle (drop skip s) = true ->
    includes needle (replace_from pat value before skip s) = true.
Proof.
  induction s as [|c r IH]; intros before skip H.
  - destruct skip; discriminate H.
  - destruct skip as [|k].
    + cbn [drop] in H.
      destruct (starts_with pat (String c r)) eqn:Em.
      * rewrite replace_from_match by exact Em. apply includes_app_r. apply IH.
        pose proof (needle_after_match pat (String c r) needle_head Em H) as Hd.
        replace (String.length pat - 1) with (String.length pt)
          by (unfold pat; cbn [String.length]; lia).
        exact Hd.
      * apply includes_inv in H. destruct H as [H | (c' & r' & E & H)].
        -- apply includes_prefix. apply needle_passes; [exact pat_head | exact H].
        -- injection E as -> ->. rewrite replace_from_pass by exact Em.
           apply includes_cons. apply IH. destruct r'; exact H.
    + rewrite replace_from_skip. apply IH. exact H.
Qed.
End Keeps.

Lemma replace_all_keeps (pat needle value s : string) (p0 n0 : ascii) (pt nt : string) :
  pat = String p0 pt -> needle = String n0 nt ->
  all_chars (fun c => negb (Ascii.eqb c n0)) pat = true ->
  all_chars (fun c => negb (Ascii.eqb c p0)) needle = true ->
  includes needle s = true -> includes needle (replace_all pat value s) = true.
Proof.
  intros -> -> Hn Hp H. unfold replace_all. apply replace_from_keeps; assumption.
Qed.

(** ** The world monad *)

Lemma bind_ok {A B} (m : M A) (k : A -> M B) (w : world) (c c' : counters) (b : B) :
  bind m k w c = Ok (b, c') ->
  exists a c1, m w c = Ok (a, c1) /\ k a w c1 = Ok (b, c').
Proof.
  unfold bind. destruct (m w c) as [[a c1] | e |]; try discriminate.
  intros H. now exists a, c1.
Qed.

Lemma ensures_bind {A B} (w : world) (m : M A) (k : A -> M B) (P : A -> Prop) (Q : B -> Prop) :
  ensures w m P -> (forall a, P a -> ensures w (k a) Q) -> ensures w (bind m k) Q.
Proof.
  intros Hm Hk c b c' H. apply bind_ok in H as (a & c1 & H1 & H2).
  exact (Hk a (Hm _ _ _ H1) _ _ _ H2).
Qed.

Lemma ensures_ret {A} (w : world) (a : A) (Q : A -> Prop) : Q a -> ensures w (ret a) Q.
Proof. intros H c x c' E. injection E as <- _. exact H. Qed.

Lemma ensures_true {A} (w : world) (m : M A) : ensures w m (fun _ => True).
Proof. intros c a c' _. exact I. Qed.

Lemma yields_bind {A B} (w : world) (m : M A) (k : A -> M B) (P : A -> Prop) (Q : B -> Prop) :
  yields w m P -> (forall a, P a -> yields w (k a) Q) -> yields w (bind m k) Q.
Proof.
  intros Hm Hk c. destruct (Hm c) as (a & c1 & E & Ha).
  destruct (Hk a Ha c1) as (b & c2 & E2 & Hb).
  exists b, c2. split; [| exact Hb]. unfold bind. now rewrite E.
Qed.

Lemma yields_ensures {A} (w : world) (m : M A) (P Q : A -> Prop) :
  yields w m Q -> ensures w m P -> yields w m P.
Proof.
  intros Hy He c. destruct (Hy c) as (a & c' & E & _). exists a, c'.
  split; [exact E | exact (He _ _ _ E)].
Qed.

Lemma yields_ret {A} (w : world) (a : A) (Q : A -> Prop) : Q a -> yields w (ret a) Q.
Proof. intros H c. now exists a, c. Qed.

Lemma yields_lift {A} (w : world) (o : outcome A) (a : A) (Q : A -> Prop) :
  o = Ok a -> Q a -> yields w (lift o) Q.
Proof. intros -> H c. now exists a, c. Qed.

Lemma getTestTemplates_unit (w : world) (c c' : counters) (templates : gmap string string) :
  getTestTemplates w c = Ok (templates, c') ->
  templates !! "unit" = unit_template w (queries c).
Proof.
  unfold getTestTemplates, bind, query_templates, ret. intros H. injection H as <- _.
  reflexivity.
Qed.

(** ** The synthesizer returns *)

Lemma generateInputData_from_ok (params : list ParamInfo) :
  forallb param_named params = true ->
  forall i acc, exists o, generateInputData_from params i acc = Ok o.
Proof.
  induction params as [|param rest IH]; intros Hn i acc; cbn [generateInputData_from].
  - now exists acc.
  - cbn [forallb] in Hn. apply andb_prop in Hn as [Hp Hr]. unfold param_named in Hp.
    destruct (p_name param) as [name|] eqn:En; [| discriminate].
    destruct (String.eqb (p_type param) "identifier");
      [rewrite generateSampleValueByName_table; cbn [obind]; now apply IH |].
    destruct (String.eqb (p_type param) "default"); [cbn [obind]; now apply IH |].
    destruct (String.eqb (p_type param) "rest"); cbn [obind]; now apply IH.
Qed.

Lemma generateInputData_ok (params : list ParamInfo) :
  forallb param_named params = true -> exists o, generateInputData params = Ok o.
Proof. intros H. now apply generateInputData_from_ok. Qed.

Lemma generateExpectedOutput_ok (func : FunctionInfo) (isAsync : bool) :
  named func = true -> exists v, generateExpectedOutput func isAsync = Ok v.
Proof.
  unfold named, generateExpectedOutput. destruct (f_name func); [| discriminate].
  intros _. cbn [toLowerCase obind]. eexists. reflexivity.
Qed.

Lemma generateHighQualityValue_ok (now : Z) (name : string) :
  exists v, generateHighQualityValue now (Some name) = Ok v.
Proof.
  unfold generateHighQualityValue. cbn [toLowerCase obind].
  repeat match goal with
         | |- exists v, (if ?b then _ else _) = Ok v => destruct b; [eexists; reflexivity |]
         end.
  eexists. reflexivity.
Qed.

Lemma populate_some (data : list (string * string)) :
  forallb (fun kv => plain_key (fst kv)) data = true ->
  forall t, exists r, populateTemplate (Some t) data = Ok (Some r).
Proof.
  induction data as [|[k v] data IH]; intros Hk t; cbn [populateTemplate].
  - now exists t.
  - cbn [forallb fst] in Hk. apply andb_prop in Hk as [Hk Hd].
    unfold RegExp_literal. rewrite Hk. cbn [obind]. now apply IH.
Qed.

Lemma nth_error_named (params : list ParamInfo) (i : nat) (p : ParamInfo) :
  forallb param_named params = true -> nth_error params i = Some p ->
  exists name, p_name p = Some name.
Proof.
  intros Hn Hi. apply nth_error_In in Hi. rewrite forallb_forall in Hn.
  specialize (Hn p Hi). unfold param_named in Hn.
  destruct (p_name p) as [name|]; [now exists name | discriminate].
Qed.

Section Returns.
Variable w : world.
Hypothesis unit_available : forall n, unit_template w n <> None.
Variable func : FunctionInfo.
Hypothesis func_named : named func = true.

Lemma params_named : forallb param_named (f_params func) = true.
Proof. unfold named in func_named. now apply andb_prop in func_named as [_ H]. Qed.

Lemma generateTestCode_yields (testType : string) (i : nat) :
  (String.eqb testType "invalid_param" = true -> i < List.length (f_params func)) ->
  yields w (generateTestCode func testType i) (fun _ => True).
Proof.
  intros Hi. unfold generateTestCode.
  eapply yields_bind with (P := fun t => t !! "unit" <> None).
  { intros c. eexists _, _. split; [reflexivity |]. apply unit_available. }
  intros templates Hu.
  destruct (generateInputData_ok _ params_named) as (inputData & Ein).
  destruct (String.eqb testType "basic").
  { eapply yields_bind; [eapply yields_lift; [exact Ein | exact I] |]. intros d _.
    destruct (templates !! "unit") as [t|]; [| congruence].
    match goal with
    | |- yields _ (lift (populateTemplate _ ?data)) _ =>
        destruct (populate_some data eq_refl t) as (r & Er)
    end.
    eapply yields_lift; [exact Er | exact I]. }
  destruct (String.eqb testType "async").
  { eapply yields_bind; [eapply yields_lift; [exact Ein | exact I] |]. intros d _.
    now apply yields_ret. }
  destruct (String.eqb testType "invalid_param").
  { specialize (Hi eq_refl). apply nth_error_Some in Hi.
    destruct (nth_error (f_params func) i) as [p|] eqn:Ep; [| congruence].
    eapply yields_bind with (P := fun _ => True).
    - eapply yields_lift; [| exact I]. unfold param_at. now rewrite Ep.
    - intros p' _. now apply yields_ret. }
  now apply yields_ret.
Qed.

Lemma generateValidParamData_yields (i : nat) :
  i < List.length (f_params func) ->
  yields w (generateValidParamData (f_params func) i) (fun _ => True).
Proof.
  intros Hi. unfold generateValidParamData.
  destruct (generateInputData_ok _ params_named) as (inputData & Ein).
  apply nth_error_Some in Hi.
  destruct (nth_error (f_params func) i) as [p|] eqn:Ep; [| congruence].
  destruct (nth_error_named _ _ _ params_named Ep) as (name & En).
  eapply yields_bind; [eapply yields_lift; [exact Ein | exact I] |]. intros d _.
  eapply yields_bind with (P := fun q => q = p).
  { eapply yields_lift; [| reflexivity]. unfold param_at. now rewrite Ep. }
  intros q ->.
  eapply yields_bind with (P := fun _ => True).
  { intros c. eexists _, _. split; [reflexivity | exact I]. }
  intros now _. rewrite En.
  destruct (generateHighQualityValue_ok now name) as (v & Ev).
  eapply yields_bind; [eapply yields_lift; [exact Ev | exact I] |]. intros v' _.
  now apply yields_ret.
Qed.

Lemma generateInvalidParamData_ok (i : nat) :
  i < List.length (f_params func) ->
  exists o, generateInvalidParamData (f_params func) i = Ok o.
Proof.
  intros Hi. unfold generateInvalidParamData.
  destruct (generateInputData_ok _ params_named) as (inputData & Ein).
  apply nth_error_Some in Hi.
  destruct (nth_error (f_params func) i) as [p|] eqn:Ep; [| congruence].
  rewrite Ein. cbn [obind]. unfold param_at. rewrite Ep. cbn [obind].
  eexists. reflexivity.
Qed.

Lemma generateNullParamData_yields (params : list ParamInfo) :
  forall acc, yields w (generateNullParamData_from params acc) (fun _ => True).
Proof.
  induction params as [|param rest IH]; intros acc; cbn [generateNullParamData_from].
  - now apply yields_ret.
  - eapply yields_bind with (P := fun _ => True).
    { intros c. eexists _, _. split; [reflexivity | exact I]. }
    intros above _. apply IH.
Qed.

Lemma param_tests_yields (analysisId : jsval) (remaining : list ParamInfo) :
  forall i,
    i + List.length remaining = List.length (f_params func) ->
    yields w (param_tests func analysisId remaining i)
      (fun tests => List.length tests = 2 * List.length remaining
                    /\ Forall (descriptor_ok (f_name func)) tests).
Proof.
  induction remaining as [|param rest IH]; intros i Hlen; cbn [param_tests].
  - apply yields_ret. split; [reflexivity | constructor].
  - cbn [List.length] in Hlen.
    eapply yields_bind; [apply generateValidParamData_yields; lia | intros vi _].
    destruct (generateExpectedOutput_ok func false func_named) as (ve & Eve).
    eapply yields_bind; [eapply yields_lift; [exact Eve | exact I] | intros ve' _].
    eapply yields_bind; [apply generateTestCode_yields; discriminate | intros vc _].
    cbv zeta.
    destruct (generateInvalidParamData_ok i ltac:(lia)) as (ii & Eii).
    eapply yields_bind; [eapply yields_lift; [exact Eii | exact I] | intros ii' _].
    eapply yields_bind; [apply generateTestCode_yields; intros _; lia | intros ic _].
    eapply yields_bind; [apply (IH (S i)); lia | intros more [Hl Hf]].
    apply yields_ret. split.
    + cbn [List.length]. lia.
    + constructor; [split; [reflexivity | now left] |].
      constructor; [split; [reflexivity | right; now left] | exact Hf].
Qed.

Lemma generateFunctionTests_yields (analysisId : jsval) :
  yields w (generateFunctionTests func analysisId)
    (fun tests => List.length tests = function_count func
                  /\ Forall (descriptor_ok (f_name func)) tests).
Proof.
  unfold generateFunctionTests.
  destruct (generateInputData_ok _ params_named) as (inputData & Ein).
  eapply yields_bind; [eapply yields_lift; [exact Ein | exact I] | intros bi _].
  destruct (generateExpectedOutput_ok func false func_named) as (ve & Eve).
  eapply yields_bind; [eapply yields_lift; [exact Eve | exact I] | intros be _].
  eapply yields_bind; [apply generateTestCode_yields; discriminate | intros bc _].
  cbv zeta.
  eapply yields_bind; [apply param_tests_yields; reflexivity | intros per [Hpl Hpf]].
  eapply yields_bind with
    (P := fun tests =>
            List.length tests = (if (0 <? List.length (f_params func))%nat then 1 else 0)
            /\ Forall (descriptor_ok (f_name func)) tests).
  { destruct (0 <? List.length (f_params func))%nat.
    - eapply yields_bind; [apply generateNullParamData_yields | intros ni _].
      eapply yields_bind; [apply generateTestCode_yields; discriminate | intros nc _].
      apply yields_ret. split; [reflexivity |].
      constructor; [split; [reflexivity | right; now right] | constructor].
    - apply yields_ret. split; [reflexivity | constructor]. }
  intros nullTests [Hnl Hnf].
  eapply yields_bind with
    (P := fun tests =>
            List.length tests = (if f_async func then 1 else 0)
            /\ Forall (descriptor_ok (f_name func)) tests).
  { destruct (f_async func).
    - eapply yields_bind; [eapply yields_lift; [exact Ein | exact I] | intros ai _].
      destruct (generateExpectedOutput_ok func true func_named) as (ae & Eae).
      eapply yields_bind; [eapply yields_lift; [exact Eae | exact I] | intros ae' _].
      eapply yields_bind; [apply generateTestCode_yields; discriminate | intros ac _].
      apply yields_ret. split; [reflexivity |].
      constructor; [split; [reflexivity | now left] | constructor].
    - apply yields_ret. split; [reflexivity | constructor]. }
  intros asyncTests [Hal Haf].
  apply yields_ret. split.
  - cbn [List.length]. rewrite !length_app. unfold function_count. lia.
  - constructor; [split; [reflexivity | now left] |].
    apply Forall_app. split; [assumption |]. apply Forall_app. now split.
Qed.
End Returns.

Lemma owners_repeat (owner : option string) (tests : list TestCase) :
  Forall (descriptor_ok owner) tests ->
  map function_name tests = repeat owner (List.length tests)
  /\ Forall kind_ok tests.
Proof.
  induction 1 as [|t tests [Ho Hk] _ [IH1 IH2]]; [split; [reflexivity | constructor] |].
  cbn [map List.length repeat]. rewrite Ho, IH1. split; [reflexivity |].
  constructor; assumption.
Qed.

Lemma all_function_tests_yields (w : world) (analysisId : jsval) (funcs : list FunctionInfo) :
  (forall n, unit_template w n <> None) ->
  forallb named funcs = true ->
  yields w (all_function_tests funcs analysisId)
    (fun tests =>
       map function_name tests
       = concat (map (fun f => repeat (f_name f) (function_count f)) funcs)
       /\ Forall kind_ok tests).
Proof.
  intros Hu. induction funcs as [|func rest IH]; intros Hn; cbn [all_function_tests].
  - apply yields_ret. split; [reflexivity | constructor].
  - cbn [forallb] in Hn. apply andb_prop in Hn as [Hf Hr].
    eapply yields_bind; [now apply generateFunctionTests_yields | intros tests [Hl Hd]].
    eapply yields_bind; [now apply IH | intros more [Hm Hk]].
    apply yields_ret. apply owners_repeat in Hd as [Ho Hk'].
    split.
    + cbn [map concat]. rewrite map_app, Ho, Hl, Hm. reflexivity.
    + apply Forall_app. now split.
Qed.

Lemma method_tests_owners (cls : ClassInfo) (analysisId : jsval) (methods : list MethodInfo) :
  map function_name (method_tests cls analysisId methods)
  = map (fun m => Some (show_name (c_name cls) ++ "." ++ m_name m))
      (List.filter (fun m => negb (is_constructor m)) methods)
  /\ Forall kind_ok (method_tests cls analysisId methods).
Proof.
  induction methods as [|m rest [IH1 IH2]]; [split; [reflexivity | constructor] |].
  cbn [method_tests List.filter]. destruct (is_constructor m); cbn [negb]; [now split |].
  cbn [map function_name]. rewrite IH1. split; [reflexivity |].
  constructor; [now left | exact IH2].
Qed.

Lemma class_tests_owners (analysisId : jsval) (clss : list ClassInfo) :
  map function_name (concat (map (fun cls => generateClassTests cls analysisId) clss))
  = concat (map (fun cls =>
                   c_name cls
                   :: map (fun m => Some (show_name (c_name cls) ++ "." ++ m_name m))
                        (tested_methods cls)) clss)
  /\ Forall kind_ok (concat (map (fun cls => generateClassTests cls analysisId) clss)).
Proof.
  induction clss as [|cls rest [IH1 IH2]]; [split; [reflexivity | constructor] |].
  cbn [map concat]. rewrite map_app, IH1.
  destruct (method_tests_owners cls analysisId (c_methods cls)) as [Hm Hk].
  unfold generateClassTests at 1. cbn [map function_name]. rewrite Hm. split; [reflexivity |].
  apply Forall_app. split; [| exact IH2].
  unfold generateClassTests. constructor; [now left | exact Hk].
Qed.

Lemma conditional_tests_owners (analysisId : jsval) (conds : list ConditionalInfo) :
  forall i,
    map function_name (generateConditionalTests_from conds analysisId i)
    = concat (map (fun j => [Some ("conditional_" ++ show_nat j);
                             Some ("conditional_" ++ show_nat j)])
                (seq i (List.length conds)))
    /\ Forall kind_ok (generateConditionalTests_from conds analysisId i).
Proof.
  induction conds as [|cond rest IH]; intros i; [split; [reflexivity | constructor] |].
  destruct (IH (S i)) as [IH1 IH2].
  cbn [generateConditionalTests_from map function_name List.length seq concat].
  rewrite IH1. split; [reflexivity |].
  constructor; [now left |]. constructor; [now left | exact IH2].
Qed.

Lemma loop_tests_owners (analysisId : jsval) (ls : list LoopInfo) :
  forall i,
    map function_name (generateLoopTests_from ls analysisId i)
    = concat (map (fun j => [Some ("loop_" ++ show_nat j); Some ("loop_" ++ show_nat j)])
                (seq i (List.length ls)))
    /\ Forall kind_ok (generateLoopTests_from ls analysisId i).
Proof.
  induction ls as [|l rest IH]; intros i; [split; [reflexivity | constructor] |].
  destruct (IH (S i)) as [IH1 IH2].
  cbn [generateLoopTests_from map function_name List.length seq concat].
  rewrite IH1. split; [reflexivity |].
  constructor; [now left |]. constructor; [right; now left | exact IH2].
Qed.

Lemma length_twice_from (prefix : string) (n : nat) :
  forall i,
    List.length
      (concat (map (fun j => [Some (prefix ++ show_nat j); Some (prefix ++ show_nat j)])
                 (seq i n))) = 2 * n.
Proof.
  induction n as [|n IH]; intros i; [reflexivity |].
  cbn [seq map concat]. rewrite length_app, IH. cbn [List.length]. lia.
Qed.

Lemma length_twice_each (prefix : string) (n : nat) :
  List.length (twice_each prefix n) = 2 * n.
Proof. apply length_twice_from. Qed.

Lemma length_expected_owners (a : Analysis) :
  List.length (expected_owners a) = expected_count a.
Proof.
  unfold expected_owners, expected_count.
  rewrite !length_app, !length_twice_each.
  assert (Hf : forall fs : list FunctionInfo,
             List.length (concat (map (fun f => repeat (f_name f) (function_count f)) fs))
             = list_sum (map function_count fs)).
  { induction fs as [|f fs IH]; [reflexivity |].
    cbn [map concat list_sum]. now rewrite length_app, repeat_length, IH. }
  assert (Hc : forall cs : list ClassInfo,
             List.length
               (concat (map (fun cls =>
                               c_name cls
                               :: map (fun m => Some (show_name (c_name cls) ++ "."
                                                        ++ m_name m))
                                    (tested_methods cls)) cs))
             = list_sum (map class_count cs)).
  { induction cs as [|c cs IH]; [reflexivity |].
    cbn [map concat list_sum]. rewrite length_app, IH. unfold class_count.
    cbn [List.length]. now rewrite length_map. }
  rewrite Hf, Hc. lia.
Qed.

(** X28.  The synthesis cardinality of the specification, where it holds:
    when every query for templates either is rejected or returns a unit
    template, and the names of the functions and of their parameters are
    text, the synthesizer returns, with the descriptors of the
    specification's formula in inventory order, each of kind unit, edge_case
    or negative. *)
Lemma synthesis_cardinality (w : world) (analysis : Analysis) (analysisId : jsval) :
  (forall n, unit_template w n <> None) ->
  forallb named (functions analysis) = true ->
  yields w (generateTestCases analysis analysisId)
    (fun tests =>
       List.length tests = expected_count analysis
       /\ map function_name tests = expected_owners analysis
       /\ Forall kind_ok tests).
Proof.
  intros Hu Hn c.
  destruct (all_function_tests_yields w analysisId (functions analysis) Hu Hn c)
    as (ftests & c' & E & Ho & Hk).
  destruct (class_tests_owners analysisId (classes analysis)) as [Hc1 Hc2].
  destruct (conditional_tests_owners analysisId (conditionals analysis) 0) as [Hd1 Hd2].
  destruct (loop_tests_owners analysisId (loops analysis) 0) as [Hl1 Hl2].
  eexists _, c'. split.
  - unfold generateTestCases, bind. rewrite E. cbn [rethrow ret]. reflexivity.
  - assert (Hown : map function_name
                     (ftests
                      ++ concat (map (fun cls => generateClassTests cls analysisId)
                                   (classes analysis))
                      ++ generateConditionalTests (conditionals analysis) analysisId
                      ++ generateLoopTests (loops analysis) analysisId)%list
                   = expected_owners analysis).
    { rewrite !map_app, Ho, Hc1. unfold generateConditionalTests, generateLoopTests.
      rewrite Hd1, Hl1. reflexivity. }
    split; [| split].
    + rewrite <- length_expected_owners, <- Hown. now rewrite length_map.
    + exact Hown.
    + repeat (apply Forall_app; split); assumption.
Qed.

Example scenario_add_recorded :
  extractFunctionInfo add_node (initial_analysis []) "declaration"
  = Ok (push_function add_info (initial_analysis [])).
Proof. reflexivity. Qed.

(** Scenario A: six descriptors for [add], in the order basic, valid and
    invalid for each parameter, null parameters. *)
Example scenario_add_descriptors :
  match generateTestCases (analysis_of [add_info]) VNull offline_world start with
  | Ok (tests, _) => Some (map test_type tests)
  | _ => None
  end = Some ["unit"; "unit"; "edge_case"; "unit"; "edge_case"; "negative"]
  /\ expected_count (analysis_of [add_info]) = 6.
Proof. split; vm_compute; reflexivity. Qed.

Example scenario_class_descriptors :
  let cls := {| c_name := Some "Stack"; c_superClass := VNull;
                c_methods := [ {| m_name := "constructor"; m_kind := Some "constructor";
                                  m_static := false; m_async := false |};
                               {| m_name := "push"; m_kind := Some "method";
                                  m_static := false; m_async := false |};
                               {| m_name := "pop"; m_kind := Some "method";
                                  m_static := false; m_async := false |} ];
                c_properties := []; c_line := Some 1 |} in
  map function_name (generateClassTests cls VNull)
  = [Some "Stack"; Some "Stack.push"; Some "Stack.pop"].
Proof. reflexivity. Qed.

(** ** Anonymous functions *)

Ltac keep_needle :=
  match goal with
  | |- includes ?N (replace_all ?P ?v ?s) = true =>
      let Pn := eval cbv in P in
      let Nn := eval cbv in N in
      match Pn with
      | String ?p0 ?pt =>
          match Nn with
          | String ?n0 ?nt =>
              apply (replace_all_keeps P N v s p0 n0 pt nt);
              [reflexivity | reflexivity | reflexivity | reflexivity | ]
          end
      end
  end.

Ltac find_needle :=
  repeat first [ apply includes_prefix; reflexivity | apply includes_app_r ].

Lemma basic_code_built_in (func : FunctionInfo) (inputData : list (string * jsval)) :
  f_name func = Some "<anonymous>" ->
  exists code,
    populateTemplate (Some default_unit_template) (basic_bindings func inputData)
      = Ok (Some code)
    /\ calls "<anonymous>" code = true.
Proof.
  intros anonymous.
  unfold basic_bindings, calls. rewrite anonymous. cbn [show_name populateTemplate].
  unfold RegExp_literal.
  repeat match goal with
         | |- context [plain_key ?k] => change (plain_key k) with true
         end.
  cbn [obind]. eexists. split; [reflexivity |].
  do 4 keep_needle; vm_compute; reflexivity.
Qed.

Lemma basic_code_seeded (func : FunctionInfo) (inputData : list (string * jsval)) :
  f_name func = Some "<anonymous>" ->
  exists code,
    populateTemplate (Some seeded_unit_template) (basic_bindings func inputData)
      = Ok (Some code)
    /\ calls "<anonymous>" code = true.
Proof.
  intros anonymous.
  unfold basic_bindings, calls. rewrite anonymous. cbn [show_name populateTemplate].
  unfold RegExp_literal.
  repeat match goal with
         | |- context [plain_key ?k] => change (plain_key k) with true
         end.
  cbn [obind]. eexists. split; [reflexivity |].
  do 4 keep_needle; vm_compute; reflexivity.
Qed.

Lemma generateTestCode_calls (func : FunctionInfo) (testType : string) (i : nat)
    (w : world) :
  f_name func = Some "<anonymous>" -> known_unit_template w ->
  testType = "basic" \/ testType = "async" \/ testType = "invalid_param" ->
  ensures w (generateTestCode func testType i) (calling_code "<anonymous>").
Proof.
  intros Hname Hdb Htype c rendered c' H. unfold generateTestCode in H.
  apply bind_ok in H as (templates & c1 & Ht & H).
  apply getTestTemplates_unit in Ht.
  destruct Htype as [-> | [-> | ->]]; cbn [String.eqb Ascii.eqb Bool.eqb] in H.
  - apply bind_ok in H as (inputData & c2 & _ & H).
    unfold lift in H.
    change (populateTemplate (templates !! "unit") _)
      with (populateTemplate (templates !! "unit") (basic_bindings func inputData)) in H.
    rewrite Ht in H.
    destruct (Hdb (queries c)) as [E | E]; rewrite E in H.
    + destruct (basic_code_built_in func inputData Hname) as (code & Ec & Hc).
      rewrite Ec in H. cbn [obind] in H. injection H as <- _.
      exists code. split; [reflexivity | exact Hc].
    + destruct (basic_code_seeded func inputData Hname) as (code & Ec & Hc).
      rewrite Ec in H. cbn [obind] in H. injection H as <- _.
      exists code. split; [reflexivity | exact Hc].
  - apply bind_ok in H as (inputData & c2 & _ & H). injection H as <- _.
    eexists. split; [reflexivity |]. unfold calls, async_code. rewrite Hname.
    cbn [show_name]. find_needle.
  - apply bind_ok in H as (param & c2 & _ & H). injection H as <- _.
    eexists. split; [reflexivity |]. unfold calls, invalid_param_code. rewrite Hname.
    cbn [show_name]. find_needle.
Qed.

Lemma generateTestCode_comment (func : FunctionInfo) (testType : string) (i : nat)
    (w : world) :
  f_name func = Some "<anonymous>" ->
  testType = "valid_param" \/ testType = "null_params" ->
  ensures w (generateTestCode func testType i)
    (fun rendered =>
       rendered = Some ("// Código de teste para <anonymous> - " ++ testType)).
Proof.
  intros Hname Htype c rendered c' H. unfold generateTestCode in H.
  apply bind_ok in H as (templates & c1 & _ & H).
  destruct Htype as [-> | ->]; cbn [String.eqb Ascii.eqb Bool.eqb] in H;
    injection H as <- _; unfold stub_code; rewrite Hname; reflexivity.
Qed.

Lemma param_tests_anonymous (func : FunctionInfo) (analysisId : jsval) (w : world)
    (remaining : list ParamInfo) :
  f_name func = Some "<anonymous>" -> known_unit_template w ->
  forall i, ensures w (param_tests func analysisId remaining i)
              (Forall2 (code_is "<anonymous>")
                 (concat (map (fun _ => [Comment "valid_param"; Calling]) remaining))).
Proof.
  intros Hname Hdb. induction remaining as [|param rest IH]; intros i; cbn [param_tests].
  - apply ensures_ret. constructor.
  - eapply ensures_bind; [apply ensures_true | intros valid_input _].
    eapply ensures_bind; [apply ensures_true | intros valid_expected _].
    eapply ensures_bind; [apply generateTestCode_comment; [exact Hname | now left] |].
    intros valid_code Hv. cbv zeta.
    eapply ensures_bind; [apply ensures_true | intros invalid_input _].
    eapply ensures_bind; [apply generateTestCode_calls; [exact Hname | exact Hdb | tauto] |].
    intros invalid_code Hi.
    eapply ensures_bind; [apply IH | intros more Hmore].
    apply ensures_ret. cbn [map concat app].
    constructor; [split; [exact Hname | exact Hv] |].
    constructor; [split; [exact Hname | exact Hi] | exact Hmore].
Qed.

Lemma generateFunctionTests_anonymous (func : FunctionInfo) (analysisId : jsval) (w : world) :
  f_name func = Some "<anonymous>" -> known_unit_template w ->
  ensures w (generateFunctionTests func analysisId)
    (Forall2 (code_is "<anonymous>") (expected_code_kinds func)).
Proof.
  intros Hname Hdb. unfold generateFunctionTests, expected_code_kinds.
  eapply ensures_bind; [apply ensures_true | intros basic_input _].
  eapply ensures_bind; [apply ensures_true | intros basic_expected _].
  eapply ensures_bind; [apply generateTestCode_calls; [exact Hname | exact Hdb | tauto] |].
  intros basic_code Hb. cbv zeta.
  eapply ensures_bind; [now apply param_tests_anonymous | intros per_param Hp].
  eapply ensures_bind
    with (P := Forall2 (code_is "<anonymous>")
                 (if (0 <? List.length (f_params func))%nat
                  then [Comment "null_params"] else [])).
  { destruct (0 <? List.length (f_params func))%nat.
    - eapply ensures_bind; [apply ensures_true | intros null_input _].
      eapply ensures_bind; [apply generateTestCode_comment; [exact Hname | now right] |].
      intros null_code Hn.
      apply ensures_ret. constructor; [split; [exact Hname | exact Hn] | constructor].
    - apply ensures_ret. constructor. }
  intros nullTests Hnull.
  eapply ensures_bind
    with (P := Forall2 (code_is "<anonymous>") (if f_async func then [Calling] else [])).
  { destruct (f_async func).
    - eapply ensures_bind; [apply ensures_true | intros async_input _].
      eapply ensures_bind; [apply ensures_true | intros async_expected _].
      eapply ensures_bind;
        [apply generateTestCode_calls; [exact Hname | exact Hdb | tauto] |].
      intros code Hc.
      apply ensures_ret. constructor; [split; [exact Hname | exact Hc] | constructor].
    - apply ensures_ret. constructor. }
  intros asyncTests Hasync.
  apply ensures_ret. constructor; [split; [exact Hname | exact Hb] |].
  apply Forall2_app; [exact Hp |]. apply Forall2_app; assumption.
Qed.

(** C10 as stated fails: the arrow function of
    [const handler = async (userId) => userId;] is recorded as [<anonymous>],
    and the second of its five descriptors, the one for a valid [userId],
    has a one-line comment as its test code, which calls nothing. *)
Lemma anonymous_stub_calls_nothing :
  exists tests c' t,
    extractFunctionInfo arrow_node (initial_analysis []) "arrow"
      = Ok (push_function arrow_info (initial_analysis []))
    /\ generateFunctionTests arrow_info VNull offline_world start = Ok (tests, c')
    /\ List.length tests = 5
    /\ nth_error tests 1 = Some t
    /\ function_name t = Some "<anonymous>"
    /\ test_code t = Some "// Código de teste para <anonymous> - valid_param"
    /\ calls "<anonymous>" "// Código de teste para <anonymous> - valid_param" = false.
Proof.
  destruct (generateFunctionTests arrow_info VNull offline_world start)
    as [[tests c'] | e |] eqn:E; try (vm_compute in E; discriminate E).
  vm_compute in E. injection E as <- <-.
  do 3 eexists. repeat split; reflexivity.
Qed.

(** C10, amended.  A function node without an [id] of its own (every arrow
    function, and every function expression written without a name) is
    recorded under the name [<anonymous>], whatever it is assigned to.  When
    the unit template is the built-in one or the one of the migration
    script, the descriptors synthesized for the recorded function all carry
    that name as their owner; the test code of the basic descriptor, of the
    descriptor for the invalid value of each parameter and of the
    asynchronous descriptor calls [<anonymous>(...)]; the test code of the
    descriptor for the valid value of each parameter and of the descriptor
    for null parameters is a one-line comment that names [<anonymous>].
    The descriptors are emitted, in this order, whenever the names of the
    parameters are text. *)
Theorem anonymous_function_descriptors (path : node) (analysis a' : Analysis)
    (type : string) (Hid : child path "id" = None)
    (Hrec : extractFunctionInfo path analysis type = Ok a') :
  exists fi,
    functions a' = (functions analysis ++ [fi])%list
    /\ f_name fi = Some "<anonymous>"
    /\ forall (w : world) (analysisId : jsval),
         known_unit_template w ->
         ensures w (generateFunctionTests fi analysisId)
           (Forall2 (code_is "<anonymous>") (expected_code_kinds fi))
         /\ (forallb param_named (f_params fi) = true ->
             yields w (generateFunctionTests fi analysisId)
               (Forall2 (code_is "<anonymous>") (expected_code_kinds fi))).
Proof.
  unfold extractFunctionInfo in Hrec. rewrite Hid in Hrec.
  destruct (function_params _) as [params | e |]; cbn [obind] in Hrec; try discriminate.
  destruct (local_traverse path 1) as [lc | e |]; cbn [obind] in Hrec; try discriminate.
  injection Hrec as <-. eexists. split; [reflexivity |]. split; [reflexivity |].
  intros w analysisId Hdb.
  match goal with
  | |- ensures w ?m ?Q /\ _ =>
      assert (He : ensures w m Q) by now apply generateFunctionTests_anonymous
  end.
  split; [exact He |].
  cbn [f_params]. intros Hparams. eapply yields_ensures; [| exact He].
  apply generateFunctionTests_yields.
  - intros n. destruct (Hdb n) as [E | E]; rewrite E; discriminate.
  - unfold named. cbn [f_name f_params]. exact Hparams.
Qed.

Lemma anonymous_function_descriptors_witness :
  exists tests c',
    extractFunctionInfo arrow_node (initial_analysis []) "arrow"
      = Ok (push_function arrow_info (initial_analysis []))
    /\ generateFunctionTests arrow_info VNull seeded_world start = Ok (tests, c')
    /\ Forall2 (code_is "<anonymous>")
         [Calling; Comment "valid_param"; Calling; Comment "null_params"; Calling] tests.
Proof.
  destruct (anonymous_function_descriptors arrow_node (initial_analysis [])
              (push_function arrow_info (initial_analysis [])) "arrow" eq_refl eq_refl)
    as (fi & Hf & _ & Hall).
  cbn in Hf. injection Hf as <-.
  destruct (generateFunctionTests arrow_info VNull seeded_world start)
    as [[tests c'] | e |] eqn:E; try (vm_compute in E; discriminate E).
  exists tests, c'. split; [reflexivity |]. split; [reflexivity |].
  destruct (Hall seeded_world VNull (fun _ => or_intror eq_refl)) as [Hensures _].
  apply (Hensures start tests c' E).
Defined.

(** The declaration [const handler = async (userId) => userId;] under a
    traversal with a receiver: the variable is recorded as [handler], the
    function as [<anonymous>]. *)
Example arrow_assigned_to_variable :
  match traverse_node (Some (new_ASTParser None))
          (Node "Program" (Some 1) [] [("body", handler_declaration)])
          {| w_analysis := initial_analysis []; currentDepth := 0; maxDepth := 0 |} with
  | Ok w => Some (map v_name (variables (w_analysis w)), map f_name (functions (w_analysis w)))
  | _ => None
  end = Some ([Some "handler"], [Some "<anonymous>"]).
Proof. reflexivity. Qed.

Example function_expression_name_kept :
  extractFunctionInfo
    (Node "FunctionExpression" (Some 1) []
       [("id", Node "Identifier" (Some 1) [("name", SStr "named")] []);
        ("body", Node "BlockStatement" (Some 1) [] [])])
    (initial_analysis []) "expression"
  = Ok (push_function
          {| f_name := Some "named"; f_type := "expression"; f_params := [];
             f_async := false; f_generator := false; f_line := Some 1; f_complexity := 1 |}
          (initial_analysis [])).
Proof. reflexivity. Qed.

(** ** Where the synthesizer does not return *)

Lemma generateTestCode_basic_throws_or_returns (func : FunctionInfo) (w : world)
    (c : counters) (inputData : list (string * jsval)) :
  generateInputData (f_params func) = Ok inputData ->
  generateTestCode func "basic" 0 w c <> Beyond.
Proof.
  intros Ein. unfold generateTestCode. unfold bind at 1.
  destruct (getTestTemplates w c) as [[templates c1] | e |] eqn:Et;
    [| discriminate Et | discriminate Et].
  change (String.eqb "basic" "basic") with true. cbv iota.
  unfold bind, lift. rewrite Ein. cbn [obind].
  destruct (templates !! "unit") as [t|].
  - match goal with
    | |- context [populateTemplate _ ?data] =>
        destruct (populate_some data eq_refl t) as (r & Er)
    end.
    rewrite Er. discriminate.
  - cbn. discriminate.
Qed.

Lemma raises_bind_l {A B} (w : world) (m : M A) (k : A -> M B) :
  raises w m -> raises w (bind m k).
Proof. intros H c. destruct (H c) as (e & E). exists e. unfold bind. now rewrite E. Qed.

Lemma raises_bind_r {A B} (w : world) (m : M A) (k : A -> M B) :
  within w m -> (forall a, raises w (k a)) -> raises w (bind m k).
Proof.
  intros Hm Hk c. unfold bind. specialize (Hm c).
  destruct (m w c) as [[a c1] | e |]; [apply Hk | now exists e | congruence].
Qed.

Lemma within_lift_ok {A} (w : world) (o : outcome A) (a : A) : o = Ok a -> within w (lift o).
Proof. intros -> c. discriminate. Qed.

Lemma unnamed_parameter_raises (w : world) (analysisId : jsval) :
  raises w (generateFunctionTests destructured_info analysisId).
Proof.
  unfold generateFunctionTests.
  apply raises_bind_r; [now apply (within_lift_ok w _ [("undefined", VStr "DEFAULT_VALUE")]) |].
  intros basic_input.
  apply raises_bind_r; [eapply within_lift_ok; reflexivity |]. intros basic_expected.
  apply raises_bind_r.
  { intros c. now apply (generateTestCode_basic_throws_or_returns destructured_info w c
                          [("undefined", VStr "DEFAULT_VALUE")]). }
  intros basic_code. cbv zeta. apply raises_bind_l.
  cbn [destructured_info f_params param_tests]. apply raises_bind_l.
  intros c. eexists. reflexivity.
Qed.

(** C1 against the code.  The function recorded for
    [function f({ a } = {}) {}] has one parameter, whose name is [undefined];
    the formula gives four descriptors for it, and the synthesizer raises
    in every world.  With a template table that has no unit row the
    synthesizer raises for [function add(a, b)] as well. *)
Theorem synthesis_fails_on_unnamed_parameter :
  extractFunctionInfo destructured_node (initial_analysis []) "declaration"
    = Ok (push_function destructured_info (initial_analysis []))
  /\ expected_count (analysis_of [destructured_info]) = 4
  /\ (forall w c analysisId,
        exists e, generateTestCases (analysis_of [destructured_info]) analysisId w c = Throw e)
  /\ generateTestCases (analysis_of [destructured_info]) VNull offline_world start
     = Throw (new_Error ("Falha na geração de testes: "
                           ++ "Cannot read properties of undefined (reading 'toLowerCase')"))
  /\ generateTestCases (analysis_of [add_info]) VNull empty_table_world start
     = Throw (new_Error ("Falha na geração de testes: "
                           ++ "Cannot read properties of undefined (reading 'replace')")).
Proof.
  split; [reflexivity |]. split; [reflexivity |].
  split; [| split; vm_compute; reflexivity].
  intros w c analysisId.
  assert (H : raises w
                (do functionTests <-
                   all_function_tests (functions (analysis_of [destructured_info])) analysisId ;;
                 ret (functionTests
                        ++ concat (map (fun cls => generateClassTests cls analysisId)
                                     (classes (analysis_of [destructured_info])))
                        ++ generateConditionalTests
                             (conditionals (analysis_of [destructured_info])) analysisId
                        ++ generateLoopTests (loops (analysis_of [destructured_info]))
                             analysisId)%list)).
  { apply raises_bind_l. cbn [analysis_of functions all_function_tests].
    apply raises_bind_l. apply unnamed_parameter_raises. }
  destruct (H c) as (e & E). unfold generateTestCases. rewrite E. cbn [rethrow].
  eexists. reflexivity.
Qed.

(* ================================================================== *)
(** * Part III. Further properties of the analyzer                     *)
(* ================================================================== *)

(** ** Nodes that end the traversal *)

Lemma any_in_unfold (p : node -> bool) ty ln props kids :
  any_in p (Node ty ln props kids) = true ->
  p (Node ty ln props kids) = true \/ Exists (fun kc => any_in p (snd kc) = true) kids.
Proof.
  cbn [any_in]. intros H. apply orb_prop in H. destruct H as [H | H]; [now left | right].
  induction kids as [|[k c] r IH]; [discriminate |].
  cbn [any_kid] in H. apply orb_prop in H. destruct H as [H | H].
  - now constructor.
  - apply Exists_cons_tl. now apply IH.
Qed.

Lemma any_kid_exists (f : node -> bool) (kids : list (string * node)) :
  any_kid f kids = true -> Exists (fun kc => f (snd kc) = true) kids.
Proof.
  induction kids as [|[k c] r IH]; [discriminate |].
  cbn [any_kid]. intros H. apply orb_prop in H. destruct H as [H | H].
  - now constructor.
  - apply Exists_cons_tl. now apply IH.
Qed.

(** A tree that holds a node at which the visitor of its type does not
    return is not traversed to the end, whatever receiver the engine gives
    to [enter] and [exit]. *)
Lemma traverse_stops (p : node -> bool) (state : option ASTParser) :
  (forall m a a', p m = true -> visit m a <> Ok a') ->
  forall n, any_in p n = true -> forall w w', traverse_node state n w <> Ok w'.
Proof.
  intros Hp n. induction n as [ty ln props kids IH] using node_induction.
  intros Hany w w'. apply any_in_unfold in Hany. cbn [traverse_node].
  destruct (enter state (Node ty ln props kids) w) as [w1 | e |]; cbn [obind];
    try discriminate.
  destruct Hany as [Hhere | Hkid].
  - unfold visit_walk.
    destruct (visit (Node ty ln props kids) (w_analysis w1)) as [a2 | e |] eqn:E;
      cbn [obind]; try discriminate.
    exfalso. exact (Hp _ _ _ Hhere E).
  - destruct (visit_walk (Node ty ln props kids) w1) as [w2 | e |]; cbn [obind];
      try discriminate.
    assert (Hk : forall s s', walk_kids (traverse_node state) kids s <> Ok s').
    { apply walk_kids_never_ok.
      rewrite Exists_exists in Hkid. destruct Hkid as (kc & Hin & Ho).
      rewrite Exists_exists. exists kc. split; [exact Hin |].
      rewrite Forall_forall in IH. intros s s'. now apply (IH kc Hin Ho). }
    destruct (walk_kids (traverse_node state) kids w2) as [w3 | e |] eqn:E; cbn [obind];
      try discriminate.
    exfalso. exact (Hk _ _ E).
Qed.

(** ** The function-scoped traversal in closed form *)

Lemma truthy_counter (lc : Z) : (1 <= lc)%Z -> truthy (VNum (int lc)) = true.
Proof.
  intros H. cbn. destruct (Z.eqb_spec lc 0); [lia | reflexivity].
Qed.

Lemma local_visit_closed (n : node) (lc : Z) :
  (1 <= lc)%Z ->
  local_visit n lc
  = if returns_counter n then Throw unexpected_return
    else Ok (lc + Z.of_nat (if short_circuit n then 1 else 0))%Z.
Proof.
  intros Hlc. unfold local_visit, local_visitor, returns_counter, short_circuit.
  destruct (t_is "IfStatement" n || t_is "SwitchCase" n || t_is "ForStatement" n
            || t_is "WhileStatement" n || t_is "DoWhileStatement" n
            || t_is "ConditionalExpression" n).
  - unfold check_return. rewrite truthy_counter by exact Hlc. reflexivity.
  - destruct (t_is "LogicalExpression" n); cbn [andb].
    + destruct (str_prop n "operator") as [op|].
      * destruct (String.eqb op "&&" || String.eqb op "||"); cbn; f_equal; lia.
      * cbn. f_equal. lia.
    + f_equal. cbn. lia.
Qed.

Lemma local_kids_closed (kids : list (string * node)) :
  Forall (fun kc =>
            forall lc, (1 <= lc)%Z ->
              local_walk (snd kc) lc
              = if any_in returns_counter (snd kc) then Throw unexpected_return
                else Ok (lc + Z.of_nat (tally_in short_circuit (snd kc)))%Z) kids ->
  forall lc, (1 <= lc)%Z ->
    walk_kids local_walk kids lc
    = if any_kid (any_in returns_counter) kids then Throw unexpected_return
      else Ok (lc + Z.of_nat (sum_kids (tally_in short_circuit) kids))%Z.
Proof.
  induction kids as [|[k c] r IH]; intros HF lc Hlc.
  - cbn. f_equal. lia.
  - inversion HF as [|? ? Hc Hr]; subst. cbn [snd] in Hc.
    cbn [walk_kids any_kid sum_kids]. rewrite Hc by exact Hlc.
    destruct (any_in returns_counter c); cbn [obind orb]; [reflexivity |].
    rewrite (IH Hr) by lia.
    destruct (any_kid (any_in returns_counter) r); [reflexivity |].
    f_equal. lia.
Qed.

Lemma local_walk_closed (n : node) :
  forall lc, (1 <= lc)%Z ->
    local_walk n lc
    = if any_in returns_counter n then Throw unexpected_return
      else Ok (lc + Z.of_nat (tally_in short_circuit n))%Z.
Proof.
  induction n as [ty ln props kids IH] using node_induction.
  intros lc Hlc. cbn [local_walk any_in tally_in].
  rewrite local_visit_closed by exact Hlc.
  destruct (returns_counter (Node ty ln props kids)); cbn [obind orb]; [reflexivity |].
  rewrite (local_kids_closed kids IH) by lia.
  destruct (any_kid (any_in returns_counter) kids); [reflexivity |].
  f_equal. lia.
Qed.

Lemma local_traverse_closed (path : node) :
  local_traverse path 1
  = if any_below returns_counter path then Throw unexpected_return
    else Ok (1 + Z.of_nat (tally_below short_circuit path))%Z.
Proof.
  unfold local_traverse, any_below, tally_below.
  apply local_kids_closed; [| lia].
  rewrite Forall_forall. intros kc _. apply local_walk_closed.
Qed.

Lemma visit_function (path : node) (analysis : Analysis) :
  is_function path = true ->
  exists type, visit path analysis = extractFunctionInfo path analysis type.
Proof.
  unfold is_function, t_is, visit. intros H.
  destruct (String.eqb (node_type path) "FunctionDeclaration"); [now eexists |].
  destruct (String.eqb (node_type path) "FunctionExpression"); [now eexists |].
  destruct (String.eqb (node_type path) "ArrowFunctionExpression"); [now eexists |].
  discriminate.
Qed.

Lemma branching_function_stops (m : node) (a a' : Analysis) :
  branching_function m = true -> visit m a <> Ok a'.
Proof.
  unfold branching_function. intros H. apply andb_prop in H. destruct H as [Hf Hb].
  destruct (visit_function m a Hf) as [type ->].
  unfold extractFunctionInfo.
  destruct (function_params _); cbn [obind]; try discriminate.
  rewrite local_traverse_closed, Hb. discriminate.
Qed.

(** X1.  A function is recorded exactly when no if statement, switch case,
    for, while or do-while loop or ternary lies below its node; its complexity
    is then 1 plus the number of [&&] and [||] below it. Otherwise the
    function-scoped traversal raises and the whole traversal with it. *)
Theorem function_recorded_unless_branching :
  (forall path analysis type params,
      function_params (children_of path "params") = Ok params ->
      extractFunctionInfo path analysis type
      = if any_below returns_counter path then Throw unexpected_return
        else Ok (push_function
                   {| f_name := match child path "id" with
                                | Some id => str_prop id "name"
                                | None => Some "<anonymous>"
                                end;
                      f_type := type; f_params := params;
                      f_async := flag path "async"; f_generator := flag path "generator";
                      f_line := node_line path;
                      f_complexity := 1 + Z.of_nat (tally_below short_circuit path) |}
                   analysis))
  /\ (forall state n w w',
        any_in branching_function n = true -> traverse_node state n w <> Ok w').
Proof.
  split.
  - intros path analysis type params Hparams. unfold extractFunctionInfo.
    rewrite Hparams. cbn [obind]. rewrite local_traverse_closed.
    destruct (any_below returns_counter path); reflexivity.
  - intros state n w w' H. revert w w'. apply traverse_stops with (p := branching_function).
    + intros m a a'. apply branching_function_stops.
    + exact H.
Qed.

Lemma function_recorded_unless_branching_witness :
  extractFunctionInfo if_sample (initial_analysis []) "declaration" = Throw unexpected_return
  /\ extractFunctionInfo nested_sample (initial_analysis []) "declaration"
     = Ok (push_function
             {| f_name := Some "outer"; f_type := "declaration"; f_params := [];
                f_async := false; f_generator := false; f_line := Some 1;
                f_complexity := 2 |}
             (initial_analysis []))
  /\ forall w',
       traverse_node (Some (new_ASTParser None))
         (Node "Program" (Some 1) [] [("body", if_sample)])
         {| w_analysis := initial_analysis []; currentDepth := 0; maxDepth := 0 |} <> Ok w'.
Proof.
  destruct function_recorded_unless_branching as [Hclosed Hstops].
  split; [| split].
  - exact (Hclosed if_sample (initial_analysis []) "declaration"
             [{| p_name := Some "x"; p_type := "identifier" |}] eq_refl).
  - exact (Hclosed nested_sample (initial_analysis []) "declaration" [] eq_refl).
  - intros w'. apply Hstops. reflexivity.
Defined.

(** ** Classes *)

Lemma visit_class (path : node) (analysis : Analysis) :
  t_is "ClassDeclaration" path = true -> visit path analysis = extractClassInfo path analysis.
Proof.
  intros H. apply t_is_eq in H. unfold visit. rewrite H. reflexivity.
Qed.

Lemma class_with_members_stops (m : node) (a a' : Analysis) :
  class_with_members m = true -> visit m a <> Ok a'.
Proof.
  unfold class_with_members. intros H. apply andb_prop in H. destruct H as [Hc Hb].
  rewrite visit_class by exact Hc. unfold extractClassInfo.
  destruct (child m "body") as [body|]; [| discriminate].
  destruct (children_of body "body") as [|member rest]; [discriminate |].
  cbn. discriminate.
Qed.

(** X2.  A class declaration is recorded only when its body is empty, and then
    without methods and properties, so that the synthesizer derives the
    instantiation descriptor alone from it. With a member in the body the call
    of [t.isMethodDefinition], which [@babel/types] does not export, raises.
    *)
Theorem class_recorded_only_when_empty :
  (forall path analysis body,
      child path "body" = Some body -> children_of body "body" = [] ->
      exists cls,
        extractClassInfo path analysis = Ok (push_class cls analysis)
        /\ c_methods cls = [] /\ c_properties cls = []
        /\ forall analysisId, List.length (generateClassTests cls analysisId) = 1)
  /\ (forall path analysis body,
        child path "body" = Some body -> children_of body "body" <> [] ->
        extractClassInfo path analysis
        = Throw (new_Error "t.isMethodDefinition is not a function"))
  /\ (forall state n w w',
        any_in class_with_members n = true -> traverse_node state n w <> Ok w').
Proof.
  split; [| split].
  - intros path analysis body Hbody Hnil. unfold extractClassInfo.
    rewrite Hbody, Hnil. cbn [class_members obind fst snd].
    eexists. split; [reflexivity |]. repeat split.
  - intros path analysis body Hbody Hne. unfold extractClassInfo. rewrite Hbody.
    destruct (children_of body "body") as [|member rest]; [congruence | reflexivity].
  - intros state n w w' H. revert w w'. apply traverse_stops with (p := class_with_members).
    + intros m a a'. apply class_with_members_stops.
    + exact H.
Qed.

Lemma class_recorded_only_when_empty_witness :
  (exists cls,
      extractClassInfo class_empty (initial_analysis [])
      = Ok (push_class cls (initial_analysis []))
      /\ c_methods cls = [] /\ c_properties cls = []
      /\ forall analysisId, List.length (generateClassTests cls analysisId) = 1)
  /\ extractClassInfo class_stack (initial_analysis [])
     = Throw (new_Error "t.isMethodDefinition is not a function")
  /\ forall w',
       traverse_node (Some (new_ASTParser None))
         (Node "Program" (Some 1) [] [("body", class_stack)])
         {| w_analysis := initial_analysis []; currentDepth := 0; maxDepth := 0 |} <> Ok w'.
Proof.
  destruct class_recorded_only_when_empty as (Hempty & Hmember & Hstops).
  split; [| split].
  - apply (Hempty class_empty (initial_analysis []) (Node "ClassBody" (Some 1) [] []));
      reflexivity.
  - eapply (Hmember class_stack (initial_analysis [])); [reflexivity | discriminate].
  - intros w'. apply Hstops. reflexivity.
Defined.

(** ** Exports *)

Lemma visit_export (path : node) (analysis : Analysis) :
  is_export path = true -> visit path analysis = extractExportInfo path analysis.
Proof.
  unfold is_export, t_is, visit. intros H.
  destruct (String.eqb_spec (node_type path) "ExportAllDeclaration") as [-> | _];
    [reflexivity |].
  destruct (String.eqb_spec (node_type path) "ExportDefaultDeclaration") as [-> | _];
    [reflexivity |].
  destruct (String.eqb_spec (node_type path) "ExportNamedDeclaration") as [-> | _];
    [reflexivity | discriminate].
Qed.

Lemma anonymous_export_raises (path : node) (analysis : Analysis) :
  anonymous_export path = true ->
  extractExportInfo path analysis = Throw (cannot_read_null "name").
Proof.
  unfold anonymous_export. intros H. apply andb_prop in H. destruct H as [_ H].
  unfold extractExportInfo.
  destruct (child path "declaration") as [d|]; [| discriminate].
  apply andb_prop in H. destruct H as [Hkind Hid].
  unfold name_of_field.
  destruct (child d "id"); [discriminate |].
  destruct (t_is "FunctionDeclaration" d); [reflexivity |].
  cbn [orb] in Hkind. rewrite Hkind. reflexivity.
Qed.

(** X3.  An export whose declaration is a function or class declaration
    without a name is not recorded: reading [declaration.id.name] raises, and
    a tree that holds such an export is not traversed to the end. *)
Theorem anonymous_default_export_raises :
  (forall path analysis,
      anonymous_export path = true ->
      extractExportInfo path analysis = Throw (cannot_read_null "name")
      /\ visit path analysis = Throw (cannot_read_null "name"))
  /\ (forall state n w w',
        any_in anonymous_export n = true -> traverse_node state n w <> Ok w').
Proof.
  split.
  - intros path analysis H. split; [now apply anonymous_export_raises |].
    rewrite visit_export.
    + now apply anonymous_export_raises.
    + unfold anonymous_export in H. apply andb_prop in H. tauto.
  - intros state n w w' H. revert w w'. apply traverse_stops with (p := anonymous_export).
    + intros m a a' Hm. rewrite visit_export.
      * rewrite anonymous_export_raises by exact Hm. discriminate.
      * unfold anonymous_export in Hm. apply andb_prop in Hm. tauto.
    + exact H.
Qed.

Lemma anonymous_default_export_raises_witness :
  (extractExportInfo export_default_function (initial_analysis [])
   = Throw (new_Error "Cannot read properties of null (reading 'name')")
   /\ visit export_default_function (initial_analysis [])
      = Throw (new_Error "Cannot read properties of null (reading 'name')"))
  /\ forall w',
       traverse_node (Some (new_ASTParser None))
         (Node "Program" (Some 1) [] [("body", export_default_function)])
         {| w_analysis := initial_analysis []; currentDepth := 0; maxDepth := 0 |} <> Ok w'.
Proof.
  destruct anonymous_default_export_raises as [Hraise Hstops].
  split.
  - apply (Hraise export_default_function (initial_analysis [])). reflexivity.
  - intros w'. apply Hstops. reflexivity.
Defined.

(** ** Variable declarations *)

Lemma push_variables_fold (path : node) (ds : list node) :
  forall a,
    fold_left
      (fun a declaration =>
         match child declaration "id" with
         | Some id =>
             if t_is "Identifier" id then
               push_variable
                 {| v_name := str_prop id "name"; v_kind := str_prop path "kind";
                    v_hasInitializer :=
                      match child declaration "init" with Some _ => true | None => false end;
                    v_line := node_line path |} a
             else a
         | None => a
         end) ds a
    = {| functions := functions a; classes := classes a;
         variables := variables a ++ map (variable_of path) (List.filter binds_identifier ds);
         imports := imports a; exports := exports a; conditionals := conditionals a;
         loops := loops a; trycatch := trycatch a; complexity := complexity a |}.
Proof.
  induction ds as [|d ds IH]; intros a.
  - cbn. rewrite app_nil_r. now destruct a.
  - cbn [fold_left List.filter]. rewrite IH.
    assert (Hd : binds_identifier d
                 = match child d "id" with
                   | Some id => t_is "Identifier" id
                   | None => false
                   end) by reflexivity.
    rewrite Hd. destruct (child d "id") as [id|] eqn:E; [| reflexivity].
    destruct (t_is "Identifier" id); [| reflexivity].
    assert (Hv : variable_of path d
                 = {| v_name := str_prop id "name"; v_kind := str_prop path "kind";
                      v_hasInitializer :=
                        match child d "init" with Some _ => true | None => false end;
                      v_line := node_line path |})
      by (unfold variable_of; now rewrite E).
    cbn [push_variable variables functions classes imports exports conditionals loops
         trycatch complexity map]. rewrite Hv, <- app_assoc. reflexivity.
Qed.

(** X4.  [extractVariableInfo] never raises. It appends one record for each
    declarator whose target is a plain identifier, in order, each carrying the
    kind and the line of the declaration; declarators that destructure are
    skipped, and nothing else of the analysis changes. *)
Theorem variables_recorded_per_identifier (path : node) (analysis : Analysis) :
  extractVariableInfo path analysis
  = Ok {| functions := functions analysis; classes := classes analysis;
          variables :=
            variables analysis
            ++ map (variable_of path)
                 (List.filter binds_identifier (children_of path "declarations"));
          imports := imports analysis; exports := exports analysis;
          conditionals := conditionals analysis; loops := loops analysis;
          trycatch := trycatch analysis; complexity := complexity analysis |}.
Proof.
  unfold extractVariableInfo. f_equal. apply push_variables_fold.
Qed.

Example mixed_declaration_recorded :
  option_map (fun a => map v_name (variables a))
    (match extractVariableInfo mixed_declaration (initial_analysis []) with
     | Ok a => Some a
     | _ => None
     end) = Some [Some "b"; Some "c"].
Proof. reflexivity. Qed.

(** ** From a function node to its descriptors *)

Lemma function_params_length (params : list node) :
  forall infos, function_params params = Ok infos -> List.length infos = List.length params.
Proof.
  induction params as [|p r IH]; intros infos.
  - cbn. intros H. now injection H as <-.
  - cbn [function_params].
    match goal with
    | |- obind ?m _ = _ -> _ => destruct m as [info | e |]; cbn [obind]; try discriminate
    end.
    destruct (function_params r) as [more | e |]; cbn [obind]; try discriminate.
    intros H. injection H as <-. cbn [List.length]. f_equal. now apply IH.
Qed.

(** X5.  The number of descriptors of a recorded function, read off its syntax
    node: one basic descriptor, two for each parameter node, one more when the
    function has a parameter and one more when the node is marked [async]. *)
Theorem descriptors_per_function_node (path : node) (analysis a' : Analysis) (type : string)
    (Hrec : extractFunctionInfo path analysis type = Ok a') :
  exists fi,
    functions a' = (functions analysis ++ [fi])%list
    /\ forall (w : world) (analysisId : jsval),
         (forall n, unit_template w n <> None) -> named fi = true ->
         yields w (generateFunctionTests fi analysisId)
           (fun tests =>
              List.length tests
              = 1 + 2 * List.length (children_of path "params")
                + (if (0 <? List.length (children_of path "params"))%nat then 1 else 0)
                + (if flag path "async" then 1 else 0)).
Proof.
  unfold extractFunctionInfo in Hrec.
  destruct (function_params _) as [params | e |] eqn:Ep; cbn [obind] in Hrec;
    try discriminate.
  destruct (local_traverse path 1) as [lc | e |]; cbn [obind] in Hrec; try discriminate.
  injection Hrec as <-. eexists. split; [reflexivity |].
  intros w analysisId Hunit Hnamed c.
  destruct (generateFunctionTests_yields w Hunit _ Hnamed analysisId c)
    as (tests & c' & Hrun & Hlen & _).
  exists tests, c'. split; [exact Hrun |].
  rewrite Hlen. unfold function_count. cbn [f_params f_async].
  now rewrite (function_params_length _ _ Ep).
Qed.

Lemma descriptors_per_function_node_witness :
  exists tests c',
    extractFunctionInfo add_node (initial_analysis []) "declaration"
      = Ok (push_function add_info (initial_analysis []))
    /\ generateFunctionTests add_info VNull offline_world start = Ok (tests, c')
    /\ List.length tests = 6.
Proof.
  destruct (descriptors_per_function_node add_node (initial_analysis [])
              (push_function add_info (initial_analysis [])) "declaration" eq_refl)
    as (fi & Hf & Hcount).
  cbn in Hf. injection Hf as <-.
  destruct (Hcount offline_world VNull (fun _ => ltac:(discriminate)) eq_refl start)
    as (tests & c' & Hrun & Hlen).
  exists tests, c'. split; [reflexivity |]. split; [exact Hrun | exact Hlen].
Defined.

(** ** The language guard *)

(** X9.  A text that passes the size check is rejected without being parsed
    when the language is not [javascript]. *)
Theorem unsupported_language_rejected (B : babel) (now : Z) (env : option Z)
    (text : list code_unit) (language : string)
    (Hne : text <> [])
    (Hsize : (Z.of_nat (List.length text) <= maxCodeSize (new_ASTParser env))%Z)
    (Hlang : language <> "javascript") :
  analyzeCode B now (new_ASTParser env) (Some text) (Some language)
  = Throw (new_Error ("Erro na análise: Linguagem não suportada: " ++ language)).
Proof.
  unfold analyzeCode. destruct text as [|u text]; [congruence |].
  destruct (Z.ltb_spec (maxCodeSize (new_ASTParser env))
              (Z.of_nat (List.length (u :: text)))); [lia |].
  cbn [supportedLanguages new_ASTParser includes_item].
  destruct (String.eqb_spec "javascript" language) as [E | _]; [congruence |].
  reflexivity.
Qed.

Lemma unsupported_language_rejected_witness :
  analyzeCode (parses_to program_x) 0 (new_ASTParser None) (Some [120%N; 59%N])
    (Some "python")
  = Throw (new_Error "Erro na análise: Linguagem não suportada: python").
Proof.
  apply (unsupported_language_rejected (parses_to program_x) 0 None [120%N; 59%N] "python");
    [discriminate | cbn; lia | discriminate].
Defined.

(** ** The size limit read from the environment *)

(** X10.  The limit is the value of [MAX_CODE_SIZE] when that is a number
    other than 0, and 1048576 when it is 0 or not a number (the variable not
    being set included), so it is never 0; with a negative value every text
    is rejected as too large, the parser not being consulted. *)
Theorem size_limit_from_environment :
  (forall env, maxCodeSize (new_ASTParser env) <> 0%Z)
  /\ (forall n, n <> 0%Z -> maxCodeSize (new_ASTParser (Some n)) = n)
  /\ maxCodeSize (new_ASTParser (Some 0%Z)) = 1048576%Z
  /\ maxCodeSize (new_ASTParser None) = 1048576%Z
  /\ (forall B now n text language,
        (n < 0)%Z -> safe_integer n = true -> text <> [] ->
        analyzeCode B now (new_ASTParser (Some n)) (Some text) language
        = Throw (new_Error ("Erro na análise: Código muito grande (máximo "
                              ++ show_Z n ++ " caracteres)"))).
Proof.
  split; [| split; [| split; [| split]]].
  - intros [n|]; cbn; [| discriminate].
    destruct (Z.eqb_spec n 0); [discriminate | assumption].
  - intros n Hn. cbn. destruct (Z.eqb_spec n 0); [contradiction | reflexivity].
  - reflexivity.
  - reflexivity.
  - intros B now n text language Hneg Hsafe Hne. unfold analyzeCode.
    destruct text as [|u text]; [congruence |].
    assert (Hmax : maxCodeSize (new_ASTParser (Some n)) = n).
    { cbn. destruct (Z.eqb_spec n 0); [lia | reflexivity]. }
    rewrite Hmax, Hsafe.
    destruct (Z.ltb_spec n (Z.of_nat (List.length (u :: text)))); [reflexivity | lia].
Qed.

Lemma size_limit_from_environment_witness :
  maxCodeSize (new_ASTParser (Some (-5)%Z)) = (-5)%Z
  /\ analyzeCode (parses_to program_x) 0 (new_ASTParser (Some (-5)%Z))
       (Some [120%N; 59%N]) None
     = Throw (new_Error "Erro na análise: Código muito grande (máximo -5 caracteres)").
Proof.
  destruct size_limit_from_environment as (_ & Hkept & _ & _ & Hnegative).
  split.
  - apply Hkept. discriminate.
  - apply (Hnegative (parses_to program_x) 0%Z (-5)%Z [120%N; 59%N] None);
      [reflexivity | reflexivity | discriminate].
Defined.

(** ** The failure of a text that parses *)

(** X11.  Every text that passes the guards and parses is rejected.  When
    the scope builder accepts the program, the error is the TypeError of the
    first [enter], whatever the text holds; when it raises, as for a binding
    declared twice, its message is passed on under the prefix of
    [analyzeCode]. *)
Theorem parsed_text_fails_in_enter (B : babel) (now : Z) (env : option Z)
    (text : list code_unit) (ast : File)
    (Hne : text <> [])
    (Hsize : (Z.of_nat (List.length text) <= maxCodeSize (new_ASTParser env))%Z)
    (Hparse : parse B text = Ok ast) :
  (crawl B (program ast) = None ->
   analyzeCode B now (new_ASTParser env) (Some text) None
   = Throw (new_Error ("Erro na análise: "
              ++ "Cannot read properties of undefined (reading 'isBlockStatement')")))
  /\ (forall e,
        crawl B (program ast) = Some e -> err_code e <> Some "BABEL_PARSE_ERROR" ->
        analyzeCode B now (new_ASTParser env) (Some text) None
        = Throw (new_Error ("Erro na análise: " ++ err_message e))).
Proof.
  assert (Hrun : analyzeCode B now (new_ASTParser env) (Some text) None
                 = rethrow "Erro na análise: "
                     (analyzeJavaScript B now (new_ASTParser env) text)).
  { unfold analyzeCode. destruct text as [|u text]; [congruence |].
    destruct (Z.ltb_spec (maxCodeSize (new_ASTParser env))
                (Z.of_nat (List.length (u :: text)))); [lia | reflexivity]. }
  rewrite Hrun. unfold analyzeJavaScript, traverse. rewrite Hparse. cbn [obind]. split.
  - intros Hcrawl. rewrite Hcrawl, traverse_unbound. reflexivity.
  - intros e Hcrawl Hcode. rewrite Hcrawl. cbn [obind].
    destruct (err_code e) as [code|]; [| reflexivity].
    destruct (String.eqb_spec code "BABEL_PARSE_ERROR"); [congruence | reflexivity].
Qed.

Lemma parsed_text_fails_in_enter_witness :
  analyzeCode (parses_to program_x) 0 (new_ASTParser None) (Some [120%N; 59%N]) None
  = Throw (new_Error ("Erro na análise: "
                        ++ "Cannot read properties of undefined (reading 'isBlockStatement')")).
Proof.
  destruct (parsed_text_fails_in_enter (parses_to program_x) 0 None [120%N; 59%N]
              program_x) as [Hparsed _];
    [discriminate | cbn; lia | reflexivity |].
  apply Hparsed. reflexivity.
Defined.

(* ================================================================== *)
(** * Part IV. Further properties of the synthesizer                   *)
(* ================================================================== *)

(** ** Objects keyed by parameter names *)

Lemma assoc_obj_set_same (key : string) (v : jsval) (o : list (string * jsval)) :
  assoc key (obj_set key v o) = Some v.
Proof.
  induction o as [|[k x] r IH]; cbn [obj_set assoc].
  - now rewrite String.eqb_refl.
  - destruct (String.eqb k key) eqn:E; cbn [assoc]; rewrite E; [reflexivity | exact IH].
Qed.

Lemma assoc_obj_set_other (k key : string) (v : jsval) (o : list (string * jsval)) :
  k <> key -> assoc k (obj_set key v o) = assoc k o.
Proof.
  intros Hne. induction o as [|[k' x] r IH]; cbn [obj_set assoc].
  - destruct (String.eqb_spec key k); [congruence | reflexivity].
  - destruct (String.eqb_spec k' key) as [-> | Hk]; cbn [assoc].
    + destruct (String.eqb_spec key k); [congruence | reflexivity].
    + now rewrite IH.
Qed.

Lemma keys_obj_set (key : string) (v : jsval) (o : list (string * jsval)) :
  keys_of (obj_set key v o)
  = if includes_item key (keys_of o) then keys_of o else (keys_of o ++ [key])%list.
Proof.
  unfold keys_of. induction o as [|[k x] r IH]; cbn [obj_set map fst includes_item].
  - reflexivity.
  - destruct (String.eqb k key) eqn:E; cbn [orb map fst]; [reflexivity |].
    rewrite IH. now destruct (includes_item key (map fst r)).
Qed.

Lemma includes_item_app (x : string) (l l' : list string) :
  includes_item x (l ++ l') = includes_item x l || includes_item x l'.
Proof.
  induction l as [|y r IH]; cbn [app includes_item]; [reflexivity |].
  now rewrite IH, orb_assoc.
Qed.

Lemma includes_item_In (x : string) (l : list string) :
  includes_item x l = true <-> In x l.
Proof.
  induction l as [|y r IH]; cbn [includes_item In]; [split; [discriminate | tauto] |].
  rewrite orb_true_iff, IH, String.eqb_eq. tauto.
Qed.

Lemma filter_twice {A} (f g : A -> bool) (l : list A) :
  List.filter f (List.filter g l) = List.filter (fun x => g x && f x) l.
Proof.
  induction l as [|x r IH]; [reflexivity |].
  cbn [List.filter]. destruct (g x); cbn [andb List.filter]; now rewrite IH.
Qed.

Lemma filter_same {A} (f g : A -> bool) (l : list A) :
  (forall x, f x = g x) -> List.filter f l = List.filter g l.
Proof.
  intros H. induction l as [|x r IH]; [reflexivity |].
  cbn [List.filter]. now rewrite H, IH.
Qed.

Lemma filter_all {A} (l : list A) : List.filter (fun _ => true) l = l.
Proof. induction l as [|x r IH]; [reflexivity |]. cbn. now rewrite IH. Qed.

(** Adding a key to an object and then the new names among [rest] gives the
    same keys as adding the new names among [key :: rest]. *)
Lemma keys_step (key : string) (v : jsval) (acc : list (string * jsval)) (rest : list string) :
  (keys_of (obj_set key v acc)
   ++ List.filter (fun k => negb (includes_item k (keys_of (obj_set key v acc))))
        (distinct rest))%list
  = (keys_of acc
     ++ List.filter (fun k => negb (includes_item k (keys_of acc))) (distinct (key :: rest)))%list.
Proof.
  rewrite keys_obj_set. cbn [distinct List.filter].
  destruct (includes_item key (keys_of acc)) eqn:E; cbn [negb].
  - f_equal. rewrite filter_twice. apply filter_same. intros y.
    destruct (String.eqb_spec y key) as [-> | _]; cbn [negb andb]; [now rewrite E | reflexivity].
  - rewrite <- app_assoc. cbn [app]. do 2 f_equal.
    rewrite filter_twice. apply filter_same. intros y.
    rewrite includes_item_app. cbn [includes_item]. rewrite orb_false_r, negb_orb.
    rewrite (String.eqb_sym key y). apply andb_comm.
Qed.

Lemma generateInputData_from_keys (params : list ParamInfo) :
  forall i acc o,
    generateInputData_from params i acc = Ok o ->
    keys_of o
    = (keys_of acc
       ++ List.filter (fun k => negb (includes_item k (keys_of acc)))
            (distinct (map param_key params)))%list.
Proof.
  induction params as [|p rest IH]; intros i acc o; cbn [generateInputData_from].
  - intros H. injection H as <-. cbn. now rewrite app_nil_r.
  - match goal with
    | |- obind ?m _ = _ -> _ => destruct m as [v | e |]; cbn [obind]; try discriminate
    end.
    intros H. apply IH in H. rewrite H. cbn [map]. apply keys_step.
Qed.

Lemma obj_set_fresh (key : string) (v : jsval) (o : list (string * jsval)) :
  ~ In key (keys_of o) -> obj_set key v o = (o ++ [(key, v)])%list.
Proof.
  unfold keys_of. induction o as [|[k x] r IH]; cbn [obj_set map fst In app]; intros Hn.
  - reflexivity.
  - destruct (String.eqb_spec k key) as [-> | _]; [tauto |].
    rewrite IH; [reflexivity | tauto].
Qed.

Lemma sample_of_named (p : ParamInfo) (index : nat) :
  param_named p = true ->
  (if String.eqb (p_type p) "identifier" then generateSampleValueByName (p_name p)
   else if String.eqb (p_type p) "default" then Ok (VStr "DEFAULT_VALUE")
   else if String.eqb (p_type p) "rest" then
     Ok (VArr [VNum (int 1); VNum (int 2); VNum (int 3)])
   else Ok (VStr ("param" ++ show_nat index)))
  = Ok (sample_of index p).
Proof.
  unfold param_named, sample_of, param_key. destruct (p_name p) as [name|]; [| discriminate].
  intros _. cbn [show_name].
  destruct (String.eqb (p_type p) "identifier"); [apply generateSampleValueByName_table |].
  destruct (String.eqb (p_type p) "default"); [reflexivity |].
  destruct (String.eqb (p_type p) "rest"); reflexivity.
Qed.

Lemma generateInputData_from_closed (params : list ParamInfo) :
  forall i acc,
    forallb param_named params = true ->
    List.NoDup (keys_of acc ++ map param_key params) ->
    generateInputData_from params i acc = Ok (acc ++ samples_from i params)%list.
Proof.
  induction params as [|p rest IH]; intros i acc Hnamed Hnd; cbn [generateInputData_from].
  - cbn. now rewrite app_nil_r.
  - cbn [forallb] in Hnamed. apply andb_prop in Hnamed. destruct Hnamed as [Hp Hrest].
    rewrite sample_of_named by exact Hp. cbn [obind map] in *.
    assert (Hfresh : ~ In (param_key p) (keys_of acc)).
    { intros Hin. apply List.NoDup_remove_2 in Hnd. apply Hnd.
      apply in_or_app. now left. }
    fold (param_key p). rewrite obj_set_fresh by exact Hfresh.
    rewrite IH; [| exact Hrest |].
    + cbn [samples_from]. now rewrite <- app_assoc.
    + unfold keys_of. rewrite map_app. cbn [map fst]. rewrite <- app_assoc. exact Hnd.
Qed.

Lemma generateInputData_from_values (key : string) (params : list ParamInfo) :
  forall i acc o,
    forallb param_named params = true ->
    generateInputData_from params i acc = Ok o ->
    assoc key o = match last_sample key i params with
                  | Some v => Some v
                  | None => assoc key acc
                  end.
Proof.
  induction params as [|p rest IH]; intros i acc o Hnamed; cbn [generateInputData_from].
  - intros H. now injection H as <-.
  - cbn [forallb] in Hnamed. apply andb_prop in Hnamed. destruct Hnamed as [Hp Hrest].
    rewrite sample_of_named by exact Hp. cbn [obind last_sample].
    intros H. rewrite (IH _ _ _ Hrest H). fold (param_key p).
    destruct (last_sample key (S i) rest); [reflexivity |].
    destruct (String.eqb_spec (param_key p) key) as [<- | Hne].
    + apply assoc_obj_set_same.
    + apply assoc_obj_set_other. congruence.
Qed.

(** X13.  For parameters whose names are text, none of them [__proto__],
    [generateInputData] returns an object with one property for each distinct
    name, in the order of first occurrence, bound to the sample value of the
    last parameter of that name; when the names are pairwise distinct it is
    the list of the parameters' sample values in parameter order. *)
Theorem input_data_one_property_per_name (params : list ParamInfo)
    (Hnamed : forallb param_named params = true)
    (Hordinary : forallb ordinary_param params = true) :
  exists o,
    generateInputData params = Ok o
    /\ keys_of o = distinct (map param_key params)
    /\ (forall key, assoc key o = last_sample key 0 params)
    /\ (List.NoDup (map param_key params) -> o = samples_from 0 params).
Proof.
  destruct (generateInputData_ok params Hnamed) as (o & Ho). exists o.
  split; [exact Ho |]. split; [| split].
  - unfold generateInputData in Ho. apply generateInputData_from_keys in Ho.
    rewrite Ho. cbn. apply filter_all.
  - intros key. unfold generateInputData in Ho.
    rewrite (generateInputData_from_values key _ _ _ _ Hnamed Ho).
    now destruct (last_sample key 0 params).
  - intros Hnd. unfold generateInputData in Ho.
    rewrite generateInputData_from_closed in Ho by assumption.
    now injection Ho as <-.
Qed.

Lemma input_data_one_property_per_name_witness :
  exists o,
    generateInputData two_patterns = Ok o
    /\ keys_of o = ["unknown"]
    /\ assoc "unknown" o = Some (VStr "param1").
Proof.
  destruct (input_data_one_property_per_name two_patterns eq_refl eq_refl)
    as (o & Ho & Hk & Hv & _).
  exists o. split; [exact Ho |]. split; [exact Hk | exact (Hv "unknown")].
Defined.

(** ** The three variations of the input object *)

Lemma generateInputData_covers (params : list ParamInfo) (o : list (string * jsval))
    (p : ParamInfo) :
  generateInputData params = Ok o -> In p params ->
  includes_item (param_key p) (keys_of o) = true.
Proof.
  unfold generateInputData. intros Ho Hin. apply generateInputData_from_keys in Ho.
  rewrite Ho. cbn. rewrite filter_all. apply includes_item_In.
  assert (Hd : forall l x, In x l -> In x (distinct l)).
  { clear. induction l as [|y r IH]; intros x; cbn [In distinct]; [tauto |].
    destruct (String.eqb_spec x y) as [-> | Hne]; [now left |].
    intros [-> | Hx]; [congruence |]. right.
    apply filter_In. split; [now apply IH |].
    destruct (String.eqb_spec x y); [congruence | reflexivity]. }
  apply Hd. now apply in_map.
Qed.

Lemma override_target (base : list (string * jsval)) (key : string) (v : jsval) :
  includes_item key (keys_of base) = true ->
  keys_of (obj_set key v base) = keys_of base
  /\ assoc key (obj_set key v base) = Some v
  /\ forall k, k <> key -> assoc k (obj_set key v base) = assoc k base.
Proof.
  intros Hin. split; [| split].
  - now rewrite keys_obj_set, Hin.
  - apply assoc_obj_set_same.
  - intros k Hk. now apply assoc_obj_set_other.
Qed.

(** X14.  For parameters whose names are text, none of them [__proto__],
    [generateInvalidParamData] keeps the properties of [generateInputData] and
    their order and rebinds the name of the target parameter to the entry of
    the list of invalid values at the target index modulo 9; an index past the
    last parameter raises a TypeError. *)
Theorem invalid_param_data_overrides_target (params : list ParamInfo)
    (Hnamed : forallb param_named params = true)
    (Hordinary : forallb ordinary_param params = true) :
  (forall i p,
      nth_error params i = Some p ->
      exists base o,
        generateInputData params = Ok base
        /\ generateInvalidParamData params i = Ok o
        /\ keys_of o = keys_of base
        /\ assoc (param_key p) o = Some (nth (i mod 9) invalidValues VUndefined)
        /\ forall k, k <> param_key p -> assoc k o = assoc k base)
  /\ (forall i,
        nth_error params i = None ->
        generateInvalidParamData params i = Throw (cannot_read "name")).
Proof.
  destruct (generateInputData_ok params Hnamed) as (base & Hbase).
  unfold generateInvalidParamData, param_at. rewrite Hbase. cbn [obind].
  split.
  - intros i p Hp. rewrite Hp. cbn [obind]. eexists _, _.
    split; [reflexivity |]. split; [reflexivity |].
    apply override_target. eapply generateInputData_covers; [exact Hbase |].
    eapply nth_error_In. exact Hp.
  - intros i Hnone. now rewrite Hnone.
Qed.

Lemma invalid_param_data_overrides_target_witness :
  exists o,
    generateInvalidParamData (f_params add_info) 1 = Ok o
    /\ keys_of o = ["a"; "b"]
    /\ assoc "b" o = Some VUndefined
    /\ assoc "a" o = Some (VStr "testValue")
    /\ generateInvalidParamData (f_params add_info) 2 = Throw (cannot_read "name").
Proof.
  destruct (invalid_param_data_overrides_target (f_params add_info) eq_refl eq_refl)
    as [Hin Hout].
  destruct (Hin 1 {| p_name := Some "b"; p_type := "identifier" |} eq_refl)
    as (base & o & Hbase & Ho & Hk & Hv & Hrest).
  vm_compute in Hbase. injection Hbase as <-.
  exists o. split; [exact Ho |]. split; [exact Hk |]. split; [exact Hv |].
  split; [| exact (Hout 2 eq_refl)].
  rewrite (Hrest "a"); [reflexivity | discriminate].
Defined.

Lemma generateHighQualityValue_text (now : Z) (name : string) :
  exists text, generateHighQualityValue now (Some name) = Ok (VStr text).
Proof.
  unfold generateHighQualityValue. cbn [toLowerCase obind].
  repeat match goal with
         | |- context [if ?b then _ else _] => destruct b
         end; eexists; reflexivity.
Qed.

(** X15.  For parameters whose names are text, none of them [__proto__],
    [generateValidParamData] keeps the properties of [generateInputData] and
    their order and rebinds the name of the target parameter to the value of
    [generateHighQualityValue], which is a string for every name, whatever the
    type of the sample value it replaces; an index past the last parameter
    raises a TypeError. *)
Theorem valid_param_data_binds_text (params : list ParamInfo) (w : world) (c : counters)
    (Hnamed : forallb param_named params = true)
    (Hordinary : forallb ordinary_param params = true) :
  (forall i p,
      nth_error params i = Some p ->
      exists base o text,
        generateInputData params = Ok base
        /\ generateValidParamData params i w c = Ok (o, next_tick c)
        /\ generateHighQualityValue (clock w (ticks c)) (p_name p) = Ok (VStr text)
        /\ keys_of o = keys_of base
        /\ assoc (param_key p) o = Some (VStr text)
        /\ forall k, k <> param_key p -> assoc k o = assoc k base)
  /\ (forall i,
        nth_error params i = None ->
        generateValidParamData params i w c = Throw (cannot_read "name")).
Proof.
  destruct (generateInputData_ok params Hnamed) as (base & Hbase).
  unfold generateValidParamData, param_at, bind, lift, read_clock, ret.
  rewrite Hbase. cbn [obind].
  split.
  - intros i p Hp. rewrite Hp. cbn [obind].
    destruct (nth_error_named _ _ _ Hnamed Hp) as (name & Hname).
    destruct (generateHighQualityValue_text (clock w (ticks c)) name) as (text & Htext).
    rewrite Hname, Htext. cbn [obind].
    assert (Hkey : show_name (Some name) = param_key p)
      by (unfold param_key; now rewrite Hname).
    rewrite Hkey.
    exists base, (obj_set (param_key p) (VStr text) base), text.
    split; [reflexivity |]. split; [reflexivity |]. split; [reflexivity |].
    apply override_target.
    eapply generateInputData_covers; [exact Hbase |].
    eapply nth_error_In. exact Hp.
  - intros i Hnone. now rewrite Hnone.
Qed.

Lemma valid_param_data_binds_text_witness :
  exists o,
    generateInputData [ {| p_name := Some "userId"; p_type := "identifier" |} ]
      = Ok [("userId", VNum (int 1))]
    /\ generateValidParamData [ {| p_name := Some "userId"; p_type := "identifier" |} ] 0
         offline_world start = Ok (o, next_tick start)
    /\ assoc "userId" o = Some (VStr "validValue").
Proof.
  destruct (valid_param_data_binds_text
              [ {| p_name := Some "userId"; p_type := "identifier" |} ] offline_world start
              eq_refl eq_refl) as [Hin _].
  destruct (Hin 0 {| p_name := Some "userId"; p_type := "identifier" |} eq_refl)
    as (base & o & text & Hbase & Ho & Htext & _ & Hv & _).
  vm_compute in Htext. injection Htext as <-.
  exists o. split; [reflexivity |]. split; [exact Ho | exact Hv].
Defined.

Lemma forallb_obj_set (f : string * jsval -> bool) (key : string) (v : jsval)
    (o : list (string * jsval)) :
  (forall k, f (k, v) = true) -> forallb f o = true -> forallb f (obj_set key v o) = true.
Proof.
  intros Hv. induction o as [|[k x] r IH]; cbn [obj_set forallb].
  - intros _. now rewrite Hv.
  - intros H. apply andb_prop in H. destruct H as [Hx Hr].
    destruct (String.eqb k key); cbn [forallb].
    + now rewrite Hv, Hr.
    + now rewrite Hx, IH.
Qed.

Lemma generateNullParamData_from_total (w : world) (params : list ParamInfo) :
  forall acc c,
    exists o,
      generateNullParamData_from params acc w c
      = Ok (o, after_flips (List.length params) c)
      /\ keys_of o
         = (keys_of acc
            ++ List.filter (fun k => negb (includes_item k (keys_of acc)))
                 (distinct (map param_key params)))%list
      /\ (forallb (fun kv => is_nullish (snd kv)) acc = true ->
          forallb (fun kv => is_nullish (snd kv)) o = true).
Proof.
  induction params as [|p rest IH]; intros acc c; cbn [generateNullParamData_from].
  - exists acc. split; [| split].
    + unfold ret, after_flips. destruct c. cbn. now rewrite Nat.add_0_r.
    + cbn. now rewrite app_nil_r.
    + tauto.
  - unfold bind at 1, Math_random_above_half.
    match goal with
    | |- context [generateNullParamData_from rest ?acc' w ?c'] =>
        destruct (IH acc' c') as (o & Hrun & Hkeys & Hnull)
    end.
    exists o. split; [| split].
    + rewrite Hrun. unfold after_flips. cbn. do 2 f_equal.
      f_equal. lia.
    + rewrite Hkeys. cbn [map]. apply keys_step.
    + intros Hacc. apply Hnull. apply forallb_obj_set; [| exact Hacc].
      intros k. now destruct (random_above_half w (flips c)).
Qed.

(** X16.  [generateNullParamData] returns for every parameter list, named or
    not, that has no parameter [__proto__]: an object with one property for
    each distinct name in the order of first occurrence, every one bound to
    [null] or [undefined], after one call of [Math.random] for each parameter.
    *)
Theorem null_param_data_total (params : list ParamInfo) (w : world) (c : counters)
    (Hordinary : forallb ordinary_param params = true) :
  exists o,
    generateNullParamData params w c = Ok (o, after_flips (List.length params) c)
    /\ keys_of o = distinct (map param_key params)
    /\ forallb (fun kv => is_nullish (snd kv)) o = true.
Proof.
  destruct (generateNullParamData_from_total w params [] c) as (o & Hrun & Hkeys & Hnull).
  exists o. split; [exact Hrun |]. split.
  - rewrite Hkeys. cbn. apply filter_all.
  - now apply Hnull.
Qed.

Lemma null_param_data_total_witness :
  exists o,
    generateNullParamData (f_params destructured_info) offline_world start
    = Ok (o, after_flips 1 start)
    /\ keys_of o = ["undefined"]
    /\ forallb (fun kv => is_nullish (snd kv)) o = true.
Proof.
  exact (null_param_data_total (f_params destructured_info) offline_world start eq_refl).
Defined.

(** ** The expected output *)

(** X17.  A function whose name contains [list] is never given the expected
    type [array]: every such name contains [is], which is tested earlier, so
    the type is [boolean], or [object_or_null] when the name also contains
    [get] or [find]. The type [array] is reached through [all] only. The
    expectation of the asynchronous descriptor wraps the plain one. *)
Theorem expected_output_of_list_names (func : FunctionInfo) (name : string)
    (Hname : f_name func = Some name) :
  (includes "list" (lower name) = true ->
   exists v,
     generateExpectedOutput func false = Ok v
     /\ (output_type v = Some "object_or_null" \/ output_type v = Some "boolean"))
  /\ (forall v,
        generateExpectedOutput func false = Ok v -> output_type v = Some "array" ->
        includes "all" (lower name) = true /\ includes "list" (lower name) = false)
  /\ (exists v,
        generateExpectedOutput func false = Ok v
        /\ generateExpectedOutput func true
           = Ok (VObj [("type", VStr "promise"); ("resolves", v)])).
Proof.
  unfold generateExpectedOutput. rewrite Hname. cbn [toLowerCase obind].
  set (n := lower name).
  split; [| split].
  - intros Hlist. apply includes_list_is in Hlist. rewrite Hlist.
    destruct (includes "get" n || includes "find" n); eexists; split;
      first [reflexivity | now left | now right].
  - intros v.
    destruct (includes "list" n) eqn:Hlist.
    + rewrite (includes_list_is n Hlist).
      destruct (includes "get" n || includes "find" n); cbn [orb];
        intros H; injection H as <-; cbn; discriminate.
    + destruct (includes "get" n || includes "find" n);
        [intros H; injection H as <-; cbn; discriminate |].
      destruct (includes "is" n || includes "has" n || includes "can" n);
        [intros H; injection H as <-; cbn; discriminate |].
      destruct (includes "count" n || includes "length" n);
        [intros H; injection H as <-; cbn; discriminate |].
      cbn [orb]. destruct (includes "all" n); [now split |].
      destruct (includes "create" n || includes "save" n);
        intros H; injection H as <-; cbn; discriminate.
  - eexists. split; reflexivity.
Qed.

Lemma expected_output_of_list_names_witness :
  (exists v,
      generateExpectedOutput
        {| f_name := Some "listUsers"; f_type := "declaration"; f_params := [];
           f_async := false; f_generator := false; f_line := Some 1; f_complexity := 1 |}
        false = Ok v
      /\ (output_type v = Some "object_or_null" \/ output_type v = Some "boolean"))
  /\ (includes "all" (lower "fetchAll") = true /\ includes "list" (lower "fetchAll") = false).
Proof.
  split.
  - destruct (expected_output_of_list_names
                {| f_name := Some "listUsers"; f_type := "declaration"; f_params := [];
                   f_async := false; f_generator := false; f_line := Some 1;
                   f_complexity := 1 |} "listUsers" eq_refl) as (Hlist & _).
    apply Hlist. reflexivity.
  - destruct (expected_output_of_list_names
                {| f_name := Some "fetchAll"; f_type := "declaration"; f_params := [];
                   f_async := false; f_generator := false; f_line := Some 1;
                   f_complexity := 1 |} "fetchAll" eq_refl) as (_ & Hall & _).
    apply (Hall (VObj [("type", VStr "array");
                       ("description", VStr "Saída esperada de fetchAll");
                       ("value", VArr [])])); reflexivity.
Defined.

(** ** What every descriptor carries *)

Lemma ensures_lift {A} (w : world) (o : outcome A) (Q : A -> Prop) :
  (forall a, o = Ok a -> Q a) -> ensures w (lift o) Q.
Proof.
  intros H c a c'. unfold lift. destruct o as [x | e |]; cbn [obind]; intros E;
    try discriminate.
  injection E as <- _. now apply H.
Qed.

Lemma populateTemplate_some (data : list (string * string)) :
  forall t r, populateTemplate (Some t) data = Ok r -> r <> None.
Proof.
  induction data as [|[key value] rest IH]; intros t r; cbn [populateTemplate].
  - intros H. injection H as <-. discriminate.
  - destruct (RegExp_literal key); cbn [obind]; try discriminate. apply IH.
Qed.

Lemma populateTemplate_none (key value : string) (rest : list (string * string))
    (r : option string) :
  populateTemplate None ((key, value) :: rest) <> Ok r.
Proof.
  cbn [populateTemplate]. destruct (RegExp_literal key); cbn [obind]; discriminate.
Qed.

Lemma generateTestCode_code (func : FunctionInfo) (testType : string) (i : nat) (w : world) :
  ensures w (generateTestCode func testType i) (fun code => code <> None).
Proof.
  unfold generateTestCode.
  eapply ensures_bind; [apply ensures_true |]. intros templates _.
  destruct (String.eqb testType "basic").
  { eapply ensures_bind; [apply ensures_true |]. intros inputData _.
    apply ensures_lift. intros r.
    destruct (templates !! "unit") as [t|].
    - apply populateTemplate_some.
    - intros H. now apply populateTemplate_none in H. }
  destruct (String.eqb testType "async").
  { eapply ensures_bind; [apply ensures_true |]. intros inputData _.
    apply ensures_ret. discriminate. }
  destruct (String.eqb testType "invalid_param").
  { eapply ensures_bind; [apply ensures_true |]. intros param _.
    apply ensures_ret. discriminate. }
  apply ensures_ret. discriminate.
Qed.

Ltac descriptor_fields :=
  unfold descriptor_wf, kind_ok;
  cbn [analysis_id status priority test_type test_code];
  repeat split;
  first [ reflexivity
        | assumption
        | discriminate
        | now left
        | now (right; left)
        | now (right; right)
        | intros Hkind; first [reflexivity | now destruct Hkind] ].

Lemma calculatePriority_range (func : FunctionInfo) :
  calculatePriority func = priorities_LOW \/ calculatePriority func = priorities_MEDIUM
  \/ calculatePriority func = priorities_HIGH.
Proof.
  unfold calculatePriority.
  destruct (10 <=? f_complexity func)%Z; [now (right; right) |].
  destruct (5 <=? f_complexity func)%Z; [now (right; left) | now left].
Qed.

Lemma param_tests_wf (func : FunctionInfo) (analysisId : jsval) (w : world)
    (remaining : list ParamInfo) :
  forall i, ensures w (param_tests func analysisId remaining i)
              (Forall (descriptor_wf analysisId)).
Proof.
  induction remaining as [|param rest IH]; intros i; cbn [param_tests].
  - apply ensures_ret. constructor.
  - eapply ensures_bind; [apply ensures_true |]. intros valid_input _.
    eapply ensures_bind; [apply ensures_true |]. intros valid_expected _.
    eapply ensures_bind; [apply generateTestCode_code |]. intros valid_code Hvalid.
    eapply ensures_bind; [apply ensures_true |]. intros invalid_input _.
    eapply ensures_bind; [apply generateTestCode_code |]. intros invalid_code Hinvalid.
    eapply ensures_bind; [apply IH |]. intros more Hmore.
    apply ensures_ret. constructor; [descriptor_fields |].
    constructor; [descriptor_fields | exact Hmore].
Qed.

Lemma generateFunctionTests_wf (func : FunctionInfo) (analysisId : jsval) (w : world) :
  ensures w (generateFunctionTests func analysisId) (Forall (descriptor_wf analysisId)).
Proof.
  unfold generateFunctionTests.
  eapply ensures_bind; [apply ensures_true |]. intros basic_input _.
  eapply ensures_bind; [apply ensures_true |]. intros basic_expected _.
  eapply ensures_bind; [apply generateTestCode_code |]. intros basic_code Hbasic.
  eapply ensures_bind; [apply param_tests_wf |]. intros per_param Hper.
  eapply ensures_bind with (P := Forall (descriptor_wf analysisId)).
  { destruct (0 <? List.length (f_params func))%nat.
    - eapply ensures_bind; [apply ensures_true |]. intros null_input _.
      eapply ensures_bind; [apply generateTestCode_code |]. intros null_code Hnull.
      apply ensures_ret. constructor; [descriptor_fields | constructor].
    - apply ensures_ret. constructor. }
  intros nullTests Hnulls.
  eapply ensures_bind with (P := Forall (descriptor_wf analysisId)).
  { destruct (f_async func).
    - eapply ensures_bind; [apply ensures_true |]. intros async_input _.
      eapply ensures_bind; [apply ensures_true |]. intros async_expected _.
      eapply ensures_bind; [apply generateTestCode_code |]. intros async_code_ Hasync.
      apply ensures_ret. constructor; [descriptor_fields | constructor].
    - apply ensures_ret. constructor. }
  intros asyncTests Hasyncs.
  apply ensures_ret. constructor.
  - unfold descriptor_wf, kind_ok.
    cbn [analysis_id status priority test_type test_code].
    repeat split; try reflexivity; try assumption.
    + apply calculatePriority_range.
    + now left.
    + intros Hkind. now destruct Hkind.
  - apply Forall_app. split; [exact Hper |]. apply Forall_app. now split.
Qed.

Lemma all_function_tests_wf (analysisId : jsval) (w : world) (funcs : list FunctionInfo) :
  ensures w (all_function_tests funcs analysisId) (Forall (descriptor_wf analysisId)).
Proof.
  induction funcs as [|func rest IH]; cbn [all_function_tests].
  - apply ensures_ret. constructor.
  - eapply ensures_bind; [apply generateFunctionTests_wf |]. intros functionTests Hf.
    eapply ensures_bind; [apply IH |]. intros more Hmore.
    apply ensures_ret. apply Forall_app. now split.
Qed.

Lemma method_tests_wf (cls : ClassInfo) (analysisId : jsval) (methods : list MethodInfo) :
  Forall (descriptor_wf analysisId) (method_tests cls analysisId methods).
Proof.
  induction methods as [|method rest IH]; cbn [method_tests]; [constructor |].
  destruct (is_constructor method); [exact IH |].
  constructor; [descriptor_fields | exact IH].
Qed.

Lemma class_tests_wf (analysisId : jsval) (clss : list ClassInfo) :
  Forall (descriptor_wf analysisId)
    (concat (map (fun cls => generateClassTests cls analysisId) clss)).
Proof.
  induction clss as [|cls rest IH]; cbn [map concat]; [constructor |].
  apply Forall_app. split; [| exact IH].
  unfold generateClassTests. constructor; [descriptor_fields | apply method_tests_wf].
Qed.

Lemma conditional_tests_wf (analysisId : jsval) (conds : list ConditionalInfo) :
  forall i, Forall (descriptor_wf analysisId)
              (generateConditionalTests_from conds analysisId i).
Proof.
  induction conds as [|conditional rest IH]; intros i; cbn [generateConditionalTests_from];
    [constructor |].
  constructor; [descriptor_fields |]. constructor; [descriptor_fields | apply IH].
Qed.

Lemma loop_tests_wf (analysisId : jsval) (ls : list LoopInfo) :
  forall i, Forall (descriptor_wf analysisId) (generateLoopTests_from ls analysisId i).
Proof.
  induction ls as [|loop rest IH]; intros i; cbn [generateLoopTests_from]; [constructor |].
  constructor; [descriptor_fields |]. constructor; [descriptor_fields | apply IH].
Qed.

(** X18.  Every descriptor that [generateTestCases] returns carries the
    analysis id it was given, the status [generated], a priority of 1, 2 or 3,
    one of the kinds [unit], [edge_case] and [negative] (never [integration])
    and a test code; the descriptors of kind [edge_case] and [negative] all
    have the priority 3. *)
Theorem descriptors_well_formed (analysis : Analysis) (analysisId : jsval) (w : world)
    (c c' : counters) (tests : list TestCase)
    (Hrun : generateTestCases analysis analysisId w c = Ok (tests, c')) :
  Forall (descriptor_wf analysisId) tests.
Proof.
  unfold generateTestCases in Hrun. apply rethrow_not_ok in Hrun.
  apply bind_ok in Hrun. destruct Hrun as (functionTests & c1 & Hf & Hret).
  apply all_function_tests_wf in Hf. unfold ret in Hret. injection Hret as <- _.
  apply Forall_app. split; [exact Hf |].
  apply Forall_app. split; [apply class_tests_wf |].
  apply Forall_app. split; [apply conditional_tests_wf | apply loop_tests_wf].
Qed.

Lemma descriptors_well_formed_witness :
  exists tests c',
    generateTestCases (analysis_of [add_info]) VNull offline_world start = Ok (tests, c')
    /\ List.length tests = 6
    /\ Forall (descriptor_wf VNull) tests.
Proof.
  destruct (generateTestCases (analysis_of [add_info]) VNull offline_world start)
    as [[tests c'] | e |] eqn:E; try (vm_compute in E; discriminate E).
  exists tests, c'. split; [reflexivity |]. split.
  - vm_compute in E. injection E as <- _. reflexivity.
  - exact (descriptors_well_formed _ _ _ _ _ _ E).
Defined.

(** ** Template queries and random draws *)

Lemma spends_bind {A B} (w : world) (m : M A) (k : A -> M B) (q1 f1 q2 f2 : nat) :
  spends w m q1 f1 -> (forall a, spends w (k a) q2 f2) ->
  spends w (bind m k) (q1 + q2) (f1 + f2).
Proof.
  intros Hm Hk c b c' H. apply bind_ok in H. destruct H as (a & c1 & E1 & E2).
  apply Hm in E1. apply Hk in E2. lia.
Qed.

Lemma spends_ret {A} (w : world) (a : A) : spends w (ret a) 0 0.
Proof. intros c x c' H. unfold ret in H. injection H as _ <-. lia. Qed.

Lemma spends_lift {A} (w : world) (o : outcome A) : spends w (lift o) 0 0.
Proof.
  intros c x c'. unfold lift. destruct o; cbn [obind]; intros H; try discriminate.
  injection H as _ <-. lia.
Qed.

Lemma spends_as {A} (w : world) (m : M A) (q f q' f' : nat) :
  spends w m q f -> q = q' -> f = f' -> spends w m q' f'.
Proof. now intros H <- <-. Qed.

Lemma getTestTemplates_spends (w : world) : spends w getTestTemplates 1 0.
Proof.
  apply (spends_bind w query_templates _ 1 0 0 0).
  - intros c a c' H. unfold query_templates in H. injection H as _ <-. cbn. lia.
  - intros a. apply spends_ret.
Qed.

Lemma generateTestCode_spends (func : FunctionInfo) (testType : string) (i : nat)
    (w : world) :
  spends w (generateTestCode func testType i) 1 0.
Proof.
  unfold generateTestCode.
  apply (spends_bind w getTestTemplates _ 1 0 0 0); [apply getTestTemplates_spends |].
  intros templates.
  destruct (String.eqb testType "basic").
  { apply (spends_bind w _ _ 0 0 0 0); [apply spends_lift |]. intros d. apply spends_lift. }
  destruct (String.eqb testType "async").
  { apply (spends_bind w _ _ 0 0 0 0); [apply spends_lift |]. intros d. apply spends_ret. }
  destruct (String.eqb testType "invalid_param").
  { apply (spends_bind w _ _ 0 0 0 0); [apply spends_lift |]. intros d. apply spends_ret. }
  apply spends_ret.
Qed.

Lemma generateValidParamData_spends (params : list ParamInfo) (i : nat) (w : world) :
  spends w (generateValidParamData params i) 0 0.
Proof.
  unfold generateValidParamData.
  apply (spends_bind w _ _ 0 0 0 0); [apply spends_lift |]. intros inputData.
  apply (spends_bind w _ _ 0 0 0 0); [apply spends_lift |]. intros targetParam.
  apply (spends_bind w read_clock _ 0 0 0 0).
  { intros c a c' H. unfold read_clock in H. injection H as _ <-. cbn. lia. }
  intros now.
  apply (spends_bind w _ _ 0 0 0 0); [apply spends_lift |]. intros v. apply spends_ret.
Qed.

Lemma generateNullParamData_spends (w : world) (params : list ParamInfo) :
  forall acc, spends w (generateNullParamData_from params acc) 0 (List.length params).
Proof.
  induction params as [|p rest IH]; intros acc; cbn [generateNullParamData_from List.length].
  - apply spends_ret.
  - apply (spends_bind w Math_random_above_half _ 0 1 0 (List.length rest)).
    + intros c a c' H. unfold Math_random_above_half in H. injection H as _ <-. cbn. lia.
    + intros above. apply IH.
Qed.

Lemma param_tests_spends (func : FunctionInfo) (analysisId : jsval) (w : world)
    (remaining : list ParamInfo) :
  forall i, spends w (param_tests func analysisId remaining i) (2 * List.length remaining) 0.
Proof.
  induction remaining as [|param rest IH]; intros i; cbn [param_tests List.length].
  - apply spends_ret.
  - eapply spends_as.
    + apply spends_bind; [apply generateValidParamData_spends |]. intros valid_input.
      apply spends_bind; [apply spends_lift |]. intros valid_expected.
      apply spends_bind; [apply generateTestCode_spends |]. intros valid_code.
      apply spends_bind; [apply spends_lift |]. intros invalid_input.
      apply spends_bind; [apply generateTestCode_spends |]. intros invalid_code.
      apply spends_bind; [apply IH |]. intros more. apply spends_ret.
    + lia.
    + lia.
Qed.

Lemma generateFunctionTests_spends (func : FunctionInfo) (analysisId : jsval) (w : world) :
  spends w (generateFunctionTests func analysisId) (function_count func)
    (List.length (f_params func)).
Proof.
  unfold generateFunctionTests, function_count.
  eapply spends_as.
  - apply spends_bind; [apply spends_lift |]. intros basic_input.
    apply spends_bind; [apply spends_lift |]. intros basic_expected.
    apply spends_bind; [apply generateTestCode_spends |]. intros basic_code.
    apply spends_bind; [apply param_tests_spends |]. intros per_param.
    apply (spends_bind w _ _
             (if (0 <? List.length (f_params func))%nat then 1 else 0)
             (List.length (f_params func))).
    { destruct (f_params func) as [|p0 ps] eqn:Eparams; cbn [List.length Nat.ltb Nat.leb].
      - apply spends_ret.
      - eapply spends_as.
        + apply spends_bind; [apply generateNullParamData_spends |]. intros null_input.
          apply spends_bind; [apply generateTestCode_spends |]. intros null_code.
          apply spends_ret.
        + lia.
        + cbn [List.length]. lia. }
    intros nullTests.
    apply (spends_bind w _ _ (if f_async func then 1 else 0) 0).
    { destruct (f_async func).
      - eapply spends_as.
        + apply spends_bind; [apply spends_lift |]. intros async_input.
          apply spends_bind; [apply spends_lift |]. intros async_expected.
          apply spends_bind; [apply generateTestCode_spends |]. intros async_code_.
          apply spends_ret.
        + lia.
        + lia.
      - apply spends_ret. }
    intros asyncTests. apply spends_ret.
  - lia.
  - lia.
Qed.

Lemma all_function_tests_spends (analysisId : jsval) (w : world) (funcs : list FunctionInfo) :
  spends w (all_function_tests funcs analysisId)
    (list_sum (map function_count funcs))
    (list_sum (map (fun f => List.length (f_params f)) funcs)).
Proof.
  induction funcs as [|func rest IH]; cbn [all_function_tests].
  - apply spends_ret.
  - eapply spends_as.
    + apply spends_bind; [apply generateFunctionTests_spends |]. intros functionTests.
      apply spends_bind; [apply IH |]. intros more. apply spends_ret.
    + unfold list_sum. cbn [map fold_right]. lia.
    + unfold list_sum. cbn [map fold_right]. lia.
Qed.

(** X19.  A run of [generateTestCases] that returns has queried the template
    table once for every descriptor it derives from a function, the templates
    being fetched again for each test code, and not at all for classes,
    conditionals and loops; it has called [Math.random] once for each
    parameter of each function. *)
Theorem one_template_query_per_function_descriptor (analysis : Analysis)
    (analysisId : jsval) (w : world) (c c' : counters) (tests : list TestCase)
    (Hrun : generateTestCases analysis analysisId w c = Ok (tests, c')) :
  queries c' = queries c + list_sum (map function_count (functions analysis))
  /\ flips c'
     = flips c + list_sum (map (fun f => List.length (f_params f)) (functions analysis)).
Proof.
  unfold generateTestCases in Hrun. apply rethrow_not_ok in Hrun.
  apply bind_ok in Hrun. destruct Hrun as (functionTests & c1 & Hf & Hret).
  apply all_function_tests_spends in Hf. unfold ret in Hret. injection Hret as _ <-.
  exact Hf.
Qed.

Lemma one_template_query_per_function_descriptor_witness :
  exists tests c',
    generateTestCases (analysis_of [add_info]) VNull offline_world start = Ok (tests, c')
    /\ queries c' = 6 /\ flips c' = 2.
Proof.
  destruct (generateTestCases (analysis_of [add_info]) VNull offline_world start)
    as [[tests c'] | e |] eqn:E; try (vm_compute in E; discriminate E).
  exists tests, c'. split; [reflexivity |].
  exact (one_template_query_per_function_descriptor _ _ _ _ _ _ E).
Defined.

(** ** The template table *)

Lemma templates_of_rows_lookup (rows : list (string * string)) (key : string) :
  templates_of_rows (Some rows) !! key = assoc key (rev rows).
Proof.
  unfold templates_of_rows.
  induction rows as [|[k v] rows IH] using rev_ind.
  - cbn. apply lookup_empty.
  - rewrite fold_left_app, rev_app_distr. cbn [fold_left rev app fst snd assoc].
    rewrite lookup_insert.
    destruct (decide (k = key)) as [-> | Hne].
    + now rewrite String.eqb_refl.
    + destruct (String.eqb_spec k key); [congruence | exact IH].
Qed.

(** X20.  When the query succeeds the unit template is the one of the last row
    of test type [unit] that it returns, and there is none when it returns no
    such row, also when the table is empty: the built-in template is used only
    when the query is rejected. *)
Theorem template_of_last_row :
  (forall rows, templates_of_rows (Some rows) !! "unit" = assoc "unit" (rev rows))
  /\ (forall rows value,
        templates_of_rows (Some (rows ++ [("unit", value)])%list) !! "unit" = Some value)
  /\ templates_of_rows (Some []) !! "unit" = None
  /\ templates_of_rows None !! "unit" = Some default_unit_template.
Proof.
  split; [intros rows; apply templates_of_rows_lookup |]. split; [| split].
  - intros rows value. rewrite templates_of_rows_lookup, rev_app_distr. reflexivity.
  - reflexivity.
  - reflexivity.
Qed.

(** ** A query that returns no unit template *)

Lemma assoc_none {A} (key : string) (l : list (string * A)) :
  Forall (fun row => fst row <> key) l -> assoc key l = None.
Proof.
  induction 1 as [|[k x] r Hk _ IH]; cbn [assoc]; [reflexivity |].
  cbn [fst] in Hk. destruct (String.eqb_spec k key); [congruence | exact IH].
Qed.

Lemma basic_code_without_template (func : FunctionInfo) (w : world) (c : counters)
    (inputData : list (string * jsval)) :
  generateInputData (f_params func) = Ok inputData ->
  unit_template w (queries c) = None ->
  generateTestCode func "basic" 0 w c = Throw (cannot_read "replace").
Proof.
  intros Hin Hunit. unfold generateTestCode, getTestTemplates, bind, query_templates, ret, lift.
  cbn [String.eqb Ascii.eqb Bool.eqb]. rewrite Hin. cbn [obind].
  unfold unit_template in Hunit. rewrite Hunit. reflexivity.
Qed.

(** X21.  When the template query succeeds without a row of test type [unit],
    as for an empty table, the basic test code of the first function raises a
    TypeError and [generateTestCases] fails for every analysis that has a
    function: the built-in templates are the fallback of a rejected query
    only. *)
Theorem missing_unit_row_fails (analysis : Analysis) (analysisId : jsval) (w : world)
    (c : counters) (func : FunctionInfo) (others : list FunctionInfo)
    (rows : list (string * string))
    (Hfirst : functions analysis = func :: others)
    (Hnamed : named func = true)
    (Hquery : db_rows w (queries c) = Some rows)
    (Hrows : Forall (fun row => fst row <> "unit") rows) :
  generateTestCases analysis analysisId w c = Throw missing_unit_template.
Proof.
  assert (Hunit : unit_template w (queries c) = None).
  { unfold unit_template. rewrite Hquery, templates_of_rows_lookup.
    apply assoc_none. apply Forall_rev. exact Hrows. }
  assert (Hparams : forallb param_named (f_params func) = true).
  { unfold named in Hnamed. now apply andb_prop in Hnamed as [_ H]. }
  destruct (generateInputData_ok _ Hparams) as (inputData & Hin).
  destruct (generateExpectedOutput_ok func false Hnamed) as (expected & Hexp).
  unfold generateTestCases. rewrite Hfirst. cbn [all_function_tests].
  unfold generateFunctionTests.
  unfold bind at 1 2 3 4 5. unfold lift at 1 2. rewrite Hin, Hexp. cbn [obind].
  rewrite (basic_code_without_template func w c inputData Hin Hunit).
  reflexivity.
Qed.

Lemma missing_unit_row_fails_witness :
  generateTestCases (analysis_of [add_info]) VNull empty_table_world start
  = Throw missing_unit_template.
Proof.
  apply (missing_unit_row_fails (analysis_of [add_info]) VNull empty_table_world start
           add_info [] []); [reflexivity | reflexivity | reflexivity | constructor].
Defined.

(** ** Bindings that do not occur, and the order of the bindings *)

Lemma includes_cons_false (sub : string) (c : ascii) (r : string) :
  includes sub (String c r) = false ->
  starts_with sub (String c r) = false /\ includes sub r = false.
Proof.
  cbn [includes]. destruct (starts_with sub (String c r)); [discriminate | now split].
Qed.

Lemma replace_from_absent (pat value : string) (s : string) :
  forall before, includes pat s = false -> replace_from pat value before 0 s = s.
Proof.
  induction s as [|c r IH]; intros before Hno; [reflexivity |].
  apply includes_cons_false in Hno. destruct Hno as [Hhere Hrest].
  rewrite replace_from_pass by exact Hhere. now rewrite IH.
Qed.

Lemma starts_with_shorter (a b s : string) :
  starts_with (a ++ b) s = true -> starts_with a s = true.
Proof.
  revert s. induction a as [|x a IH]; intros s; [reflexivity |].
  cbn [append starts_with]. destruct s as [|y s]; [discriminate |].
  intros H. apply andb_prop in H. destruct H as [Hx Hr].
  rewrite Hx. cbn [andb]. now apply IH.
Qed.

Lemma includes_shorter (a b s : string) :
  includes (a ++ b) s = true -> includes a s = true.
Proof.
  induction s as [|c r IH]; intros H.
  - apply includes_inv in H. destruct H as [H | (c & r & E & _)]; [| discriminate].
    apply includes_prefix. now apply starts_with_shorter with (b := b).
  - apply includes_inv in H. destruct H as [H | (c' & r' & E & H)].
    + apply includes_prefix. now apply starts_with_shorter with (b := b).
    + injection E as <- <-. apply includes_cons. now apply IH.
Qed.

Lemma populate_absent (t : string) (data : list (string * string)) :
  forallb (absent_from t) data = true -> populateTemplate (Some t) data = Ok (Some t).
Proof.
  induction data as [|[key value] rest IH]; [reflexivity |].
  cbn [forallb populateTemplate]. intros H. apply andb_prop in H. destruct H as [Hk Hrest].
  unfold absent_from in Hk. cbn [fst] in Hk. apply andb_prop in Hk. destruct Hk as [Hplain Hno].
  unfold RegExp_literal. rewrite Hplain. cbn [obind]. unfold replace_all.
  rewrite replace_from_absent; [now apply IH |].
  now destruct (includes (placeholder key) t).
Qed.

Lemma populate_no_token (t : string) (data : list (string * string)) :
  includes "{{" t = false -> forallb (fun kv => plain_key (fst kv)) data = true ->
  populateTemplate (Some t) data = Ok (Some t).
Proof.
  intros Hno Hkeys. apply populate_absent.
  rewrite forallb_forall in *. intros kv Hin. unfold absent_from.
  rewrite (Hkeys kv Hin). cbn [andb].
  destruct (includes (placeholder (fst kv)) t) eqn:E; [| reflexivity].
  unfold placeholder in E. apply includes_shorter in E. congruence.
Qed.

(** X22.  A binding whose placeholder does not occur in the text leaves the
    text as it is, whatever its value, [$] patterns included; in particular a
    text without [{{] is returned unchanged for any bindings. *)
Theorem absent_bindings_change_nothing (t : string) (data : list (string * string)) :
  (forallb (absent_from t) data = true -> populateTemplate (Some t) data = Ok (Some t))
  /\ (includes "{{" t = false -> forallb (fun kv => plain_key (fst kv)) data = true ->
      populateTemplate (Some t) data = Ok (Some t)).
Proof.
  split; [apply populate_absent | apply populate_no_token].
Qed.

Lemma absent_bindings_change_nothing_witness :
  populateTemplate (Some default_edge_case_template)
    [("assertion", "$&"); ("expectedOutput", "{{functionName}}")]
  = Ok (Some default_edge_case_template)
  /\ populateTemplate (Some "// no placeholders") [("functionName", "$'")]
     = Ok (Some "// no placeholders").
Proof.
  split.
  - destruct (absent_bindings_change_nothing default_edge_case_template
                [("assertion", "$&"); ("expectedOutput", "{{functionName}}")]) as [H _].
    apply H. reflexivity.
  - destruct (absent_bindings_change_nothing "// no placeholders" [("functionName", "$'")])
      as [_ H].
    apply H; reflexivity.
Defined.

Lemma assoc_In {A} (key : string) (l : list (string * A)) (x : A) :
  assoc key l = Some x -> In (key, x) l.
Proof.
  induction l as [|[k y] r IH]; cbn [assoc In]; [discriminate |].
  destruct (String.eqb_spec k key) as [-> | _].
  - intros H. injection H as <-. now left.
  - intros H. right. now apply IH.
Qed.

Lemma In_assoc {A} (key : string) (l : list (string * A)) (x : A) :
  List.NoDup (map fst l) -> In (key, x) l -> assoc key l = Some x.
Proof.
  induction l as [|[k y] r IH]; cbn [assoc In map fst]; [tauto |].
  intros Hnd [E | Hin].
  - injection E as -> ->. now rewrite String.eqb_refl.
  - destruct (String.eqb_spec k key) as [-> | _].
    + exfalso. apply List.NoDup_cons_iff in Hnd. destruct Hnd as [Hfresh _]. apply Hfresh.
      change key with (fst (key, x)). now apply in_map.
    + apply IH; [| exact Hin]. now apply List.NoDup_cons_iff in Hnd.
Qed.

Lemma assoc_permutation {A} (key : string) (l l' : list (string * A)) :
  List.NoDup (map fst l) -> Permutation l l' -> assoc key l' = assoc key l.
Proof.
  intros Hnd Hperm.
  assert (Hnd' : List.NoDup (map fst l')).
  { eapply Permutation_NoDup; [| exact Hnd]. now apply Permutation_map. }
  destruct (assoc key l) as [x|] eqn:E.
  - apply In_assoc; [exact Hnd' |]. eapply Permutation_in; [exact Hperm |].
    now apply assoc_In.
  - destruct (assoc key l') as [x'|] eqn:E'; [| reflexivity].
    apply assoc_In in E'. apply Permutation_sym in Hperm.
    apply (Permutation_in _ Hperm) in E'. apply (In_assoc _ _ _ Hnd) in E'. congruence.
Qed.

Lemma render_permutation (data data' : list (string * string)) (segs : list segment) :
  List.NoDup (map fst data) -> Permutation data data' ->
  render_segments data' segs = render_segments data segs.
Proof.
  intros Hnd Hperm. induction segs as [|[s | key] rest IH]; cbn [render_segments].
  - reflexivity.
  - now rewrite IH.
  - now rewrite IH, (assoc_permutation key data data' Hnd Hperm).
Qed.

(** X23.  For a template cut into inert text and identifier-like placeholders
    and bindings with distinct names whose values are inert and free of [$],
    the rendered text does not depend on the order in which the bindings are
    listed. *)
Theorem binding_order_is_irrelevant (segs : list segment) (data data' : list (string * string))
    (Hsegs : forallb segment_ok segs = true)
    (Hdata : forallb binding_ok data = true)
    (Hnd : List.NoDup (map fst data))
    (Hperm : Permutation data data') :
  populateTemplate (Some (template_text segs)) data'
  = populateTemplate (Some (template_text segs)) data.
Proof.
  assert (Hdata' : forallb binding_ok data' = true).
  { rewrite forallb_forall in *. intros kv Hin. apply Hdata.
    eapply Permutation_in; [apply Permutation_sym; exact Hperm | exact Hin]. }
  rewrite !populate_segments by assumption.
  now rewrite (render_permutation data data' segs Hnd Hperm).
Qed.

Lemma binding_order_is_irrelevant_witness :
  populateTemplate (Some default_unit_template) (rev add_bindings)
  = populateTemplate (Some default_unit_template) add_bindings.
Proof.
  apply (binding_order_is_irrelevant unit_segments add_bindings (rev add_bindings)).
  - reflexivity.
  - reflexivity.
  - repeat constructor; cbn; intuition discriminate.
  - apply Permutation_rev.
Defined.

Lemma binding_ok_plain (data : list (string * string)) :
  forallb binding_ok data = true -> forallb (fun kv => plain_key (fst kv)) data = true.
Proof.
  rewrite !forallb_forall. intros H kv Hin. specialize (H kv Hin).
  unfold binding_ok in H. apply andb_prop in H. destruct H as [H _].
  now apply andb_prop in H.
Qed.

(** X24.  Rendering is idempotent where the renderer is a plain substitution:
    for a template cut into inert text and identifier-like placeholders that
    are all bound, with values that are inert and free of [$], rendering the
    rendered text again with the same bindings changes nothing. *)
Theorem rendering_twice_is_rendering_once (segs : list segment)
    (data : list (string * string))
    (Hsegs : forallb segment_ok segs = true)
    (Hdata : forallb binding_ok data = true)
    (Hbound : forallb (hole_bound data) segs = true) :
  exists rendered,
    populateTemplate (Some (template_text segs)) data = Ok (Some rendered)
    /\ populateTemplate (Some rendered) data = Ok (Some rendered).
Proof.
  exists (render_segments data segs). split; [now apply populate_segments |].
  apply populate_no_token; [| now apply binding_ok_plain].
  apply inert_no_token. now apply render_inert.
Qed.

Lemma rendering_twice_is_rendering_once_witness :
  exists rendered,
    populateTemplate (Some default_unit_template) add_bindings = Ok (Some rendered)
    /\ populateTemplate (Some rendered) add_bindings = Ok (Some rendered).
Proof.
  exact (rendering_twice_is_rendering_once unit_segments add_bindings eq_refl eq_refl eq_refl).
Defined.

(** ** Parameters without a name *)

Lemma within_bind {A B} (w : world) (m : M A) (k : A -> M B) :
  within w m -> (forall a, within w (k a)) -> within w (bind m k).
Proof.
  intros Hm Hk c. unfold bind. specialize (Hm c).
  destruct (m w c) as [[a c1] | e |]; [apply Hk | discriminate | congruence].
Qed.

Lemma within_ret {A} (w : world) (a : A) : within w (ret a).
Proof. intros c. discriminate. Qed.

Lemma within_lift {A} (w : world) (o : outcome A) : o <> Beyond -> within w (lift o).
Proof. intros H c. unfold lift. destruct o; cbn [obind]; congruence. Qed.

Lemma generateSampleValueByName_within (x : option string) :
  generateSampleValueByName x <> Beyond.
Proof.
  destruct x as [s|]; [| discriminate].
  rewrite generateSampleValueByName_table. discriminate.
Qed.

Lemma generateInputData_from_within (params : list ParamInfo) :
  forall i acc, generateInputData_from params i acc <> Beyond.
Proof.
  induction params as [|p rest IH]; intros i acc; cbn [generateInputData_from];
    [discriminate |].
  destruct (String.eqb (p_type p) "identifier").
  - pose proof (generateSampleValueByName_within (p_name p)) as H.
    destruct (generateSampleValueByName (p_name p)); cbn [obind];
      [apply IH | discriminate | congruence].
  - destruct (String.eqb (p_type p) "default"); [apply IH |].
    destruct (String.eqb (p_type p) "rest"); apply IH.
Qed.

Lemma generateExpectedOutput_within (func : FunctionInfo) (isAsync : bool) :
  generateExpectedOutput func isAsync <> Beyond.
Proof.
  unfold generateExpectedOutput. destruct (f_name func); discriminate.
Qed.

Lemma populateTemplate_within (data : list (string * string)) :
  forallb (fun kv => plain_key (fst kv)) data = true ->
  forall t, populateTemplate t data <> Beyond.
Proof.
  induction data as [|[key value] rest IH]; intros Hkeys t; [discriminate |].
  cbn [forallb fst] in Hkeys. apply andb_prop in Hkeys. destruct Hkeys as [Hk Hrest].
  cbn [populateTemplate]. unfold RegExp_literal. rewrite Hk. cbn [obind].
  destruct t as [s|]; [now apply IH | discriminate].
Qed.

Lemma generateTestCode_within (func : FunctionInfo) (testType : string) (i : nat)
    (w : world) :
  within w (generateTestCode func testType i).
Proof.
  unfold generateTestCode. apply within_bind; [intros c; discriminate |]. intros templates.
  destruct (String.eqb testType "basic").
  { apply within_bind; [apply within_lift, generateInputData_from_within |].
    intros inputData. apply within_lift. now apply populateTemplate_within. }
  destruct (String.eqb testType "async").
  { apply within_bind; [apply within_lift, generateInputData_from_within |].
    intros inputData. apply within_ret. }
  destruct (String.eqb testType "invalid_param").
  { apply within_bind; [| intros param; apply within_ret].
    apply within_lift. unfold param_at. destruct (nth_error _ _); discriminate. }
  apply within_ret.
Qed.

Lemma generateValidParamData_within (params : list ParamInfo) (i : nat) (w : world) :
  within w (generateValidParamData params i).
Proof.
  unfold generateValidParamData.
  apply within_bind; [apply within_lift, generateInputData_from_within |]. intros inputData.
  apply within_bind.
  { apply within_lift. unfold param_at. destruct (nth_error _ _); discriminate. }
  intros targetParam. apply within_bind; [intros c; discriminate |]. intros now.
  apply within_bind; [| intros v; apply within_ret].
  apply within_lift. unfold generateHighQualityValue.
  destruct (p_name targetParam) as [name|]; [| discriminate].
  destruct (generateHighQualityValue_text now name) as (text & E).
  unfold generateHighQualityValue in E. rewrite E. discriminate.
Qed.

Lemma generateInvalidParamData_within (params : list ParamInfo) (i : nat) :
  generateInvalidParamData params i <> Beyond.
Proof.
  unfold generateInvalidParamData, generateInputData.
  pose proof (generateInputData_from_within params 0 []) as H.
  destruct (generateInputData_from params 0 []); cbn [obind]; [| discriminate | congruence].
  unfold param_at. destruct (nth_error _ _); discriminate.
Qed.

Lemma generateNullParamData_within (w : world) (params : list ParamInfo) :
  forall acc, within w (generateNullParamData_from params acc).
Proof.
  induction params as [|p rest IH]; intros acc; cbn [generateNullParamData_from].
  - apply within_ret.
  - apply within_bind; [intros c; discriminate | intros above; apply IH].
Qed.

Lemma param_tests_within (func : FunctionInfo) (analysisId : jsval) (w : world)
    (remaining : list ParamInfo) :
  forall i, within w (param_tests func analysisId remaining i).
Proof.
  induction remaining as [|param rest IH]; intros i; cbn [param_tests].
  - apply within_ret.
  - apply within_bind; [apply generateValidParamData_within |]. intros valid_input.
    apply within_bind; [apply within_lift, generateExpectedOutput_within |].
    intros valid_expected.
    apply within_bind; [apply generateTestCode_within |]. intros valid_code.
    apply within_bind; [apply within_lift, generateInvalidParamData_within |].
    intros invalid_input.
    apply within_bind; [apply generateTestCode_within |]. intros invalid_code.
    apply within_bind; [apply IH |]. intros more. apply within_ret.
Qed.

Lemma generateFunctionTests_within (func : FunctionInfo) (analysisId : jsval) (w : world) :
  within w (generateFunctionTests func analysisId).
Proof.
  unfold generateFunctionTests.
  apply within_bind; [apply within_lift, generateInputData_from_within |].
  intros basic_input.
  apply within_bind; [apply within_lift, generateExpectedOutput_within |].
  intros basic_expected.
  apply within_bind; [apply generateTestCode_within |]. intros basic_code.
  apply within_bind; [apply param_tests_within |]. intros per_param.
  apply within_bind.
  { destruct (0 <? List.length (f_params func))%nat; [| apply within_ret].
    apply within_bind; [apply generateNullParamData_within |]. intros null_input.
    apply within_bind; [apply generateTestCode_within |]. intros null_code.
    apply within_ret. }
  intros nullTests. apply within_bind; [| intros asyncTests; apply within_ret].
  destruct (f_async func); [| apply within_ret].
  apply within_bind; [apply within_lift, generateInputData_from_within |].
  intros async_input.
  apply within_bind; [apply within_lift, generateExpectedOutput_within |].
  intros async_expected.
  apply within_bind; [apply generateTestCode_within |]. intros async_code_.
  apply within_ret.
Qed.

Lemma all_function_tests_within (analysisId : jsval) (w : world) (funcs : list FunctionInfo) :
  within w (all_function_tests funcs analysisId).
Proof.
  induction funcs as [|func rest IH]; cbn [all_function_tests]; [apply within_ret |].
  apply within_bind; [apply generateFunctionTests_within |]. intros functionTests.
  apply within_bind; [apply IH |]. intros more. apply within_ret.
Qed.

Lemma never_returns_bind_l {A B} (w : world) (m : M A) (k : A -> M B) :
  never_returns w m -> never_returns w (bind m k).
Proof.
  intros H. unfold never_returns. eapply ensures_bind; [exact H |]. intros a [].
Qed.

Lemma never_returns_bind_r {A B} (w : world) (m : M A) (k : A -> M B) :
  (forall a, never_returns w (k a)) -> never_returns w (bind m k).
Proof.
  intros H. unfold never_returns. eapply ensures_bind; [apply ensures_true |].
  intros a _. apply H.
Qed.

Lemma generateValidParamData_unnamed (params : list ParamInfo) (i : nat) (p : ParamInfo)
    (w : world) :
  nth_error params i = Some p -> p_name p = None ->
  never_returns w (generateValidParamData params i).
Proof.
  intros Hp Hname. unfold generateValidParamData.
  apply never_returns_bind_r. intros inputData.
  unfold never_returns. eapply ensures_bind with (P := fun q => q = p).
  { apply ensures_lift. unfold param_at. rewrite Hp. intros a H. now injection H as <-. }
  intros q ->. apply never_returns_bind_r. intros now.
  apply never_returns_bind_l. intros c a c'. unfold lift. now rewrite Hname.
Qed.

Lemma param_tests_unnamed (func : FunctionInfo) (analysisId : jsval) (w : world)
    (remaining : list ParamInfo) :
  forall i,
    (forall j q, nth_error remaining j = Some q -> nth_error (f_params func) (i + j) = Some q) ->
    existsb (fun p => negb (param_named p)) remaining = true ->
    never_returns w (param_tests func analysisId remaining i).
Proof.
  induction remaining as [|param rest IH]; intros i Hat Hun; [discriminate |].
  cbn [param_tests]. cbn [existsb] in Hun. apply orb_prop in Hun.
  destruct Hun as [Hhead | Hrest].
  - apply never_returns_bind_l.
    apply generateValidParamData_unnamed with (p := param).
    + specialize (Hat 0 param eq_refl). now rewrite Nat.add_0_r in Hat.
    + unfold param_named in Hhead. now destruct (p_name param).
  - do 5 (apply never_returns_bind_r; intros ?).
    apply never_returns_bind_l. apply IH; [| exact Hrest].
    intros j q Hq. specialize (Hat (S j) q Hq). now rewrite Nat.add_succ_r in Hat.
Qed.

Lemma generateFunctionTests_unnamed (func : FunctionInfo) (analysisId : jsval) (w : world) :
  has_unnamed func = true -> never_returns w (generateFunctionTests func analysisId).
Proof.
  intros Hun. unfold generateFunctionTests.
  do 3 (apply never_returns_bind_r; intros ?).
  apply never_returns_bind_l. apply param_tests_unnamed; [| exact Hun].
  intros j q Hq. exact Hq.
Qed.

Lemma all_function_tests_unnamed (analysisId : jsval) (w : world) (funcs : list FunctionInfo) :
  existsb has_unnamed funcs = true -> never_returns w (all_function_tests funcs analysisId).
Proof.
  induction funcs as [|func rest IH]; [discriminate |].
  cbn [existsb all_function_tests]. intros H. apply orb_prop in H. destruct H as [H | H].
  - apply never_returns_bind_l. now apply generateFunctionTests_unnamed.
  - apply never_returns_bind_r. intros functionTests.
    apply never_returns_bind_l. now apply IH.
Qed.

Lemma function_params_unnamed (params : list node) :
  forall infos,
    function_params params = Ok infos ->
    existsb pattern_target params = true ->
    existsb (fun p => negb (param_named p)) infos = true.
Proof.
  induction params as [|param rest IH]; intros infos; [discriminate |].
  cbn [function_params existsb].
  destruct (function_params rest) as [more | e |] eqn:Erest.
  - intros H Hpat.
    assert (Hinfo : exists info,
               infos = info :: more
               /\ (pattern_target param = true -> param_named info = false)).
    { unfold pattern_target, name_of_field, has_name in *.
      destruct (t_is "Identifier" param) eqn:Eid.
      - cbn [obind] in H. injection H as <-. eexists. split; [reflexivity |].
        unfold t_is in *. apply String.eqb_eq in Eid. rewrite Eid. discriminate.
      - destruct (t_is "AssignmentPattern" param) eqn:Eas.
        + destruct (child param "left") as [l|]; cbn [obind] in H; [| discriminate].
          injection H as <-. eexists. split; [reflexivity |].
          unfold t_is in *. apply String.eqb_eq in Eas. rewrite Eas.
          cbn [String.eqb Ascii.eqb Bool.eqb andb orb]. unfold param_named. cbn [p_name].
          rewrite orb_false_r. now destruct (str_prop l "name").
        + destruct (t_is "RestElement" param) eqn:Ere.
          * destruct (child param "argument") as [l|]; cbn [obind] in H; [| discriminate].
            injection H as <-. eexists. split; [reflexivity |].
            cbn [andb orb]. unfold param_named. cbn [p_name].
            now destruct (str_prop l "name").
          * cbn [obind] in H. injection H as <-. eexists. split; [reflexivity |].
            discriminate. }
    destruct Hinfo as (info & -> & Hinfo). cbn [existsb].
    apply orb_prop in Hpat. destruct Hpat as [Hhere | Hlater].
    + now rewrite (Hinfo Hhere).
    + rewrite (IH more eq_refl Hlater). apply orb_true_r.
  - match goal with
    | |- obind ?m _ = _ -> _ => destruct m; cbn [obind]; discriminate
    end.
  - match goal with
    | |- obind ?m _ = _ -> _ => destruct m; cbn [obind]; discriminate
    end.
Qed.

(** X25.  A default or rest parameter whose target is a pattern is recorded
    with the name [undefined], and [generateTestCases] fails for every
    analysis that holds a function with such a parameter, in every world: the
    descriptor for the valid value of that parameter lowercases the name. *)
Theorem unnamed_parameter_fails_synthesis :
  (forall path analysis a' type,
      extractFunctionInfo path analysis type = Ok a' ->
      existsb pattern_target (children_of path "params") = true ->
      exists fi,
        functions a' = (functions analysis ++ [fi])%list /\ has_unnamed fi = true)
  /\ (forall analysis analysisId w c,
        existsb has_unnamed (functions analysis) = true ->
        exists e, generateTestCases analysis analysisId w c = Throw e).
Proof.
  split.
  - intros path analysis a' type Hrec Hpat. unfold extractFunctionInfo in Hrec.
    destruct (function_params _) as [params | e |] eqn:Ep; cbn [obind] in Hrec;
      try discriminate.
    destruct (local_traverse path 1) as [lc | e |]; cbn [obind] in Hrec; try discriminate.
    injection Hrec as <-. eexists. split; [reflexivity |].
    unfold has_unnamed. cbn [f_params]. now apply (function_params_unnamed _ _ Ep).
  - intros analysis analysisId w c Hun. unfold generateTestCases.
    pose proof (all_function_tests_unnamed analysisId w _ Hun) as Hnever.
    pose proof (all_function_tests_within analysisId w (functions analysis) c) as Hwithin.
    unfold bind.
    destruct (all_function_tests (functions analysis) analysisId w c)
      as [[functionTests c1] | e |] eqn:E.
    + exfalso. exact (Hnever c functionTests c1 E).
    + eexists. reflexivity.
    + congruence.
Qed.

Lemma unnamed_parameter_fails_synthesis_witness :
  (exists fi,
      functions (push_function destructured_info (initial_analysis []))
      = (functions (initial_analysis []) ++ [fi])%list
      /\ has_unnamed fi = true)
  /\ exists e,
       generateTestCases (analysis_of [add_info; destructured_info]) VNull offline_world start
       = Throw e.
Proof.
  destruct unnamed_parameter_fails_synthesis as [Hrecorded Hfails].
  split.
  - apply (Hrecorded destructured_node (initial_analysis []) _ "declaration"); reflexivity.
  - apply Hfails. reflexivity.
Defined.

(** ** Descriptors whose test code is a comment *)

Lemma generateTestCode_stub (func : FunctionInfo) (testType : string) (i : nat) (w : world) :
  String.eqb testType "basic" = false -> String.eqb testType "async" = false ->
  String.eqb testType "invalid_param" = false ->
  ensures w (generateTestCode func testType i)
    (fun code => code = Some (stub_code func testType)).
Proof.
  intros Hb Ha Hi. unfold generateTestCode.
  eapply ensures_bind; [apply ensures_true |]. intros templates _.
  rewrite Hb, Ha, Hi. now apply ensures_ret.
Qed.

Lemma param_tests_stubs (func : FunctionInfo) (analysisId : jsval) (w : world)
    (remaining : list ParamInfo) :
  forall i,
    ensures w (param_tests func analysisId remaining i)
      (fun tests =>
         List.length tests = 2 * List.length remaining
         /\ forall j, j < List.length remaining ->
              exists t,
                nth_error tests (2 * j) = Some t
                /\ test_type t = testTypes_UNIT
                /\ test_code t = Some (stub_code func "valid_param")).
Proof.
  induction remaining as [|param rest IH]; intros i; cbn [param_tests].
  - apply ensures_ret. split; [reflexivity |]. cbn. intros j Hj. lia.
  - eapply ensures_bind; [apply ensures_true |]. intros valid_input _.
    eapply ensures_bind; [apply ensures_true |]. intros valid_expected _.
    eapply ensures_bind; [apply generateTestCode_stub; reflexivity |].
    intros valid_code ->.
    eapply ensures_bind; [apply ensures_true |]. intros invalid_input _.
    eapply ensures_bind; [apply ensures_true |]. intros invalid_code _.
    eapply ensures_bind; [apply IH |]. intros more (Hlen & Hmore).
    apply ensures_ret. split; [cbn [List.length]; lia |].
    intros [|j] Hj.
    + eexists. split; [reflexivity |]. split; reflexivity.
    + cbn [List.length] in Hj. destruct (Hmore j ltac:(lia)) as (t & Ht & Hk & Hc).
      exists t. split; [| now split].
      replace (2 * S j) with (S (S (2 * j))) by lia. exact Ht.
Qed.

(** X27.  In every world, for every function, the descriptor for the valid
    value of a parameter and the descriptor for null parameters carry a
    one-line comment as their test code, not a test: of the descriptors of a
    function only the basic one, those for invalid values and the asynchronous
    one hold code that calls the function. *)
Theorem valid_and_null_descriptors_are_stubs (func : FunctionInfo) (analysisId : jsval)
    (w : world) (c c' : counters) (tests : list TestCase)
    (Hrun : generateFunctionTests func analysisId w c = Ok (tests, c')) :
  (forall i,
      i < List.length (f_params func) ->
      exists t,
        nth_error tests (1 + 2 * i) = Some t
        /\ test_type t = testTypes_UNIT
        /\ test_code t = Some (stub_code func "valid_param"))
  /\ (0 < List.length (f_params func) ->
      exists t,
        nth_error tests (1 + 2 * List.length (f_params func)) = Some t
        /\ test_type t = testTypes_NEGATIVE
        /\ test_code t = Some (stub_code func "null_params")).
Proof.
  revert c tests c' Hrun.
  change (ensures w (generateFunctionTests func analysisId)
            (fun tests =>
               (forall i,
                   i < List.length (f_params func) ->
                   exists t,
                     nth_error tests (1 + 2 * i) = Some t
                     /\ test_type t = testTypes_UNIT
                     /\ test_code t = Some (stub_code func "valid_param"))
               /\ (0 < List.length (f_params func) ->
                   exists t,
                     nth_error tests (1 + 2 * List.length (f_params func)) = Some t
                     /\ test_type t = testTypes_NEGATIVE
                     /\ test_code t = Some (stub_code func "null_params")))).
  unfold generateFunctionTests.
  eapply ensures_bind; [apply ensures_true |]. intros basic_input _.
  eapply ensures_bind; [apply ensures_true |]. intros basic_expected _.
  eapply ensures_bind; [apply ensures_true |]. intros basic_code _.
  eapply ensures_bind; [apply param_tests_stubs |]. intros per_param (Hlen & Hper).
  eapply ensures_bind
    with (P := fun nullTests =>
                 0 < List.length (f_params func) ->
                 exists t,
                   nullTests = [t] /\ test_type t = testTypes_NEGATIVE
                   /\ test_code t = Some (stub_code func "null_params")).
  { destruct (Nat.ltb_spec 0 (List.length (f_params func))).
    - eapply ensures_bind; [apply ensures_true |]. intros null_input _.
      eapply ensures_bind; [apply generateTestCode_stub; reflexivity |].
      intros null_code ->. apply ensures_ret. intros _.
      eexists. split; [reflexivity |]. split; reflexivity.
    - apply ensures_ret. intros Hpos. lia. }
  intros nullTests Hnull.
  eapply ensures_bind; [apply ensures_true |]. intros asyncTests _.
  apply ensures_ret. split.
  - intros i Hi. destruct (Hper i Hi) as (t & Ht & Hk & Hc). exists t.
    split; [| now split]. cbn [Nat.add nth_error].
    rewrite nth_error_app1 by lia. exact Ht.
  - intros Hpos. destruct (Hnull Hpos) as (t & -> & Hk & Hc). exists t.
    split; [| now split]. cbn [Nat.add nth_error].
    rewrite nth_error_app2 by lia.
    replace (2 * List.length (f_params func) - List.length per_param) with 0 by lia.
    reflexivity.
Qed.

Lemma valid_and_null_descriptors_are_stubs_witness :
  exists tests c',
    generateFunctionTests add_info VNull offline_world start = Ok (tests, c')
    /\ option_map test_code (nth_error tests 1)
       = Some (Some "// Código de teste para add - valid_param")
    /\ option_map test_code (nth_error tests 5)
       = Some (Some "// Código de teste para add - null_params").
Proof.
  destruct (generateFunctionTests add_info VNull offline_world start)
    as [[tests c'] | e |] eqn:E; try (vm_compute in E; discriminate E).
  destruct (valid_and_null_descriptors_are_stubs _ _ _ _ _ _ E) as [Hvalid Hnull].
  exists tests, c'. split; [reflexivity |]. split.
  - destruct (Hvalid 0 ltac:(cbn; lia)) as (t & Ht & _ & Hc).
    change (1 + 2 * 0) with 1 in Ht. rewrite Ht. cbn [option_map]. now rewrite Hc.
  - destruct (Hnull ltac:(cbn; lia)) as (t & Ht & _ & Hc).
    change (1 + 2 * List.length (f_params add_info)) with 5 in Ht.
    rewrite Ht. cbn [option_map]. now rewrite Hc.
Defined.

(** ** The cardinality of the synthesis, at a sample *)

Lemma synthesis_cardinality_witness :
  exists tests c',
    generateTestCases (analysis_of [add_info; arrow_info]) VNull offline_world start
    = Ok (tests, c')
    /\ List.length tests = 11
    /\ map function_name tests
       = (repeat (Some "add") 6 ++ repeat (Some "<anonymous>") 5)%list
    /\ Forall kind_ok tests.
Proof.
  exact (synthesis_cardinality offline_world (analysis_of [add_info; arrow_info]) VNull
           (fun n => ltac:(discriminate)) eq_refl start).
Defined.

(* ================================================================== *)
(** * Part V. The database helper                                      *)
(* ================================================================== *)

Lemma transaction_unfold {A} (client : pg_client) (callback : pg_client -> Db A)
    (past : list pg_event) :
  transaction (Ok client) callback past
  = match client past "BEGIN" with
    | Some e =>
        (match client (past ++ [Statement "BEGIN"]) "ROLLBACK" with
         | None => Throw e
         | Some e' => Throw e'
         end, [Statement "BEGIN"; Statement "ROLLBACK"; Release])
    | None =>
        match callback client (past ++ [Statement "BEGIN"]) with
        | (Ok result, added) =>
            match client ((past ++ [Statement "BEGIN"]) ++ added) "COMMIT" with
            | None =>
                (Ok result, Statement "BEGIN" :: added ++ [Statement "COMMIT"; Release])
            | Some e =>
                (match client (past ++ Statement "BEGIN" :: added ++ [Statement "COMMIT"])
                         "ROLLBACK" with
                 | None => Throw e
                 | Some e' => Throw e'
                 end,
                 Statement "BEGIN"
                   :: added ++ [Statement "COMMIT"; Statement "ROLLBACK"; Release])
            end
        | (Throw e, added) =>
            (match client (past ++ Statement "BEGIN" :: added) "ROLLBACK" with
             | None => Throw e
             | Some e' => Throw e'
             end, Statement "BEGIN" :: added ++ [Statement "ROLLBACK"; Release])
        | (Beyond, added) => (Beyond, Statement "BEGIN" :: added ++ [Release])
        end
    end%list.
Proof.
  unfold transaction, db_finally_release, db_catch, db_bind, client_query, db_ret, db_throw.
  destruct (client past "BEGIN") as [e|].
  - cbn [app]. destruct (client (past ++ [Statement "BEGIN"])%list "ROLLBACK"); reflexivity.
  - destruct (callback client (past ++ [Statement "BEGIN"])%list) as [[result | e |] added].
    + destruct (client ((past ++ [Statement "BEGIN"]) ++ added)%list "COMMIT") as [e|];
        cbn [app]; try destruct (client _ "ROLLBACK"); cbn [app];
        repeat rewrite <- app_assoc; cbn [app]; rewrite ?app_nil_r; reflexivity.
    + cbn [app]. destruct (client _ "ROLLBACK"); cbn [app];
        repeat rewrite <- app_assoc; cbn [app]; rewrite ?app_nil_r; reflexivity.
    + reflexivity.
Qed.

(** X29.  Once a client is connected, [transaction] opens with [BEGIN] and
    releases the client last on every path.  When [BEGIN] fails it sends
    [ROLLBACK] without calling the callback.  When the callback returns and
    [COMMIT] succeeds it returns the result of the callback, with no
    [ROLLBACK], and it returns a result in no other case.  When the callback
    raises, or returns and [COMMIT] fails, it sends [ROLLBACK].  In each of
    the three failures it raises the error of that failure, or the error of
    the [ROLLBACK] when that fails too.  When the pool gives no client
    nothing is sent and nothing is released. *)
Theorem transaction_commits_or_rolls_back {A : Type} (client : pg_client)
    (callback : pg_client -> Db A) (past : list pg_event) :
  let run := transaction (Ok client) callback past in
  let opened := (past ++ [Statement "BEGIN"])%list in
  (forall error,
      client past "BEGIN" = Some error ->
      run = (after_rollback client opened error,
             [Statement "BEGIN"; Statement "ROLLBACK"; Release]))
  /\ (forall result added,
        client past "BEGIN" = None ->
        callback client opened = (Ok result, added) ->
        client (opened ++ added)%list "COMMIT" = None ->
        run = (Ok result, (Statement "BEGIN" :: added ++ [Statement "COMMIT"; Release])%list))
  /\ (forall result added error,
        client past "BEGIN" = None ->
        callback client opened = (Ok result, added) ->
        client (opened ++ added)%list "COMMIT" = Some error ->
        run = (after_rollback client
                 (past ++ Statement "BEGIN" :: added ++ [Statement "COMMIT"])%list error,
               (Statement "BEGIN"
                  :: added ++ [Statement "COMMIT"; Statement "ROLLBACK"; Release])%list))
  /\ (forall error added,
        client past "BEGIN" = None ->
        callback client opened = (Throw error, added) ->
        run = (after_rollback client (past ++ Statement "BEGIN" :: added)%list error,
               (Statement "BEGIN" :: added ++ [Statement "ROLLBACK"; Release])%list))
  /\ (forall result,
        fst run = Ok result ->
        exists added,
          client past "BEGIN" = None
          /\ callback client opened = (Ok result, added)
          /\ client (opened ++ added)%list "COMMIT" = None)
  /\ (exists body, snd run = (Statement "BEGIN" :: body ++ [Release])%list)
  /\ (forall error, transaction (Throw error) callback past = (Throw error, [])).
Proof.
  cbv zeta. rewrite transaction_unfold. unfold after_rollback.
  destruct (client past "BEGIN") as [e0|] eqn:Ebegin.
  - split; [intros error H; injection H as <-; reflexivity |].
    split; [intros result added H; discriminate |].
    split; [intros result added error H; discriminate |].
    split; [intros error added H; discriminate |].
    split; [intros result H; cbn [fst] in H; destruct (client _ "ROLLBACK"); discriminate |].
    split; [exists [Statement "ROLLBACK"]; reflexivity | reflexivity].
  - split; [intros error H; discriminate |].
    destruct (callback client (past ++ [Statement "BEGIN"])%list)
      as [[result | e |] added] eqn:Ecall.
    + destruct (client ((past ++ [Statement "BEGIN"]) ++ added)%list "COMMIT") as [e|]
        eqn:Ecommit.
      * split; [intros r a _ H Hc; injection H as <- <-; rewrite Ecommit in Hc;
                discriminate |].
        split; [intros r a error _ H Hc; injection H as <- <-; rewrite Ecommit in Hc;
                injection Hc as <-; reflexivity |].
        split; [intros error a _ H; discriminate |].
        split; [intros r H; cbn [fst] in H; destruct (client _ "ROLLBACK"); discriminate |].
        split; [| reflexivity].
        exists (added ++ [Statement "COMMIT"; Statement "ROLLBACK"])%list.
        cbn [snd]. now rewrite <- app_assoc.
      * split; [intros r a _ H _; injection H as <- <-; reflexivity |].
        split; [intros r a error _ H Hc; injection H as <- <-; rewrite Ecommit in Hc;
                discriminate |].
        split; [intros error a _ H; discriminate |].
        split; [intros r H; cbn [fst] in H; injection H as <-; now exists added |].
        split; [| reflexivity].
        exists (added ++ [Statement "COMMIT"])%list. cbn [snd]. now rewrite <- app_assoc.
    + split; [intros r a _ H; discriminate |].
      split; [intros r a error _ H; discriminate |].
      split; [intros error a _ H; injection H as <- <-; reflexivity |].
      split; [intros r H; cbn [fst] in H; destruct (client _ "ROLLBACK"); discriminate |].
      split; [| reflexivity].
      exists (added ++ [Statement "ROLLBACK"])%list. cbn [snd]. now rewrite <- app_assoc.
    + split; [intros r a _ H; discriminate |].
      split; [intros r a error _ H; discriminate |].
      split; [intros error a _ H; discriminate |].
      split; [intros r H; discriminate |].
      split; [now exists added | reflexivity].
Qed.

Lemma transaction_commits_or_rolls_back_witness :
  transaction (Ok steady_client) delete_one []
  = (Ok 1,
     [Statement "BEGIN";
      Statement "DELETE FROM projects WHERE id = $1 AND user_id = $2";
      Statement "COMMIT"; Release])
  /\ transaction (Ok steady_client) project_not_found []
     = (Throw (new_Error "PROJECT_NOT_FOUND"),
        [Statement "BEGIN";
         Statement "SELECT name FROM projects WHERE id = $1 AND user_id = $2";
         Statement "ROLLBACK"; Release])
  /\ transaction (Ok commit_failing_client) delete_one []
     = (Throw (new_Error "connection lost"),
        [Statement "BEGIN";
         Statement "DELETE FROM projects WHERE id = $1 AND user_id = $2";
         Statement "COMMIT"; Statement "ROLLBACK"; Release])
  /\ transaction (Ok broken_client) delete_one []
     = (Throw (new_Error "connection closed"),
        [Statement "BEGIN";
         Statement "DELETE FROM projects WHERE id = $1 AND user_id = $2";
         Statement "COMMIT"; Statement "ROLLBACK"; Release]).
Proof.
  split; [| split; [| split]].
  - destruct (transaction_commits_or_rolls_back steady_client delete_one [])
      as (_ & Hcommit & _).
    exact (Hcommit 1 [Statement "DELETE FROM projects WHERE id = $1 AND user_id = $2"]
             eq_refl eq_refl eq_refl).
  - destruct (transaction_commits_or_rolls_back steady_client project_not_found [])
      as (_ & _ & _ & Hcallback & _).
    exact (Hcallback (new_Error "PROJECT_NOT_FOUND")
             [Statement "SELECT name FROM projects WHERE id = $1 AND user_id = $2"]
             eq_refl eq_refl).
  - destruct (transaction_commits_or_rolls_back commit_failing_client delete_one [])
      as (_ & _ & Hfails & _).
    exact (Hfails 1 [Statement "DELETE FROM projects WHERE id = $1 AND user_id = $2"]
             (new_Error "connection lost") eq_refl eq_refl eq_refl).
  - destruct (transaction_commits_or_rolls_back broken_client delete_one [])
      as (_ & _ & Hfails & _).
    exact (Hfails 1 [Statement "DELETE FROM projects WHERE id = $1 AND user_id = $2"]
             (new_Error "connection lost") eq_refl eq_refl eq_refl).
Defined.
